(** * Gravital visualization: orbital force, particle flow, quality tiers

    A shallow embedding of the physics and adaptive-rendering core of
    [packages/core/src]:

    - [physics/OrbitalForce.ts]   the custom d3 force and its setup,
    - [rendering/LinkObjects.ts]  link renderables and their particle flow,
    - [rendering/NodeObjects.ts]  the shared node resources and the node
                                  renderables,
    - [utils/ResourceManager.ts]  the resource manager and the FPS monitor,
    - [data/Adapter.ts]           validation and adaptation of the data,
    - [components/GravitalVisualization.tsx]  the values that the component
                                  hands to the above.

    Conventions of the embedding.

    - A JavaScript [number] is a real number ([R]): the arithmetic of the
      source is read exactly, without rounding, NaN or infinities.  Counts,
      indices and segment numbers, which the source only ever produces as
      integers, are in [Z] or [nat].
    - Objects that are shared and mutated in place (graph nodes, resource
      managers) live in a heap, a total function from references to object
      states; the code holds references.
    - [Date.now()] and [Math.random()] are inputs: a clock reading per
      processed array position, and the sequence of random draws.
    - A [throw] is a result in [inl].
    - The data that [validateEcosystemData] receives is untyped; there a
      number may also be [NaN] or an infinity, and arrays and objects carry
      their identity.
    - The offsets and positions of the particles are [Float32Array]s.
      [LinkObjects] reads them exactly, like every number; [Stored] has the
      same functions with the rounding of each write explicit, and the
      range of the offsets is stated there.
    - The callback of the performance monitor is code of the user.
      [Sampling] has a callback that only receives the value; [Monitoring]
      has callbacks that stop or restart the monitor that calls them. *)

From Stdlib Require Import Reals Lra ZArith String List Bool Lia.
From stdpp Require Import gmap strings.

Import ListNotations.
Open Scope R_scope.

(** ** JavaScript helpers *)

(** [Math.floor] and [Math.ceil], with integer results. *)
Definition Math_floor (v : R) : Z := Int_part v.

Definition Math_ceil (v : R) : Z := (- Int_part (- v))%Z.

(** [array.findIndex(p)]: the first index whose element satisfies [p],
    [-1] when there is none. *)
Fixpoint findIndexFrom {A : Type} (p : A -> bool) (i : Z) (l : list A) : Z :=
  match l with
  | [] => (-1)%Z
  | a :: rest => if p a then i else findIndexFrom p (i + 1)%Z rest
  end.

Definition findIndex {A : Type} (p : A -> bool) (l : list A) : Z :=
  findIndexFrom p 0%Z l.

(** References to heap objects, and heaps of objects of type [A]. *)
Definition ref := nat.

Definition Heap (A : Type) := ref -> A.

Definition write {A : Type} (h : Heap A) (r : ref) (a : A) : Heap A :=
  fun r' => if Nat.eqb r' r then a else h r'.

(** ** Data model ([types/index.ts]) *)

(** The fields of a [Token] that the physics and the link rendering read or
    write: identity, kind, size, position and velocity. *)
Module Token.
Inductive kind := root | branch | leaf.

Record t := mk {
  id : string;
  type : kind;
  size : R;
  x : R; y : R; z : R;
  vx : R; vy : R; vz : R
}.

Definition kind_eqb (a b : kind) : bool :=
  match a, b with
  | root, root | branch, branch | leaf, leaf => true
  | _, _ => false
  end.
End Token.

(** A [Link]; an endpoint is a node id ([string]) until the host simulation
    resolves it to the node object itself. *)
Module Link.
Inductive endpoint := Id (s : string) | Obj (r : ref).

Record t := mk {
  source : endpoint;
  target : endpoint;
  value : R;
  color : option string
}.
End Link.

(** ** [physics/OrbitalForce.ts] *)

Module OrbitalForce.

(** The variables captured by the closure that [orbitalForce()] returns. *)
Record t := mk {
  nodes : list ref;
  links : list Link.t;
  strength : R;
  focalPoint : option ref
}.

(** [orbitalForce()]: a fresh force. *)
Definition orbitalForce : t := mk [] [] 1 None.

(** [force.initialize(_nodes, _links)], with [_links || []]. *)
Definition initialize (_nodes : list ref) (_links : option (list Link.t))
    (f : t) : t :=
  mk _nodes (default [] _links) (strength f) (focalPoint f).

(** [force.strength(_)] with an argument: the setter. *)
Definition set_strength (s : R) (f : t) : t :=
  mk (nodes f) (links f) s (focalPoint f).

(** [force.focalPoint(_)] with an argument: the setter. *)
Definition set_focalPoint (p : option ref) (f : t) : t :=
  mk (nodes f) (links f) (strength f) p.

Section Force.
Variable f : t.

(** The predicate of [links.filter(...)]: both endpoints are objects and
    the other endpoint of [node] is a branch or a root. *)
Definition isParentLink (h : Heap Token.t) (node : Token.t)
    (link : Link.t) : bool :=
  match Link.source link, Link.target link with
  | Link.Obj s, Link.Obj t =>
      if String.eqb (Token.id (h s)) (Token.id node)
         && (Token.kind_eqb (Token.type (h t)) Token.branch
             || Token.kind_eqb (Token.type (h t)) Token.root)
      then true
      else if String.eqb (Token.id (h t)) (Token.id node)
              && (Token.kind_eqb (Token.type (h s)) Token.branch
                  || Token.kind_eqb (Token.type (h s)) Token.root)
      then true
      else false
  | _, _ => false
  end.

(** [parentLink.source.id === node.id ? parentLink.target
    : parentLink.source]; a string endpoint has no [id]. *)
Definition parentOf (h : Heap Token.t) (node : Token.t)
    (parentLink : Link.t) : Link.endpoint :=
  match Link.source parentLink with
  | Link.Obj s =>
      if String.eqb (Token.id (h s)) (Token.id node)
      then Link.target parentLink
      else Link.source parentLink
  | Link.Id _ => Link.source parentLink
  end.

(** [calculateOrbitRadius(parent, node, linkValue)]; [linkValue ? a : b]
    takes [b] exactly when the value is [0]. *)
Definition calculateOrbitRadius (parent node : Token.t) (linkValue : R) : R :=
  let baseRadius := Token.size parent + Token.size node + 10 in
  let valueAdjustment :=
    if Req_dec_T linkValue 0 then 30 else 30 / Rmax linkValue 1 in
  baseRadius + valueAdjustment.

(** Lines 31-76 of the loop body: the target position on the orbit of
    the node at [r], [None] on an early [return] (a root, or no parent
    link).  [now] is the reading of [Date.now()]. *)
Definition orbitTarget (now : R) (h : Heap Token.t) (r : ref)
    : option (R * R * R) :=
  let node := h r in
  if Token.kind_eqb (Token.type node) Token.root then None
  else
    match List.filter (isParentLink h node) (links f) with
    | [] => None
    | parentLink :: _ =>
        match parentOf h node parentLink with
        | Link.Id _ => None
        | Link.Obj p =>
            let parent := h p in
            let nodeIndex :=
              findIndex (fun n => String.eqb (Token.id (h n)) (Token.id node))
                        (nodes f) in
            let orbitSpeed :=
              if Token.kind_eqb (Token.type node) Token.leaf
              then 0.00025 * strength f else 0.0001 * strength f in
            let orbitRadius :=
              calculateOrbitRadius parent node (Link.value parentLink) in
            let planeOffset :=
              IZR (Z.rem nodeIndex 5) * (PI / 10) + PI / 20 in
            let angle := now * orbitSpeed + IZR nodeIndex * (PI / 6) in
            let targetX := Token.x parent + cos angle * orbitRadius in
            let targetY :=
              Token.y parent + sin angle * orbitRadius * cos planeOffset in
            let targetZ :=
              Token.z parent + sin angle * orbitRadius * sin planeOffset in
            Some (targetX, targetY, targetZ)
        end
    end.

(** The distance of the node at [r] to a target position. *)
Definition distanceTo (h : Heap Token.t) (r : ref) (tgt : R * R * R) : R :=
  let '(targetX, targetY, targetZ) := tgt in
  let dx := targetX - Token.x (h r) in
  let dy := targetY - Token.y (h r) in
  let dz := targetZ - Token.z (h r) in
  sqrt (dx * dx + dy * dy + dz * dz).

(** [node.vx += ax; node.vy += ay; node.vz += az]. *)
Definition addVelocity (node : Token.t) (ax ay az : R) : Token.t :=
  Token.mk (Token.id node) (Token.type node) (Token.size node)
           (Token.x node) (Token.y node) (Token.z node)
           (Token.vx node + ax) (Token.vy node + ay) (Token.vz node + az).

(** One iteration of [nodes.forEach]: the whole loop body for the node
    at [r]. *)
Definition forceNode (alpha now : R) (h : Heap Token.t) (r : ref)
    : Heap Token.t :=
  match orbitTarget now h r with
  | None => h
  | Some (targetX, targetY, targetZ) =>
      let node := h r in
      let dx := targetX - Token.x node in
      let dy := targetY - Token.y node in
      let dz := targetZ - Token.z node in
      let distance := sqrt (dx * dx + dy * dy + dz * dz) in
      if Req_dec_T distance 0 then h
      else
        let forceMagnitude := Rmin distance 2 * alpha * strength f in
        write h r (addVelocity node
                     (dx / distance * forceMagnitude)
                     (dy / distance * forceMagnitude)
                     (dz / distance * forceMagnitude))
  end.

(** [nodes.forEach(...)], from array position [i] on; [clock i] is what
    [Date.now()] returns while position [i] is processed. *)
Fixpoint forEachNode (alpha : R) (clock : nat -> R) (i : nat)
    (l : list ref) (h : Heap Token.t) : Heap Token.t :=
  match l with
  | [] => h
  | r :: rest =>
      forEachNode alpha clock (S i) rest (forceNode alpha (clock i) h r)
  end.

(** [force(alpha)]. *)
Definition force (alpha : R) (clock : nat -> R) (h : Heap Token.t)
    : Heap Token.t :=
  if Rle_dec (strength f) 0 then h
  else forEachNode alpha clock 0 (nodes f) h.
End Force.

(** What the force reads of a node other than its velocity. *)
Definition sameGeometry (n n' : Token.t) : Prop :=
  Token.id n = Token.id n' /\ Token.type n = Token.type n' /\
  Token.size n = Token.size n' /\
  Token.x n = Token.x n' /\ Token.y n = Token.y n' /\ Token.z n = Token.z n'.

Definition geomEq (h h' : Heap Token.t) : Prop :=
  forall r, sameGeometry (h r) (h' r).

(** The velocity that a tick added to the node at [r], and the Euclidean
    magnitude of a vector. *)
Definition velocityDelta (h h' : Heap Token.t) (r : ref) : R * R * R :=
  (Token.vx (h' r) - Token.vx (h r),
   Token.vy (h' r) - Token.vy (h r),
   Token.vz (h' r) - Token.vz (h r)).

Definition magnitude (v : R * R * R) : R :=
  let '(a, b, c) := v in sqrt (a * a + b * b + c * c).

End OrbitalForce.

(** ** three.js objects

    The objects of the rendering library that the code builds, reduced to
    the data it gives them. *)

Module THREE.

(** A color argument: a hex number or a CSS string. *)
Inductive Color := Hex (n : Z) | Css (s : string).

(** The canvas of a sprite texture: its size and its radial gradient. *)
Record Canvas := mkCanvas {
  width : Z;
  height : Z;
  gradientRadius : R;
  colorStops : list (R * string)
}.

(** [new THREE.Texture(image?)]. *)
Record Texture := mkTexture {
  image : option Canvas;
  needsUpdate : bool
}.

(** Geometries: [SphereGeometry(radius, widthSegments, heightSegments)],
    and a [BufferGeometry] with its [position] attribute. *)
Inductive BufferGeometry :=
| SphereGeometry (radius : R) (widthSegments heightSegments : Z)
| PositionGeometry (position : list R).

Inductive MaterialKind := LineBasic | Points.

(** [LineBasicMaterial] and [PointsMaterial] parameters. *)
Record Material := mkMaterial {
  kind : MaterialKind;
  transparent : bool;
  opacity : R;
  color : Color;
  size : R;
  map : option Texture
}.

End THREE.

(** ** [utils/ResourceManager.ts] *)

(** [throw new Error(message)]. *)
Inductive Error := mkError (message : string).

(** A name between double quotes, as the messages print it. *)
Definition quoted (name : string) : string :=
  String (Ascii.ascii_of_nat 34) (name ++ String (Ascii.ascii_of_nat 34) EmptyString).

(** Sequencing of computations that may throw. *)
Definition bind {A B : Type} (c : Error + A) (k : A -> Error + B) : Error + B :=
  match c with
  | inl e => inl e
  | inr a => k a
  end.

Notation "x <- c ;; k" := (bind c (fun x => k))
  (at level 100, c at next level, right associativity).

(** The quality tier: ['high' | 'medium' | 'low']. *)
Inductive Detail := high | medium | low.

Module ResourceManager.

Record t := mk {
  geometries : gmap string THREE.BufferGeometry;
  materials : gmap string THREE.Material;
  textures : gmap string THREE.Texture;
  parameters : gmap string Z
}.

(** [new ResourceManager()]. *)
Definition new : t := mk ∅ ∅ ∅ ∅.

(** The [add] methods replace an entry of the same name (after disposing of
    its GPU resource, which has no state here). *)
Definition addGeometry (name : string) (geometry : THREE.BufferGeometry)
    (m : t) : t :=
  mk (<[name := geometry]> (geometries m)) (materials m) (textures m)
     (parameters m).

Definition getGeometry (name : string) (m : t) : Error + THREE.BufferGeometry :=
  match geometries m !! name with
  | Some geometry => inr geometry
  | None => inl (mkError ("Geometry " ++ quoted name ++ " not found in ResourceManager"))
  end.

Definition addMaterial (name : string) (material : THREE.Material)
    (m : t) : t :=
  mk (geometries m) (<[name := material]> (materials m)) (textures m)
     (parameters m).

Definition getMaterial (name : string) (m : t) : Error + THREE.Material :=
  match materials m !! name with
  | Some material => inr material
  | None => inl (mkError ("Material " ++ quoted name ++ " not found in ResourceManager"))
  end.

Definition addTexture (name : string) (texture : THREE.Texture) (m : t) : t :=
  mk (geometries m) (materials m) (<[name := texture]> (textures m))
     (parameters m).

Definition getTexture (name : string) (m : t) : Error + THREE.Texture :=
  match textures m !! name with
  | Some texture => inr texture
  | None => inl (mkError ("Texture " ++ quoted name ++ " not found in ResourceManager"))
  end.

Definition setParameter (name : string) (v : Z) (m : t) : t :=
  mk (geometries m) (materials m) (textures m) (<[name := v]> (parameters m)).

(** [getParameter(name)]: [None] is [undefined]. *)
Definition getParameter (name : string) (m : t) : option Z :=
  parameters m !! name.

(** [dispose()]: every map is cleared. *)
Definition dispose (m : t) : t := mk ∅ ∅ ∅ ∅.

Definition getStats (m : t) : nat * nat * nat :=
  (size (geometries m), size (materials m), size (textures m)).

End ResourceManager.

(** [PerformanceMonitor]: the fields that the quality recommendation
    depends on.  The sampling loop ([startMonitoring]) is driven by the
    host's animation frames and is not part of this development. *)
Module PerformanceMonitor.

Record t := mk {
  fps : R;
  frames : Z;
  lastTime : R;
  interval : R;
  tracking : bool
}.

(** [new PerformanceMonitor()]. *)
Definition new : t := mk 0 0 0 1000 false.

Definition getFPS (m : t) : R := fps m.

Definition getRecommendedQualityLevel (m : t) : Detail :=
  let fps := getFPS m in
  if Rlt_dec fps 15 then low
  else if Rlt_dec fps 30 then medium
  else high.

End PerformanceMonitor.

(** ** Module state of the rendering layer

    The resource managers are shared objects: [managers] is their heap and
    [allocated] the next fresh reference.  [resourceManager] and
    [linkResourceManager] are the module variables of [NodeObjects.ts] and
    [LinkObjects.ts]; [hasDocument] tells whether [document] is defined. *)
Record World := mkWorld {
  managers : Heap ResourceManager.t;
  allocated : ref;
  resourceManager : option ref;
  linkResourceManager : option ref;
  hasDocument : bool
}.

(** ** [rendering/NodeObjects.ts] *)

Module NodeObjects.

(** [createGlowTexture()]. *)
Definition createGlowTexture (w : World) : THREE.Texture :=
  if negb (hasDocument w) then THREE.mkTexture None false
  else
    let canvas :=
      THREE.mkCanvas 128 128 (128 / 2)
        [(0, "rgba(255, 255, 255, 1)"%string);
         (0.2, "rgba(255, 255, 255, 0.8)"%string);
         (0.4, "rgba(255, 255, 255, 0.4)"%string);
         (1, "rgba(255, 255, 255, 0)"%string)] in
    THREE.mkTexture (Some canvas) true.

(** The local function [getResolution] of [initNodeResources]. *)
Definition getResolution (detail : Detail) (base : Z) : Z :=
  match detail with
  | high => base
  | medium => Z.max 8 (Math_floor (IZR base * 0.7))
  | low => Z.max 6 (Math_floor (IZR base * 0.5))
  end.

(** [initNodeResources(detail)]: the manager and the next state. *)
Definition initNodeResources (detail : Detail) (w : World) : ref * World :=
  match resourceManager w with
  | Some m => (m, w)
  | None =>
      let m := allocated w in
      let rm := ResourceManager.new in
      let rm :=
        ResourceManager.addGeometry "rootNode"
          (THREE.SphereGeometry 1 (getResolution detail 32) (getResolution detail 32))
          rm in
      let rm :=
        ResourceManager.addGeometry "branchNode"
          (THREE.SphereGeometry 1 (getResolution detail 24) (getResolution detail 24))
          rm in
      let rm :=
        ResourceManager.addGeometry "leafNode"
          (THREE.SphereGeometry 1 (getResolution detail 16) (getResolution detail 16))
          rm in
      let glowTexture := createGlowTexture w in
      let rm := ResourceManager.addTexture "glow" glowTexture rm in
      (m, mkWorld (write (managers w) m rm) (S m) (Some m)
                  (linkResourceManager w) (hasDocument w))
  end.

(** [disposeNodeResources()]. *)
Definition disposeNodeResources (w : World) : World :=
  match resourceManager w with
  | Some m =>
      mkWorld (write (managers w) m (ResourceManager.dispose (managers w m)))
              (allocated w) None (linkResourceManager w) (hasDocument w)
  | None => w
  end.

End NodeObjects.

(** ** [rendering/LinkObjects.ts] *)

Module LinkObjects.

(** An [{x, y, z}] position. *)
Definition vec3 := (R * R * R)%type.

(** The [__metadata] of a particle system. *)
Record Metadata := mkMetadata {
  count : Z;
  speed : R;
  length : R;
  dir : vec3;
  offsets : list R
}.

(** A [THREE.Points] particle system: its [position] attribute, the
    material and the metadata. *)
Record Points := mkPoints {
  positions : list R;
  needsUpdate : bool;
  material : THREE.Material;
  __metadata : option Metadata
}.

(** What the [source] and [target] of a link object are bound to: the node
    object of the endpoint, or a fresh [{x: 0, y: 0, z: 0}]. *)
Inductive Anchor := Node (r : ref) | Origin.

Inductive Object3D :=
| Line (geometry : THREE.BufferGeometry) (material : THREE.Material)
| ParticleSystem (p : Points).

(** The [THREE.Group] of a link; [__updateParticles] holds the anchors that
    the update closure captured. *)
Record Group := mkGroup {
  children : list Object3D;
  __updateParticles : option (Anchor * Anchor)
}.

(** [createParticleTexture()]. *)
Definition createParticleTexture (w : World) : THREE.Texture :=
  if negb (hasDocument w) then THREE.mkTexture None false
  else
    let canvas :=
      THREE.mkCanvas 32 32 (32 / 4)
        [(0, "rgba(255, 255, 255, 1)"%string);
         (0.5, "rgba(255, 255, 255, 0.5)"%string);
         (1, "rgba(255, 255, 255, 0)"%string)] in
    THREE.mkTexture (Some canvas) true.

(** The [switch (detail)] of [initLinkResources]. *)
Definition maxParticlesOf (detail : Detail) : Z :=
  match detail with
  | high => 50
  | medium => 25
  | low => 10
  end.

(** [initLinkResources(detail)]: the manager and the next state. *)
Definition initLinkResources (detail : Detail) (w : World) : ref * World :=
  match linkResourceManager w with
  | Some m => (m, w)
  | None =>
      let m := allocated w in
      let rm := ResourceManager.new in
      let particleTexture := createParticleTexture w in
      let rm := ResourceManager.addTexture "particle" particleTexture rm in
      let linkMaterial :=
        THREE.mkMaterial THREE.LineBasic true 0.6 (THREE.Hex 16777215) 1 None in
      let rm := ResourceManager.addMaterial "linkBase" linkMaterial rm in
      let maxParticles := maxParticlesOf detail in
      let rm := ResourceManager.setParameter "maxParticles" maxParticles rm in
      (m, mkWorld (write (managers w) m rm) (S m) (resourceManager w)
                  (Some m) (hasDocument w))
  end.

(** [disposeLinkResources()]. *)
Definition disposeLinkResources (w : World) : World :=
  match linkResourceManager w with
  | Some m =>
      mkWorld (write (managers w) m (ResourceManager.dispose (managers w m)))
              (allocated w) (resourceManager w) None (hasDocument w)
  | None => w
  end.

(** [positions.setXYZ(i, x, y, z)]; a typed array ignores a write past its
    end. *)
Definition setXYZ (i : nat) (x y z : R) (positions : list R) : list R :=
  <[(i * 3 + 2)%nat := z]> (<[(i * 3 + 1)%nat := y]> (<[(i * 3)%nat := x]> positions)).

(** The initialization loop of [createParticleSystem], from particle [i]
    on, [n] particles left; [random i] is the draw of [Math.random()] for
    particle [i]. *)
Fixpoint initParticles (source dir : vec3) (random : nat -> R) (i n : nat)
    (positions offsets : list R) : list R * list R :=
  match n with
  | O => (positions, offsets)
  | S n' =>
      let '(sx, sy, sz) := source in
      let '(dx, dy, dz) := dir in
      let offset := random i in
      let offsets := <[i := offset]> offsets in
      let positions :=
        setXYZ i (sx + dx * offset) (sy + dy * offset) (sz + dz * offset)
               positions in
      initParticles source dir random (S i) n' positions offsets
  end.

(** [createParticleSystem(source, target, color, speed, count, size)]. *)
Definition createParticleSystem (source target : vec3) (color : THREE.Color)
    (speed : R) (count : Z) (size : R) (random : nat -> R) (w : World)
    : Error + Points :=
  match linkResourceManager w with
  | None => inl (mkError "Link resource manager is not initialized")
  | Some m =>
      let '(sx, sy, sz) := source in
      let '(tx, ty, tz) := target in
      let dir := (tx - sx, ty - sy, tz - sz) in
      let length :=
        sqrt ((tx - sx) * (tx - sx) + (ty - sy) * (ty - sy)
              + (tz - sz) * (tz - sz)) in
      texture <- ResourceManager.getTexture "particle" (managers w m) ;;
      let particleMaterial :=
        THREE.mkMaterial THREE.Points true 1 color size (Some texture) in
      if (count <? 0)%Z then inl (mkError "Invalid typed array length")
      else
        let positions := repeat 0 (Z.to_nat (count * 3)) in
        let offsets := repeat 0 (Z.to_nat count) in
        let '(positions, offsets) :=
          initParticles source dir random 0 (Z.to_nat count) positions offsets in
        inr (mkPoints positions false particleMaterial
               (Some (mkMetadata count speed length dir offsets)))
  end.

(** The update loop of [updateParticles], from particle [i] on, [n]
    particles left.  [offsets] has [count] elements by construction; past
    its end there is nothing to advance. *)
Fixpoint advanceParticles (source dir : vec3) (length speed : R) (i n : nat)
    (positions offsets : list R) : list R * list R :=
  match n with
  | O => (positions, offsets)
  | S n' =>
      match offsets !! i with
      | None =>
          advanceParticles source dir length speed (S i) n' positions offsets
      | Some o =>
          let '(sx, sy, sz) := source in
          let '(dx, dy, dz) := dir in
          let o := o + speed in
          let o := if Rgt_dec o 1 then o - 1 else o in
          let offsets := <[i := o]> offsets in
          let positions :=
            setXYZ i (sx + dx * length * o) (sy + dy * length * o)
                   (sz + dz * length * o) positions in
          advanceParticles source dir length speed (S i) n' positions offsets
      end
  end.

(** [updateParticles(particleSystem, source, target)]. *)
Definition updateParticles (particleSystem : Points) (source target : vec3)
    : Points :=
  match __metadata particleSystem with
  | None => particleSystem
  | Some metadata =>
      let '(sx, sy, sz) := source in
      let '(tx, ty, tz) := target in
      let length :=
        sqrt ((tx - sx) * (tx - sx) + (ty - sy) * (ty - sy)
              + (tz - sz) * (tz - sz)) in
      if Req_dec_T length 0 then particleSystem
      else
        let dir := ((tx - sx) / length, (ty - sy) / length, (tz - sz) / length) in
        let '(positions, offsets) :=
          advanceParticles source dir length (speed metadata) 0
            (Z.to_nat (count metadata)) (positions particleSystem)
            (offsets metadata) in
        mkPoints positions true (material particleSystem)
          (Some (mkMetadata (count metadata) (speed metadata) length dir offsets))
  end.

(** The object that [source] or [target] is bound to in [createLinkObject],
    and its position in the current heap of nodes. *)
Definition anchorOf (e : Link.endpoint) : Anchor :=
  match e with
  | Link.Obj r => Node r
  | Link.Id _ => Origin
  end.

Definition positionOf (tokens : Heap Token.t) (a : Anchor) : vec3 :=
  match a with
  | Node r => (Token.x (tokens r), Token.y (tokens r), Token.z (tokens r))
  | Origin => (0, 0, 0)
  end.

(** [createLinkObject(link, showParticles, particleSpeed, particleSize)]:
    the link object or the error thrown, and the next state. *)
Definition createLinkObject (link : Link.t) (showParticles : bool)
    (particleSpeed particleSize : R) (tokens : Heap Token.t)
    (random : nat -> R) (w : World) : (Error + Group) * World :=
  let w :=
    match linkResourceManager w with
    | None => snd (initLinkResources medium w)
    | Some _ => w
    end in
  match linkResourceManager w with
  | None => (inl (mkError "Failed to initialize link resources"), w)
  | Some m =>
      let source := anchorOf (Link.source link) in
      let target := anchorOf (Link.target link) in
      let '(sx, sy, sz) := positionOf tokens source in
      let '(tx, ty, tz) := positionOf tokens target in
      let linkColor :=
        match Link.color link with
        | Some c => if String.eqb c EmptyString then THREE.Hex 11184810 else THREE.Css c
        | None => THREE.Hex 11184810
        end in
      let positions := [sx; sy; sz; tx; ty; tz] in
      let result :=
        baseMaterial <- ResourceManager.getMaterial "linkBase" (managers w m) ;;
        let linkMaterial :=
          THREE.mkMaterial (THREE.kind baseMaterial)
            (THREE.transparent baseMaterial)
            (Rmin (0.3 + (if Req_dec_T (Link.value link) 0 then 1
                          else Link.value link) * 0.05) 0.8)
            linkColor (THREE.size baseMaterial) (THREE.map baseMaterial) in
        let linkLine := Line (THREE.PositionGeometry positions) linkMaterial in
        if showParticles && (if Rgt_dec (Link.value link) 0 then true else false)
        then
          let maxParticles :=
            match ResourceManager.getParameter "maxParticles" (managers w m) with
            | Some p => if (p =? 0)%Z then 25%Z else p
            | None => 25%Z
            end in
          let particleCount :=
            Z.min (Math_ceil (Link.value link * 2)) maxParticles in
          particleSystem <-
            createParticleSystem (sx, sy, sz) (tx, ty, tz) linkColor
              particleSpeed particleCount particleSize random w ;;
          inr (mkGroup [linkLine; ParticleSystem particleSystem]
                       (Some (source, target)))
        else inr (mkGroup [linkLine] None) in
      (result, w)
  end.

(** A call of the [__updateParticles] closure of a link object: its
    particle system advances along the current positions of the anchors. *)
Definition callUpdateParticles (tokens : Heap Token.t) (group : Group) : Group :=
  match __updateParticles group with
  | None => group
  | Some (source, target) =>
      mkGroup
        (List.map
           (fun child =>
              match child with
              | ParticleSystem p =>
                  ParticleSystem
                    (updateParticles p (positionOf tokens source)
                                     (positionOf tokens target))
              | Line _ _ => child
              end)
           (children group))
        (__updateParticles group)
  end.


(** The offset of a particle after one update:
    [offsets[i] += speed; if (offsets[i] > 1) offsets[i] -= 1]. *)
Definition advanceOffset (speed o : R) : R :=
  let o := o + speed in
  if Rgt_dec o 1 then o - 1 else o.

(** The offsets of a particle system, and the system after a run of frames,
    each frame with the positions of the source and the target. *)
Definition offsetsOf (particleSystem : Points) : list R :=
  match __metadata particleSystem with
  | Some metadata => offsets metadata
  | None => []
  end.

Definition animate (particleSystem : Points) (frames : list (vec3 * vec3))
    : Points :=
  fold_left (fun p frame => updateParticles p (fst frame) (snd frame))
            frames particleSystem.

(** The particle systems among the children of a link object. *)
Definition particleSystemsOf (group : Group) : list Points :=
  flat_map (fun child =>
              match child with
              | ParticleSystem p => [p]
              | Line _ _ => []
              end)
           (children group).

End LinkObjects.

(** ** The host simulation and [setupOrbitalPhysics] *)

Module ForceGraph.

(** A force of the registry: the orbital force, or a force of the host
    library, with or without an [initialize] method. *)
Inductive Force :=
| Orbital (f : OrbitalForce.t)
| HostForce (hasInitialize : bool).

(** The listener that [setupOrbitalPhysics] registers. *)
Inductive Listener := RebindOrbital.

(** The d3 simulation: force registry, listeners by event name, nodes. *)
Record Simulation := mkSimulation {
  forces : gmap string Force;
  listeners : gmap string Listener;
  nodes : list ref
}.

(** The force graph: what [d3Force()] returns ([None]: nothing usable) and
    the links of [graphData()]. *)
Record t := mk {
  d3Force : option Simulation;
  links : option (list Link.t)
}.

(** [setupOrbitalPhysics(forceGraph, orbitalStrength = 1)]: the error
    thrown, or the force returned and the force graph after the call. *)
Definition setupOrbitalPhysics (forceGraph : option t)
    (orbitalStrength : option R) : Error + (OrbitalForce.t * t) :=
  let orbitalStrength := default 1 orbitalStrength in
  match forceGraph with
  | None => inl (mkError "Force graph reference is required")
  | Some fg =>
      match d3Force fg with
      | None => inl (mkError "Simulation not available from force graph")
      | Some simulation =>
          let orbital := OrbitalForce.orbitalForce in
          let orbital := OrbitalForce.set_strength orbitalStrength orbital in
          let simulation :=
            mkSimulation (<["orbital"%string := Orbital orbital]> (forces simulation))
                         (listeners simulation) (nodes simulation) in
          let simulation :=
            mkSimulation (forces simulation)
                         (<["tick"%string := RebindOrbital]> (listeners simulation))
                         (nodes simulation) in
          inr (orbital, mk (Some simulation) (links fg))
      end
  end.

(** The body of the tick listener: the orbital force is given the current
    nodes and links. *)
Definition onTick (fg : t) : t :=
  match d3Force fg with
  | None => fg
  | Some simulation =>
      match links fg, forces simulation !! "orbital"%string with
      | Some ls, Some (Orbital f) =>
          mk (Some (mkSimulation
                      (<["orbital"%string :=
                           Orbital (OrbitalForce.initialize (nodes simulation) (Some ls) f)]>
                         (forces simulation))
                      (listeners simulation) (nodes simulation)))
             (links fg)
      | _, _ => fg
      end
  end.

End ForceGraph.

(** ** Worked scenario: a leaf orbiting a root *)

Module Scenario.
Import OrbitalForce.

(** A leaf of size 2 on the x axis (reference 0) and a root of size 10 at
    the origin (reference 1), joined by a link of value 1. *)
Definition leafToken (x : R) : Token.t :=
  Token.mk "leaf-1" Token.leaf 2 x 0 0 0 0 0.

Definition rootToken : Token.t :=
  Token.mk "root-1" Token.root 10 0 0 0 0 0 0.

Definition heapAt (x : R) : Heap Token.t :=
  fun r => match r with 0%nat => leafToken x | _ => rootToken end.

Definition heap : Heap Token.t := heapAt 0.

Definition link (v : R) : Link.t :=
  Link.mk (Link.Obj 0%nat) (Link.Obj 1%nat) v None.

Definition orbital (s : R) : OrbitalForce.t :=
  set_strength s (initialize [0%nat; 1%nat] (Some [link 1]) orbitalForce).

Definition clock : nat -> R := fun _ => 0.

(** The rendering layer before any resource exists, without a DOM. *)
Definition world : World :=
  mkWorld (fun _ => ResourceManager.new) 0%nat None None false.

(** One particle drawn at offset 1/2 on the segment from the origin to
    (1, 0, 0), moving by 1/2 per frame. *)
Definition random : nat -> R := fun _ => 1 / 2.

Definition particles : LinkObjects.Points :=
  LinkObjects.mkPoints [1 / 2; 0; 0] false
    (THREE.mkMaterial THREE.Points true 1 (THREE.Hex 11184810) 1
       (Some (THREE.mkTexture None false)))
    (Some (LinkObjects.mkMetadata 1 (1 / 2) 1 (1, 0, 0) [1 / 2])).

(** A monitor that measured [fps] frames per second. *)
Definition monitor (fps : R) : PerformanceMonitor.t :=
  PerformanceMonitor.mk fps 0 0 1000 true.

(** A force graph whose simulation holds the two nodes and no force. *)
Definition forceGraph : ForceGraph.t :=
  ForceGraph.mk (Some (ForceGraph.mkSimulation ∅ ∅ [0%nat; 1%nat]))
                (Some [link 1]).

End Scenario.

(** ** Vectors and resolved links, for the statements on the force *)

Module Geometry.

(** The position of a node. *)
Definition position (n : Token.t) : R * R * R :=
  (Token.x n, Token.y n, Token.z n).

Definition minus3 (a b : R * R * R) : R * R * R :=
  let '(a1, a2, a3) := a in
  let '(b1, b2, b3) := b in
  (a1 - b1, a2 - b2, a3 - b3).

Definition scale3 (c : R) (v : R * R * R) : R * R * R :=
  let '(v1, v2, v3) := v in (c * v1, c * v2, c * v3).

(** Both endpoints of the link are node objects
    ([typeof link.source === 'object' && typeof link.target === 'object']). *)
Definition resolved (link : Link.t) : bool :=
  match Link.source link, Link.target link with
  | Link.Obj _, Link.Obj _ => true
  | _, _ => false
  end.

End Geometry.

(** ** Segments and allocation, for the statements on the link objects *)

Module Flow.





(** The managers that the module variables hold were allocated, each one
    apart: what [new ResourceManager()] guarantees of the two modules. *)
Definition wellAllocated (w : World) : Prop :=
  (forall m, resourceManager w = Some m -> (m < allocated w)%nat) /\
  (forall m, linkResourceManager w = Some m -> (m < allocated w)%nat) /\
  (forall m m', resourceManager w = Some m -> linkResourceManager w = Some m' ->
                m <> m').


End Flow.

(** ** [utils/ResourceManager.ts]: the sampling loop of [PerformanceMonitor] *)

(** [Math.round], with an integer result: the nearest integer, the upper
    one at a tie. *)
Definition Math_round (v : R) : Z := Math_floor (v + 0.5).

Module Sampling.

(** The host of the loop: the ids of the animation frames requested and
    neither run nor cancelled, the id of the next request, the heap
    statistics of [window.performance.memory] where the browser has them,
    and the values that the callback was called with, the latest first (a
    callback that does not call the monitor back). *)
Record Host := mkHost {
  pending : gset nat;
  nextId : nat;
  memory : option Z;
  reported : list R
}.

(** The monitor: the fields of [PerformanceMonitor.t], whether a callback
    is set, the id of the frame requested last, and the memory history of
    times and statistics, the oldest first. *)
Record t := mk {
  core : PerformanceMonitor.t;
  callback : bool;
  rafId : option nat;
  memoryHistory : list (R * Z)
}.

(** [new PerformanceMonitor()]. *)
Definition new : t := mk PerformanceMonitor.new false None [].

Definition requestAnimationFrame (host : Host) : nat * Host :=
  (nextId host,
   mkHost ({[nextId host]} ∪ pending host) (S (nextId host)) (memory host)
          (reported host)).

Definition cancelAnimationFrame (id : nat) (host : Host) : Host :=
  mkHost (pending host ∖ {[id]}) (nextId host) (memory host) (reported host).

(** [stopMonitoring()]. *)
Definition stopMonitoring (st : t * Host) : t * Host :=
  let '(m, host) := st in
  let c := core m in
  let stopped :=
    PerformanceMonitor.mk (PerformanceMonitor.fps c) (PerformanceMonitor.frames c)
      (PerformanceMonitor.lastTime c) (PerformanceMonitor.interval c) false in
  match rafId m with
  | Some id =>
      (mk stopped (callback m) None (memoryHistory m),
       cancelAnimationFrame id host)
  | None => (mk stopped (callback m) (rafId m) (memoryHistory m), host)
  end.

(** [startMonitoring(callback, interval = 1000)]; [now] is the reading of
    [performance.now()]. *)
Definition startMonitoring (cb : bool) (interval : option R) (now : R)
    (st : t * Host) : t * Host :=
  let '(m, host) :=
    if PerformanceMonitor.tracking (core (fst st)) then stopMonitoring st
    else st in
  let c := core m in
  let started :=
    PerformanceMonitor.mk (PerformanceMonitor.fps c) 0 now
      (default 1000 interval) true in
  let '(id, host) := requestAnimationFrame host in
  (mk started cb (Some id) (memoryHistory m), host).

(** The closure [updateFPS] of [startMonitoring]; [now] is the reading of
    [performance.now()]. *)
Definition updateFPS (now : R) (st : t * Host) : t * Host :=
  let '(m, host) := st in
  let c := core m in
  let frames := (PerformanceMonitor.frames c + 1)%Z in
  let time := now in
  let elapsed := time - PerformanceMonitor.lastTime c in
  let '(m, host) :=
    if Rge_dec elapsed (PerformanceMonitor.interval c) then
      let fps := IZR (Math_round (IZR frames * 1000 / elapsed)) in
      let history :=
        match memory host with
        | Some snapshot =>
            let pushed := memoryHistory m ++ [(time, snapshot)] in
            if (60 <? List.length pushed)%nat then tl pushed else pushed
        | None => memoryHistory m
        end in
      let host :=
        if callback m
        then mkHost (pending host) (nextId host) (memory host)
                    (fps :: reported host)
        else host in
      (mk (PerformanceMonitor.mk fps 0 time (PerformanceMonitor.interval c)
                                 (PerformanceMonitor.tracking c))
          (callback m) (rafId m) history,
       host)
    else
      (mk (PerformanceMonitor.mk (PerformanceMonitor.fps c) frames
                                 (PerformanceMonitor.lastTime c)
                                 (PerformanceMonitor.interval c)
                                 (PerformanceMonitor.tracking c))
          (callback m) (rafId m) (memoryHistory m),
       host) in
  let '(id, host) := requestAnimationFrame host in
  (mk (core m) (callback m) (Some id) (memoryHistory m), host).

(** The host runs the frame requested under [id], if it is still
    pending. *)
Definition frame (id : nat) (now : R) (st : t * Host) : t * Host :=
  let '(m, host) := st in
  if decide (id ∈ pending host)
  then updateFPS now (m, cancelAnimationFrame id host)
  else st.

(** The host runs the frame that the monitor requested last. *)
Definition nextFrame (now : R) (st : t * Host) : t * Host :=
  match rafId (fst st) with
  | Some id => frame id now st
  | None => st
  end.

(** [getMemoryHistory()]: a copy of the history. *)
Definition getMemoryHistory (m : t) : list (R * Z) := memoryHistory m.

End Sampling.

(** ** [utils/ResourceManager.ts]: the sampling loop with callbacks that
    call the monitor back

    The callback that [updateFPS] calls is code of the user: it may call
    [stopMonitoring] or [startMonitoring] on the monitor that is calling
    it.  Here the monitor holds what its callback does, and [updateFPS]
    runs it where the source calls it: after the frame rate is set and
    before the counters are reset and the next frame is requested. *)

Module Monitoring.
Import Sampling.

(** What a callback does when it is called with the frame rate: nothing to
    the monitor, [stopMonitoring()], or [startMonitoring(next, interval)]. *)
#[warnings="-register-all"]
Inductive Callback :=
| Inert
| Stops
| Restarts (next : option Callback) (interval : option R).

(** The monitor: the fields of [PerformanceMonitor.t], the callback, the
    id of the frame requested last, and the memory history, the oldest
    entry first. *)
Record t := mk {
  core : PerformanceMonitor.t;
  callback : option Callback;
  rafId : option nat;
  memoryHistory : list (R * Z)
}.

(** [new PerformanceMonitor()]. *)
Definition new : t := mk PerformanceMonitor.new None None [].

(** [stopMonitoring()]. *)
Definition stopMonitoring (st : t * Host) : t * Host :=
  let '(m, host) := st in
  let c := core m in
  let stopped :=
    PerformanceMonitor.mk (PerformanceMonitor.fps c) (PerformanceMonitor.frames c)
      (PerformanceMonitor.lastTime c) (PerformanceMonitor.interval c) false in
  match rafId m with
  | Some id =>
      (mk stopped (callback m) None (memoryHistory m),
       cancelAnimationFrame id host)
  | None => (mk stopped (callback m) (rafId m) (memoryHistory m), host)
  end.

(** [startMonitoring(callback, interval = 1000)]; [now] is the reading of
    [performance.now()]. *)
Definition startMonitoring (cb : option Callback) (interval : option R)
    (now : R) (st : t * Host) : t * Host :=
  let '(m, host) :=
    if PerformanceMonitor.tracking (core (fst st)) then stopMonitoring st
    else st in
  let c := core m in
  let started :=
    PerformanceMonitor.mk (PerformanceMonitor.fps c) 0 now
      (default 1000 interval) true in
  let '(id, host) := requestAnimationFrame host in
  (mk started cb (Some id) (memoryHistory m), host).

(** [this.callback(this.fps)]: the host records the value, then the
    callback does what it does.  A restart reads the clock again; the
    reading is taken to be that of the frame, [now] (the line after the
    call sets [lastTime] to the time of the frame in any case). *)
Definition runCallback (cb : Callback) (fps now : R) (st : t * Host)
    : t * Host :=
  let '(m, host) := st in
  let st :=
    (m, mkHost (pending host) (nextId host) (memory host)
               (fps :: reported host)) in
  match cb with
  | Inert => st
  | Stops => stopMonitoring st
  | Restarts next interval => startMonitoring next interval now st
  end.

(** The closure [updateFPS] of [startMonitoring]; [now] is the reading of
    [performance.now()]. *)
Definition updateFPS (now : R) (st : t * Host) : t * Host :=
  let '(m, host) := st in
  let c := core m in
  let frames := (PerformanceMonitor.frames c + 1)%Z in
  let time := now in
  let elapsed := time - PerformanceMonitor.lastTime c in
  let '(m, host) :=
    if Rge_dec elapsed (PerformanceMonitor.interval c) then
      let fps := IZR (Math_round (IZR frames * 1000 / elapsed)) in
      let history :=
        match memory host with
        | Some snapshot =>
            let pushed := memoryHistory m ++ [(time, snapshot)] in
            if (60 <? List.length pushed)%nat then tl pushed else pushed
        | None => memoryHistory m
        end in
      let m :=
        mk (PerformanceMonitor.mk fps frames (PerformanceMonitor.lastTime c)
                                  (PerformanceMonitor.interval c)
                                  (PerformanceMonitor.tracking c))
           (callback m) (rafId m) history in
      let '(m, host) :=
        match callback m with
        | Some cb => runCallback cb fps now (m, host)
        | None => (m, host)
        end in
      let c := core m in
      (mk (PerformanceMonitor.mk (PerformanceMonitor.fps c) 0 time
                                 (PerformanceMonitor.interval c)
                                 (PerformanceMonitor.tracking c))
          (callback m) (rafId m) (memoryHistory m),
       host)
    else
      (mk (PerformanceMonitor.mk (PerformanceMonitor.fps c) frames
                                 (PerformanceMonitor.lastTime c)
                                 (PerformanceMonitor.interval c)
                                 (PerformanceMonitor.tracking c))
          (callback m) (rafId m) (memoryHistory m),
       host) in
  let '(id, host) := requestAnimationFrame host in
  (mk (core m) (callback m) (Some id) (memoryHistory m), host).

(** The host runs the frame requested under [id], if it is still
    pending. *)
Definition frame (id : nat) (now : R) (st : t * Host) : t * Host :=
  let '(m, host) := st in
  if decide (id ∈ pending host)
  then updateFPS now (m, cancelAnimationFrame id host)
  else st.

(** The host runs the frame that the monitor requested last. *)
Definition nextFrame (now : R) (st : t * Host) : t * Host :=
  match rafId (fst st) with
  | Some id => frame id now st
  | None => st
  end.

(** [getMemoryHistory()]: a copy of the history. *)
Definition getMemoryHistory (m : t) : list (R * Z) := memoryHistory m.

(** The calls that a user and the host can make between frames, and a run
    of them. *)
Inductive Call :=
| Start (cb : option Callback) (interval : option R) (now : R)
| Stop
| Frame (id : nat) (now : R).

Definition call (st : t * Host) (c : Call) : t * Host :=
  match c with
  | Start cb interval now => startMonitoring cb interval now st
  | Stop => stopMonitoring st
  | Frame id now => frame id now st
  end.

Definition run (calls : list Call) (st : t * Host) : t * Host :=
  fold_left call calls st.

(** A callback that does not call the monitor back, and a call that
    installs no other. *)
Definition inert (cb : option Callback) : Prop :=
  cb = None \/ cb = Some Inert.

Definition inertCall (c : Call) : Prop :=
  match c with
  | Start cb _ _ => inert cb
  | Stop | Frame _ _ => True
  end.

(** One sampling loop at most: the frames pending are the one that the
    monitor requested last, while it is tracking, and none otherwise; the
    history holds 60 entries at most. *)
Definition consistent (st : t * Host) : Prop :=
  let '(m, host) := st in
  (forall id, id ∈ pending host -> (id < nextId host)%nat) /\
  (PerformanceMonitor.tracking (core m) = true ->
   exists id, rafId m = Some id /\ pending host = {[id]}) /\
  (PerformanceMonitor.tracking (core m) = false ->
   rafId m = None /\ pending host = ∅) /\
  (List.length (memoryHistory m) <= 60)%nat.

(** A monitor on which a window has elapsed at the reading [now]. *)
Definition elapsed (now : R) (m : t) : Prop :=
  now - PerformanceMonitor.lastTime (core m)
  >= PerformanceMonitor.interval (core m).

End Monitoring.

(** ** [components/GravitalVisualization.tsx]: the values handed to the
    physics and to the rendering *)

Module Visualization.

(** The tier that the callback of the component sets from the measured
    frame rate. *)
Definition deviceCapabilityOf (fps : R) : Detail :=
  if Rlt_dec fps 20 then low
  else if Rlt_dec fps 40 then medium
  else high.

(** The rank of a tier, low first. *)
Definition rank (d : Detail) : nat :=
  match d with
  | low => 0
  | medium => 1
  | high => 2
  end.

(** The strength passed to [setupOrbitalPhysics]:
    [enableOrbitalMovement ? orbitalSpeed * orbitalForce : 0]. *)
Definition orbitalStrengthOf (enableOrbitalMovement : bool)
    (orbitalSpeed orbitalForce : R) : R :=
  if enableOrbitalMovement then orbitalSpeed * orbitalForce else 0.

(** The particle speed and size passed to [createLinkObject]. *)
Definition particleSpeedOf (reducedMotion : bool) (particleSpeed : R) : R :=
  if reducedMotion then particleSpeed / 2 else particleSpeed.

Definition particleSizeOf (deviceCapability : Detail) : R :=
  match deviceCapability with
  | low => 1.0
  | medium => 1.5
  | high => 2.0
  end.

(** [linkThreeObject(link)]. *)
Definition linkThreeObject (showValueFlow reducedMotion : bool)
    (particleSpeed : R) (deviceCapability : Detail) (link : Link.t)
    (tokens : Heap Token.t) (random : nat -> R) (w : World)
    : (Error + LinkObjects.Group) * World :=
  LinkObjects.createLinkObject link showValueFlow
    (particleSpeedOf reducedMotion particleSpeed)
    (particleSizeOf deviceCapability) tokens random w.

End Visualization.

(** ** [rendering/NodeObjects.ts]: the object of a node *)

Module NodeScene.

(** A node as [createNodeObject] reads it: the token with its color and
    its success metric. *)
Record Node := mkNode {
  token : Token.t;
  color : string;
  success : R
}.

(** [MeshPhongMaterial]: color, transparency, opacity, shininess, and the
    emissive color, the color of the node scaled, when one is set. *)
Record MeshMaterial := mkMeshMaterial {
  meshColor : string;
  meshTransparent : bool;
  meshOpacity : R;
  shininess : R;
  emissive : option (string * R)
}.

(** [SpriteMaterial]: texture, color, transparency, opacity (with additive
    blending). *)
Record SpriteMaterial := mkSpriteMaterial {
  spriteMap : THREE.Texture;
  spriteColor : THREE.Color;
  spriteTransparent : bool;
  spriteOpacity : R
}.

(** The children of the group of a node, each with its scale. *)
Inductive Object3D :=
| Mesh (geometry : THREE.BufferGeometry) (material : MeshMaterial)
       (scale : R * R * R)
| Sprite (material : SpriteMaterial) (scale : R * R * R).

(** The [switch (node.type)]. *)
Definition geometryNameOf (type : Token.kind) : string :=
  match type with
  | Token.root => "rootNode"
  | Token.branch => "branchNode"
  | Token.leaf => "leafNode"
  end.

(** [highlightedNode === node.id], for a [highlightedNode] that is a string
    or [null]. *)
Definition isHighlightedOf (highlightedNode : option string) (node : Node)
    : bool :=
  match highlightedNode with
  | Some name => String.eqb name (Token.id (token node))
  | None => false
  end.

(** [createNodeObject(node, highlightedNode = null)]: the children of the
    group returned, or the error thrown, and the next state. *)
Definition createNodeObject (node : Node) (highlightedNode : option string)
    (w : World) : (Error + list Object3D) * World :=
  let w :=
    match resourceManager w with
    | None => snd (NodeObjects.initNodeResources medium w)
    | Some _ => w
    end in
  match resourceManager w with
  | None =>
      (* [resourceManager!] on [null]; the variable was set just above *)
      (inl (mkError "resourceManager is null"), w)
  | Some m =>
      let isHighlighted := isHighlightedOf highlightedNode node in
      let geometryName := geometryNameOf (Token.type (token node)) in
      let size := Token.size (token node) in
      let result :=
        geometry <- ResourceManager.getGeometry geometryName (managers w m) ;;
        let material :=
          mkMeshMaterial (color node) true 0.9 80
            (if isHighlighted then Some (color node, 0.5) else None) in
        let mesh := Mesh geometry material (size, size, size) in
        glow <-
          (if Rgt_dec (success node) 0 then
             texture <- ResourceManager.getTexture "glow" (managers w m) ;;
             let glowMaterial :=
               mkSpriteMaterial texture (THREE.Css (color node)) true
                 (success node * (if isHighlighted then 1.2 else 0.8)) in
             let glowSize := size * (2 + success node * 2) in
             inr [Sprite glowMaterial (glowSize, glowSize, 1)]
           else inr []) ;;
        highlight <-
          (if isHighlighted then
             texture <- ResourceManager.getTexture "glow" (managers w m) ;;
             let highlightMaterial :=
               mkSpriteMaterial texture (THREE.Hex 16777215) true 0.4 in
             inr [Sprite highlightMaterial (size * 5, size * 5, 1)]
           else inr []) ;;
        inr (mesh :: glow ++ highlight) in
      (result, w)
  end.

(** What the statements read off a child: its scale, and the texture and
    the opacity of a sprite. *)
Definition scaleOf (child : Object3D) : R * R * R :=
  match child with
  | Mesh _ _ scale => scale
  | Sprite _ scale => scale
  end.

Definition spriteOf (child : Object3D) : option SpriteMaterial :=
  match child with
  | Mesh _ _ _ => None
  | Sprite material _ => Some material
  end.

(** The segment base that [initNodeResources] gives the sphere of each
    type. *)
Definition baseSegments (type : Token.kind) : Z :=
  match type with
  | Token.root => 32
  | Token.branch => 24
  | Token.leaf => 16
  end.

(** The leaf of the worked scenario, half successful. *)
Definition scenarioNode : Node :=
  mkNode (Scenario.leafToken 0) "#4fc3f7" (1 / 2).

End NodeScene.

(** ** [data/Adapter.ts] *)

Module Adapter.
Import Stdlib.Strings.Ascii.

(** *** Plain data

    The argument of [validateEcosystemData] has type [any].  [Value] is the
    plain data it may be: what [JSON.parse] yields, and also [undefined],
    [NaN] and the infinities.  An array and an object carry their identity,
    which is what [===] compares. *)
Inductive Number := NaN | NegInfinity | Finite (r : R) | PosInfinity.

#[warnings="-register-all"]
Inductive Value :=
| Undefined
| Null
| Boolean (b : bool)
| Num (n : Number)
| Str (s : string)
| Array (identity : ref) (items : list Value)
| Object (identity : ref) (fields : list (string * Value)).

(** [a < b] and [a <= b] on numbers: false whenever [NaN] is compared. *)
Definition lt (a b : Number) : bool :=
  match a, b with
  | NaN, _ | _, NaN => false
  | _, NegInfinity => false
  | NegInfinity, _ => true
  | PosInfinity, _ => false
  | Finite _, PosInfinity => true
  | Finite x, Finite y => if Rlt_dec x y then true else false
  end.

Definition le (a b : Number) : bool :=
  match a, b with
  | NaN, _ | _, NaN => false
  | NegInfinity, _ => true
  | _, PosInfinity => true
  | PosInfinity, _ => false
  | Finite _, NegInfinity => false
  | Finite x, Finite y => if Rle_dec x y then true else false
  end.

(** [!v] is [negb (truthy v)]: [undefined], [null], [false], [0], [NaN] and
    the empty string are falsy. *)
Definition truthy (v : Value) : bool :=
  match v with
  | Undefined | Null => false
  | Boolean b => b
  | Num NaN => false
  | Num (Finite r) => if Req_dec_T r 0 then false else true
  | Num _ => true
  | Str EmptyString => false
  | Str _ => true
  | Array _ _ | Object _ _ => true
  end.

(** [typeof v === 'number'], [typeof v === 'string'], [Array.isArray(v)]. *)
Definition isNumber (v : Value) : bool :=
  match v with Num _ => true | _ => false end.

Definition isString (v : Value) : bool :=
  match v with Str _ => true | _ => false end.

Definition isArray (v : Value) : bool :=
  match v with Array _ _ => true | _ => false end.

(** The elements of an array ([[]] for what is no array). *)
Definition itemsOf (v : Value) : list Value :=
  match v with Array _ items => items | _ => [] end.

(** [a === b]. *)
Definition strictEquals (a b : Value) : bool :=
  match a, b with
  | Undefined, Undefined => true
  | Null, Null => true
  | Boolean x, Boolean y => Bool.eqb x y
  | Num NegInfinity, Num NegInfinity => true
  | Num PosInfinity, Num PosInfinity => true
  | Num (Finite x), Num (Finite y) => if Req_dec_T x y then true else false
  | Str x, Str y => String.eqb x y
  | Array x _, Array y _ => Nat.eqb x y
  | Object x _, Object y _ => Nat.eqb x y
  | _, _ => false
  end.

(** [names.includes(v)] for an array of strings. *)
Definition includes (names : list string) (v : Value) : bool :=
  match v with
  | Str s => existsb (String.eqb s) names
  | _ => false
  end.

(** What is thrown: the [TypeError] of a property read on [undefined] or
    [null], or [new Error(message)], the message being a template: text,
    an array index, or an interpolated value. *)
Inductive Part := Text (s : string) | Index (i : nat) | Interpolated (v : Value).

Inductive Thrown := TypeError | ErrorOf (message : list Part).

Definition andThen {A B : Type} (c : Thrown + A) (k : A -> Thrown + B)
    : Thrown + B :=
  match c with
  | inl e => inl e
  | inr a => k a
  end.

Notation "x <~ c ;; k" := (andThen c (fun x => k))
  (at level 100, c at next level, right associativity).

Notation "'check' c ;; k" := (andThen c (fun _ => k))
  (at level 100, c at next level, right associativity).

(** [if (condition) throw new Error(message)]. *)
Definition throwIf (condition : bool) (message : list Part) : Thrown + unit :=
  if condition then inl (ErrorOf message) else inr tt.

(** The value of a field of an object, [undefined] when there is none. *)
Fixpoint fieldOf (name : string) (fields : list (string * Value)) : Value :=
  match fields with
  | [] => Undefined
  | (key, v) :: rest => if String.eqb key name then v else fieldOf name rest
  end.

(** [v.name], for the names that this module reads: none of them is a
    property of a boolean, a number, a string or an array. *)
Definition get (v : Value) (name : string) : Thrown + Value :=
  match v with
  | Undefined | Null => inl TypeError
  | Object _ fields => inr (fieldOf name fields)
  | _ => inr Undefined
  end.

(** [items.forEach((item, index) => f(item, index))], from [index] on. *)
Fixpoint forEachFrom (f : Value -> nat -> Thrown + unit) (items : list Value)
    (index : nat) : Thrown + unit :=
  match items with
  | [] => inr tt
  | item :: rest => check f item index ;; forEachFrom f rest (S index)
  end.

Definition forEach (f : Value -> nat -> Thrown + unit) (items : list Value)
    : Thrown + unit :=
  forEachFrom f items 0%nat.

(** [items.some(f)]. *)
Fixpoint some (f : Value -> Thrown + bool) (items : list Value)
    : Thrown + bool :=
  match items with
  | [] => inr false
  | item :: rest => found <~ f item ;; if found then inr true else some f rest
  end.

(** *** [validateEcosystemData] *)

(** The callback on the reserves of the node [node]. *)
Definition validateReserve (node : Value) (reserve : Value) (rIndex : nat)
    : Thrown + unit :=
  tokenId <~ get reserve "tokenId" ;;
  if negb (truthy tokenId) then
    id <~ get node "id" ;;
    inl (ErrorOf [Text "Reserve at index "; Index rIndex; Text " in node ";
                  Interpolated id; Text " is missing tokenId"])
  else
    percentage <~ get reserve "percentage" ;;
    if match percentage with
       | Num n => lt n (Finite 0) || lt (Finite 100) n
       | _ => true
       end
    then
      id <~ get node "id" ;;
      inl (ErrorOf [Text "Reserve "; Interpolated tokenId; Text " in node ";
                    Interpolated id;
                    Text " has invalid percentage (must be between 0 and 100)"])
    else inr tt.

(** The callback on the nodes.  The messages interpolate [node.id], which
    the first line has read. *)
Definition validateNode (node : Value) (index : nat) : Thrown + unit :=
  id <~ get node "id" ;;
  if negb (truthy id) then
    inl (ErrorOf [Text "Node at index "; Index index;
                  Text " is missing required id property"])
  else
    name <~ get node "name" ;;
    if negb (truthy name) then
      inl (ErrorOf [Text "Node "; Interpolated id;
                    Text " is missing required name property"])
    else
      type <~ get node "type" ;;
      if negb (includes ["root"; "branch"; "leaf"]%string type) then
        inl (ErrorOf [Text "Node "; Interpolated id;
                      Text " has invalid type (must be root, branch, or leaf)"])
      else
        size <~ get node "size" ;;
        if match size with Num n => le n (Finite 0) | _ => true end then
          inl (ErrorOf [Text "Node "; Interpolated id;
                        Text " has invalid size (must be a positive number)"])
        else
          color <~ get node "color" ;;
          if negb (truthy color) then
            inl (ErrorOf [Text "Node "; Interpolated id;
                          Text " is missing required color property"])
          else
            success <~ get node "success" ;;
            if match success with
               | Num n => lt n (Finite 0) || lt (Finite 1) n
               | _ => true
               end
            then
              inl (ErrorOf [Text "Node "; Interpolated id;
                            Text " has invalid success (must be a number between 0 and 1)"])
            else
              reserves <~ get node "reserves" ;;
              if negb (isArray reserves) then
                inl (ErrorOf [Text "Node "; Interpolated id;
                              Text " reserves must be an array"])
              else forEach (validateReserve node) (itemsOf reserves).

(** The callback on the links; [nodes] is [data.nodes]. *)
Definition validateLink (nodes : list Value) (link : Value) (index : nat)
    : Thrown + unit :=
  source <~ get link "source" ;;
  if negb (truthy source) then
    inl (ErrorOf [Text "Link at index "; Index index;
                  Text " is missing required source property"])
  else
    target <~ get link "target" ;;
    if negb (truthy target) then
      inl (ErrorOf [Text "Link at index "; Index index;
                    Text " is missing required target property"])
    else
      value <~ get link "value" ;;
      if match value with Num n => lt n (Finite 0) | _ => true end then
        inl (ErrorOf [Text "Link at index "; Index index;
                      Text " has invalid value (must be a non-negative number)"])
      else
        sourceId <~ (if isString source then inr source else get source "id") ;;
        targetId <~ (if isString target then inr target else get target "id") ;;
        sourceExists <~
          some (fun node => id <~ get node "id" ;; inr (strictEquals id sourceId))
               nodes ;;
        if negb sourceExists then
          inl (ErrorOf [Text "Link at index "; Index index;
                        Text " references non-existent source node: ";
                        Interpolated sourceId])
        else
          targetExists <~
            some (fun node => id <~ get node "id" ;; inr (strictEquals id targetId))
                 nodes ;;
          if negb targetExists then
            inl (ErrorOf [Text "Link at index "; Index index;
                          Text " references non-existent target node: ";
                          Interpolated targetId])
          else inr tt.

(** [validateEcosystemData(data)]: the data returned, or what is thrown. *)
Definition validateEcosystemData (data : Value) : Thrown + Value :=
  if negb (truthy data) then inl (ErrorOf [Text "Data is null or undefined"])
  else
    nodes <~ get data "nodes" ;;
    if negb (isArray nodes) then
      inl (ErrorOf [Text "Data must contain a nodes array"])
    else
      links <~ get data "links" ;;
      if negb (isArray links) then
        inl (ErrorOf [Text "Data must contain a links array"])
      else
        check forEach validateNode (itemsOf nodes) ;;
        check forEach (validateLink (itemsOf nodes)) (itemsOf links) ;;
        inr data.

(** *** Valid data, for the statements on [validateEcosystemData] *)

(** The field [name] of an object; [undefined] on anything else. *)
Definition prop (v : Value) (name : string) : Value :=
  match v with
  | Object _ fields => fieldOf name fields
  | _ => Undefined
  end.

(** The numbers that pass [!(n <= 0)], [!(n < 0)] and
    [!(n < lo || n > hi)]. *)
Definition positive (n : Number) : Prop :=
  match n with
  | NaN | PosInfinity => True
  | Finite r => 0 < r
  | NegInfinity => False
  end.

Definition nonNegative (n : Number) : Prop :=
  match n with
  | NaN | PosInfinity => True
  | Finite r => 0 <= r
  | NegInfinity => False
  end.

Definition between (lo hi : R) (n : Number) : Prop :=
  match n with
  | NaN => True
  | Finite r => lo <= r <= hi
  | NegInfinity | PosInfinity => False
  end.

Definition validReserve (reserve : Value) : Prop :=
  truthy (prop reserve "tokenId") = true /\
  exists n, prop reserve "percentage" = Num n /\ between 0 100 n.

Definition validNode (node : Value) : Prop :=
  truthy (prop node "id") = true /\
  truthy (prop node "name") = true /\
  (exists type, prop node "type" = Str type /\
                In type ["root"; "branch"; "leaf"]%string) /\
  (exists n, prop node "size" = Num n /\ positive n) /\
  truthy (prop node "color") = true /\
  (exists n, prop node "success" = Num n /\ between 0 1 n) /\
  exists identity reserves,
    prop node "reserves" = Array identity reserves /\
    Forall validReserve reserves.

(** The id that a link end stands for: the string itself, or the [id] of
    the object. *)
Definition endId (v : Value) : Value :=
  match v with
  | Str _ => v
  | _ => prop v "id"
  end.

Definition validLink (nodes : list Value) (link : Value) : Prop :=
  truthy (prop link "source") = true /\
  truthy (prop link "target") = true /\
  (exists n, prop link "value" = Num n /\ nonNegative n) /\
  Exists (fun node => strictEquals (prop node "id") (endId (prop link "source")) = true)
         nodes /\
  Exists (fun node => strictEquals (prop node "id") (endId (prop link "target")) = true)
         nodes.

Definition validData (data : Value) : Prop :=
  exists nodesId nodes linksId links,
    prop data "nodes" = Array nodesId nodes /\
    prop data "links" = Array linksId links /\
    Forall validNode nodes /\
    Forall (validLink nodes) links.

(** One node, with one reserve, and a link from the node to itself. *)
Definition exampleData : Value :=
  Object 0%nat
    [("nodes"%string,
      Array 1%nat
        [Object 2%nat
           [("id"%string, Str "root-1"); ("name"%string, Str "Root");
            ("type"%string, Str "root"); ("size"%string, Num (Finite 10));
            ("color"%string, Str "#ffffff");
            ("success"%string, Num (Finite 1));
            ("reserves"%string,
             Array 3%nat
               [Object 4%nat
                  [("tokenId"%string, Str "root-1");
                   ("percentage"%string, Num (Finite 50))]])]]);
     ("links"%string,
      Array 5%nat
        [Object 6%nat
           [("source"%string, Str "root-1"); ("target"%string, Str "root-1");
            ("value"%string, Num (Finite 1))]])].

(** *** [blendColors] *)

(** The value of a hexadecimal digit in either case, as [[a-f\d]] under
    the flag [i] matches it and [parseInt(_, 16)] reads it, from the code
    of the character: [0-9] are 48 to 57, [A-F] 65 to 70, [a-f] 97 to
    102. *)
Definition hexValue (c : ascii) : option Z :=
  let code := Z.of_nat (nat_of_ascii c) in
  if ((48 <=? code) && (code <=? 57))%Z then Some (code - 48)%Z
  else if ((97 <=? code) && (code <=? 102))%Z then Some (code - 87)%Z
  else if ((65 <=? code) && (code <=? 70))%Z then Some (code - 55)%Z
  else None.

(** [parseInt] of two hexadecimal digits in base 16. *)
Definition parseInt16 (c1 c2 : ascii) : option Z :=
  match hexValue c1, hexValue c2 with
  | Some v1, Some v2 => Some (16 * v1 + v2)%Z
  | _, _ => None
  end.

(** [hexToRgb]: the three channels when [hex] is six hexadecimal digits
    after an optional [#], black otherwise. *)
Definition hexToRgb (hex : string) : Z * Z * Z :=
  let digits :=
    match hex with
    | String "#"%char rest => rest
    | _ => hex
    end in
  match digits with
  | String c1 (String c2 (String c3 (String c4 (String c5
      (String c6 EmptyString))))) =>
      match parseInt16 c1 c2, parseInt16 c3 c4, parseInt16 c5 c6 with
      | Some r, Some g, Some b => (r, g, b)
      | _, _, _ => (0, 0, 0)%Z
      end
  | _ => (0, 0, 0)%Z
  end.

(** [ToInt32] and [a << k] on 32-bit integers. *)
Definition ToInt32 (n : Z) : Z :=
  let m := (n mod 2 ^ 32)%Z in
  if (m <? 2 ^ 31)%Z then m else (m - 2 ^ 32)%Z.

Definition shiftLeft (a k : Z) : Z :=
  ToInt32 (Z.shiftl (ToInt32 a) (k mod 32)).

(** The digit of [d] in [Number.prototype.toString(16)]. *)
Definition hexDigit (d : Z) : ascii :=
  match d with
  | 0 => "0" | 1 => "1" | 2 => "2" | 3 => "3" | 4 => "4" | 5 => "5"
  | 6 => "6" | 7 => "7" | 8 => "8" | 9 => "9" | 10 => "a" | 11 => "b"
  | 12 => "c" | 13 => "d" | 14 => "e" | _ => "f"
  end%Z%char.

(** The hexadecimal digits of a non-negative integer, most significant
    first; [fuel] bounds their number. *)
Fixpoint hexDigits (fuel : nat) (n : Z) : string :=
  match fuel with
  | O => EmptyString
  | S fuel =>
      if (n <? 16)%Z then String (hexDigit n) EmptyString
      else hexDigits fuel (n / 16)%Z ++ String (hexDigit (n mod 16)%Z) EmptyString
  end.

(** [n.toString(16)] for an integer [n]. *)
Definition toString16 (n : Z) : string :=
  if (n <? 0)%Z then
    String "-"%char (hexDigits (S (Z.to_nat (Z.log2 (- n)))) (- n)%Z)
  else hexDigits (S (Z.to_nat (Z.log2 n))) n.

(** [s.slice(1)]. *)
Definition slice1 (s : string) : string :=
  match s with
  | EmptyString => EmptyString
  | String _ rest => rest
  end.

(** [rgbToHex]. *)
Definition rgbToHex (r g b : Z) : string :=
  String "#"%char
    (slice1 (toString16 (shiftLeft 1 24 + shiftLeft r 16 + shiftLeft g 8 + b)%Z)).

(** [blendColors(color1, color2)]. *)
Definition blendColors (color1 color2 : string) : string :=
  let '(r1, g1, b1) := hexToRgb color1 in
  let '(r2, g2, b2) := hexToRgb color2 in
  let r := Math_round ((IZR r1 + IZR r2) / 2) in
  let g := Math_round ((IZR g1 + IZR g2) / 2) in
  let b := Math_round ((IZR b1 + IZR b2) / 2) in
  rgbToHex r g b.

(** The blend of two channels: their mean, a half rounded up. *)
Definition blendChannel (c1 c2 : Z) : Z := ((c1 + c2 + 1) / 2)%Z.

(** A color string in the form that [rgbToHex] writes: [#] and six
    lower-case hexadecimal digits. *)
Definition isLowerHex (c : ascii) : bool :=
  match hexValue c with
  | Some v => Ascii.eqb (hexDigit v) c
  | None => false
  end.

Fixpoint allLowerHex (s : string) : bool :=
  match s with
  | EmptyString => true
  | String c rest => isLowerHex c && allLowerHex rest
  end.

Definition isHexColor (s : string) : bool :=
  match s with
  | String "#"%char digits => Nat.eqb (String.length digits) 6 && allLowerHex digits
  | _ => false
  end.

(** *** [adaptToForceGraphFormat] *)

(** The interfaces [Reserve], [Token], [Link] and [EcosystemData] of
    [types/index.ts]; an optional property is an [option]. *)
Record Reserve := mkReserve {
  tokenId : string;
  percentage : R
}.

Record TokenData := mkTokenData {
  id : string;
  name : string;
  type : Token.kind;
  category : option string;
  size : R;
  color : string;
  success : R;
  reserves : list Reserve;
  description : option string;
  created : option string;
  stats : option (list (string * R));
  x : option R; y : option R; z : option R;
  vx : option R; vy : option R; vz : option R
}.

Inductive LinkEnd := Id (s : string) | Node (token : TokenData).

Record LinkData := mkLinkData {
  source : LinkEnd;
  target : LinkEnd;
  value : R;
  linkColor : option string;
  linkType : option string
}.

Record Metadata := mkMetadata {
  version : string;
  timestamp : string;
  totalTokens : R;
  categories : list string
}.

Record EcosystemData := mkEcosystemData {
  nodes : list TokenData;
  links : list LinkData;
  metadata : option Metadata
}.

(** [typeof end === 'string' ? end : end.id]. *)
Definition endIdOf (e : LinkEnd) : string :=
  match e with
  | Id s => s
  | Node token => id token
  end.

(** [nodeMap]: a later node replaces an earlier one of the same id. *)
Definition nodeMapOf (tokens : list TokenData) : gmap string TokenData :=
  fold_left (fun nodeMap node => <[id node := node]> nodeMap) tokens ∅.

(** [!color] for an optional string. *)
Definition noColor (c : option string) : bool :=
  match c with
  | None | Some EmptyString => true
  | Some _ => false
  end.

(** The callback on the links: the link returned has strings at both
    ends. *)
Definition adaptLink (nodeMap : gmap string TokenData) (link : LinkData)
    : LinkData :=
  let source := endIdOf (source link) in
  let target := endIdOf (target link) in
  let sourceNode := nodeMap !! source in
  let targetNode := nodeMap !! target in
  let color :=
    if noColor (linkColor link) then
      match sourceNode, targetNode with
      | Some sourceNode, Some targetNode =>
          Some (blendColors (color sourceNode) (color targetNode))
      | _, _ => linkColor link
      end
    else linkColor link in
  mkLinkData (Id source) (Id target) (value link) color (linkType link).

(** [adaptToForceGraphFormat(data)]: the nodes, copied, and the links. *)
Definition adaptToForceGraphFormat (data : EcosystemData)
    : list TokenData * list LinkData :=
  let nodeMap := nodeMapOf (nodes data) in
  (List.map (fun node => node) (nodes data),
   List.map (adaptLink nodeMap) (links data)).

(** The node that [nodeMap.get(key)] finds: the last one of that id. *)
Definition lastWithId (key : string) (tokens : list TokenData)
    : option TokenData :=
  List.find (fun node => String.eqb (id node) key) (rev tokens).

(** Two nodes, red and black, and a link between them that has no color. *)
Definition exampleToken (name color : string) : TokenData :=
  mkTokenData name name Token.leaf None 1 color 0 [] None None None
              None None None None None None.

Definition exampleEcosystem : EcosystemData :=
  mkEcosystemData
    [exampleToken "a" "#ff0000"; exampleToken "b" "#000000"]
    [mkLinkData (Node (exampleToken "a" "#ff0000")) (Id "b") 1 None None]
    None.

End Adapter.

(** ** Typed arrays: what a [Float32Array] holds

    The offsets and the positions of a particle system are
    [Float32Array]s.  A number written to one is rounded to the nearest
    32-bit float, so what is read back is [Math.fround] of what was
    written.  [Math_fround] is that rounding on the numbers of magnitude
    below 2^128 (larger ones are stored as infinities): a float is a
    multiple of the unit in the last place of its binade. *)






(** ** [rendering/LinkObjects.ts]: the particle flow with its stores

    The functions of the particle flow once more, with the rounding of
    every write to a typed array explicit: [store] is [Math_fround] for the
    arrays of the source.  With the identity for [store] these are the
    functions of [LinkObjects], which read every number exactly. *)

Module Stored.
Import LinkObjects.

Section Store.
Variable store : R -> R.

(** [positions.setXYZ(i, x, y, z)]. *)
Definition setXYZ (i : nat) (x y z : R) (positions : list R) : list R :=
  LinkObjects.setXYZ i (store x) (store y) (store z) positions.

(** The initialization loop of [createParticleSystem]. *)
Fixpoint initParticles (source dir : vec3) (random : nat -> R) (i n : nat)
    (positions offsets : list R) : list R * list R :=
  match n with
  | O => (positions, offsets)
  | S n' =>
      let '(sx, sy, sz) := source in
      let '(dx, dy, dz) := dir in
      let offset := random i in
      let offsets := <[i := store offset]> offsets in
      let positions :=
        setXYZ i (sx + dx * offset) (sy + dy * offset) (sz + dz * offset)
               positions in
      initParticles source dir random (S i) n' positions offsets
  end.

(** [createParticleSystem(source, target, color, speed, count, size)]. *)
Definition createParticleSystem (source target : vec3) (color : THREE.Color)
    (speed : R) (count : Z) (size : R) (random : nat -> R) (w : World)
    : Error + Points :=
  match linkResourceManager w with
  | None => inl (mkError "Link resource manager is not initialized")
  | Some m =>
      let '(sx, sy, sz) := source in
      let '(tx, ty, tz) := target in
      let dir := (tx - sx, ty - sy, tz - sz) in
      let length :=
        sqrt ((tx - sx) * (tx - sx) + (ty - sy) * (ty - sy)
              + (tz - sz) * (tz - sz)) in
      texture <- ResourceManager.getTexture "particle" (managers w m) ;;
      let particleMaterial :=
        THREE.mkMaterial THREE.Points true 1 color size (Some texture) in
      if (count <? 0)%Z then inl (mkError "Invalid typed array length")
      else
        let positions := repeat 0 (Z.to_nat (count * 3)) in
        let offsets := repeat 0 (Z.to_nat count) in
        let '(positions, offsets) :=
          initParticles source dir random 0 (Z.to_nat count) positions offsets in
        inr (mkPoints positions false particleMaterial
               (Some (mkMetadata count speed length dir offsets)))
  end.

(** The offset of a particle after one update:
    [offsets[i] += speed; if (offsets[i] > 1) offsets[i] -= 1], each
    assignment a store. *)
Definition advanceOffset (speed o : R) : R :=
  let o := store (o + speed) in
  if Rgt_dec o 1 then store (o - 1) else o.

(** The update loop of [updateParticles]. *)
Fixpoint advanceParticles (source dir : vec3) (length speed : R) (i n : nat)
    (positions offsets : list R) : list R * list R :=
  match n with
  | O => (positions, offsets)
  | S n' =>
      match offsets !! i with
      | None =>
          advanceParticles source dir length speed (S i) n' positions offsets
      | Some o =>
          let '(sx, sy, sz) := source in
          let '(dx, dy, dz) := dir in
          let o := store (o + speed) in
          let o := if Rgt_dec o 1 then store (o - 1) else o in
          let offsets := <[i := o]> offsets in
          let positions :=
            setXYZ i (sx + dx * length * o) (sy + dy * length * o)
                   (sz + dz * length * o) positions in
          advanceParticles source dir length speed (S i) n' positions offsets
      end
  end.

(** [updateParticles(particleSystem, source, target)]. *)
Definition updateParticles (particleSystem : Points) (source target : vec3)
    : Points :=
  match __metadata particleSystem with
  | None => particleSystem
  | Some metadata =>
      let '(sx, sy, sz) := source in
      let '(tx, ty, tz) := target in
      let length :=
        sqrt ((tx - sx) * (tx - sx) + (ty - sy) * (ty - sy)
              + (tz - sz) * (tz - sz)) in
      if Req_dec_T length 0 then particleSystem
      else
        let dir := ((tx - sx) / length, (ty - sy) / length, (tz - sz) / length) in
        let '(positions, offsets) :=
          advanceParticles source dir length (speed metadata) 0
            (Z.to_nat (count metadata)) (positions particleSystem)
            (offsets metadata) in
        mkPoints positions true (material particleSystem)
          (Some (mkMetadata (count metadata) (speed metadata) length dir offsets))
  end.

(** The system after a run of frames, each with the positions of the
    source and the target. *)
Definition animate (particleSystem : Points) (frames : list (vec3 * vec3))
    : Points :=
  fold_left (fun p frame => updateParticles p (fst frame) (snd frame))
            frames particleSystem.

End Store.



End Stored.

(** * Properties *)

(** ** Heap writes *)

Lemma write_eq {A : Type} (h : Heap A) (r : ref) (a : A) : write h r a r = a.
Proof. unfold write. now rewrite Nat.eqb_refl. Qed.

Lemma write_ne {A : Type} (h : Heap A) (r r' : ref) (a : A) :
  r' <> r -> write h r a r' = h r'.
Proof.
  intros Hne. unfold write.
  destruct (Nat.eqb_spec r' r) as [->|_]; [contradiction|reflexivity].
Qed.

(** Case analysis on the comparisons of reals that the goal decides. *)
Ltac real_cases :=
  repeat match goal with
         | |- context [Req_dec_T ?a ?b] => destruct (Req_dec_T a b)
         | |- context [Rle_dec ?a ?b] => destruct (Rle_dec a b)
         | |- context [Rlt_dec ?a ?b] => destruct (Rlt_dec a b)
         | |- context [Rgt_dec ?a ?b] => destruct (Rgt_dec a b)
         end;
  try reflexivity; try lra.

(** ** The orbital force *)

Section OrbitalFacts.
Import OrbitalForce.
Variable f : OrbitalForce.t.

(** An iteration writes to no node but its own. *)
Lemma forceNode_other (alpha now : R) (h : Heap Token.t) (r r' : ref) :
  r' <> r -> forceNode f alpha now h r r' = h r'.
Proof.
  intros Hne. unfold forceNode.
  destruct (orbitTarget f now h r) as [[[tx ty] tz]|]; [|reflexivity].
  destruct (Req_dec_T _ 0); [reflexivity|].
  now apply write_ne.
Qed.

(** The iteration of a root returns at once. *)
Lemma orbitTarget_root (now : R) (h : Heap Token.t) (r : ref) :
  Token.type (h r) = Token.root -> orbitTarget f now h r = None.
Proof. intros Hroot. unfold orbitTarget. now rewrite Hroot. Qed.

Lemma forceNode_keeps_root (alpha now : R) (h : Heap Token.t) (r r0 : ref) :
  Token.type (h r0) = Token.root -> forceNode f alpha now h r r0 = h r0.
Proof.
  intros Hroot. destruct (Nat.eq_dec r0 r) as [->|Hne].
  - unfold forceNode. now rewrite orbitTarget_root.
  - now apply forceNode_other.
Qed.

Lemma forEachNode_keeps_root (alpha : R) (clock : nat -> R) (l : list ref) :
  forall (i : nat) (h : Heap Token.t) (r0 : ref),
    Token.type (h r0) = Token.root ->
    forEachNode f alpha clock i l h r0 = h r0.
Proof.
  induction l as [|r rest IH]; intros i h r0 Hroot; simpl; [reflexivity|].
  rewrite IH; rewrite forceNode_keeps_root; auto.
Qed.

Lemma forEachNode_notin (alpha : R) (clock : nat -> R) (l : list ref) :
  forall (i : nat) (h : Heap Token.t) (r0 : ref),
    ~ In r0 l -> forEachNode f alpha clock i l h r0 = h r0.
Proof.
  induction l as [|r rest IH]; intros i h r0 Hnotin; simpl; [reflexivity|].
  rewrite IH by (intros Hin; apply Hnotin; now right).
  apply forceNode_other. intros ->. apply Hnotin. now left.
Qed.

Lemma geomEq_refl (h : Heap Token.t) : geomEq h h.
Proof. intros r. repeat split. Qed.

Lemma findIndexFrom_ext {A : Type} (p q : A -> bool) (l : list A) :
  (forall a, p a = q a) -> forall i, findIndexFrom p i l = findIndexFrom q i l.
Proof.
  intros Hpq. induction l as [|a rest IH]; intros i; simpl; [reflexivity|].
  now rewrite Hpq, IH.
Qed.

Lemma isParentLink_geom (h h' : Heap Token.t) (r : ref) (link : Link.t) :
  geomEq h h' -> isParentLink h (h r) link = isParentLink h' (h' r) link.
Proof.
  intros Hg.
  assert (Hid : forall a, Token.id (h a) = Token.id (h' a)) by (intros a; apply Hg).
  assert (Hty : forall a, Token.type (h a) = Token.type (h' a)) by (intros a; apply Hg).
  unfold isParentLink.
  destruct (Link.source link) as [?|s], (Link.target link) as [?|t]; try reflexivity.
  now rewrite !Hid, !Hty.
Qed.

Lemma parentOf_geom (h h' : Heap Token.t) (r : ref) (link : Link.t) :
  geomEq h h' -> parentOf h (h r) link = parentOf h' (h' r) link.
Proof.
  intros Hg.
  assert (Hid : forall a, Token.id (h a) = Token.id (h' a)) by (intros a; apply Hg).
  unfold parentOf. destruct (Link.source link) as [?|s]; [reflexivity|].
  now rewrite !Hid.
Qed.

(** The parent of a node on a link that passed the filter is an object:
    [orbitTarget] never meets a string there. *)
Lemma parentOf_object (h : Heap Token.t) (node : Token.t) (link : Link.t) :
  isParentLink h node link = true ->
  exists p, parentOf h node link = Link.Obj p.
Proof.
  unfold isParentLink, parentOf.
  destruct (Link.source link) as [?|s], (Link.target link) as [?|t];
    try discriminate.
  intros _. destruct (String.eqb _ _); eauto.
Qed.

(** The target of a node depends on the heap through ids, kinds, sizes and
    positions only. *)
Lemma orbitTarget_geom (now : R) (h h' : Heap Token.t) (r : ref) :
  geomEq h h' -> orbitTarget f now h r = orbitTarget f now h' r.
Proof.
  intros Hg. unfold orbitTarget.
  assert (Hid : forall a, Token.id (h a) = Token.id (h' a)) by (intros a; apply Hg).
  assert (Hty : forall a, Token.type (h a) = Token.type (h' a)) by (intros a; apply Hg).
  rewrite (Hty r).
  destruct (Token.kind_eqb (Token.type (h' r)) Token.root); [reflexivity|].
  rewrite (filter_ext _ _ (fun link => isParentLink_geom h h' r link Hg)).
  destruct (List.filter _ (links f)) as [|parentLink ?]; [reflexivity|].
  rewrite (parentOf_geom h h' r parentLink Hg).
  destruct (parentOf h' (h' r) parentLink) as [?|p]; [reflexivity|].
  unfold findIndex.
  rewrite (findIndexFrom_ext
             (fun n => String.eqb (Token.id (h n)) (Token.id (h r)))
             (fun n => String.eqb (Token.id (h' n)) (Token.id (h' r))))
    by (intros a; now rewrite !Hid).
  destruct (Hg p) as (_&_&Hsz&Hx&Hy&Hz).
  destruct (Hg r) as (_&_&Hsz'&_&_&_).
  unfold calculateOrbitRadius.
  now rewrite Hx, Hy, Hz, Hsz, Hsz'.
Qed.

Lemma forceNode_geom (alpha now : R) (h : Heap Token.t) (r : ref) :
  geomEq h (forceNode f alpha now h r).
Proof.
  intros r'. unfold forceNode.
  destruct (orbitTarget f now h r) as [[[tx ty] tz]|]; [|apply geomEq_refl].
  destruct (Req_dec_T _ 0); [apply geomEq_refl|].
  unfold write. destruct (Nat.eqb_spec r' r) as [->|_]; repeat split.
Qed.

(** Applied to two heaps with the same geometry and the same node at [r],
    an iteration leaves the same node at [r]. *)
Lemma forceNode_frame (alpha now : R) (h h' : Heap Token.t) (r : ref) :
  geomEq h h' -> h' r = h r ->
  forceNode f alpha now h' r r = forceNode f alpha now h r r.
Proof.
  intros Hg Hr. unfold forceNode.
  rewrite <- (orbitTarget_geom now h h' r Hg).
  destruct (orbitTarget f now h r) as [[[tx ty] tz]|]; [|exact Hr].
  rewrite Hr. destruct (Req_dec_T _ 0); [exact Hr|].
  now rewrite !write_eq.
Qed.

(** With each node once in the array, the node at array position [k] ends
    the tick as its own iteration leaves it on the initial heap. *)
Lemma forEachNode_at (alpha : R) (clock : nat -> R) (l : list ref) :
  forall (i k : nat) (h : Heap Token.t) (r : ref),
    List.NoDup l -> nth_error l k = Some r ->
    forEachNode f alpha clock i l h r
    = forceNode f alpha (clock (i + k)%nat) h r r.
Proof.
  induction l as [|r0 rest IH]; intros i k h r Hnd Hk.
  - destruct k; discriminate.
  - inversion Hnd as [|? ? Hnotin Hnd']; subst. destruct k as [|k]; simpl in *.
    + injection Hk as ->. rewrite Nat.add_0_r. now apply forEachNode_notin.
    + assert (Hne : r <> r0).
      { intros ->. apply Hnotin. eapply nth_error_In; eauto. }
      rewrite (IH (S i) k _ r Hnd' Hk).
      replace (S i + k)%nat with (i + S k)%nat by lia.
      apply forceNode_frame.
      * apply forceNode_geom.
      * now apply forceNode_other.
Qed.

End OrbitalFacts.

(** ** Claims on the orbital force *)

Section OrbitalClaims.
Import OrbitalForce.

Lemma Rmax_1_1 : Rmax 1 1 = 1.
Proof. unfold Rmax. real_cases. Qed.

Lemma scenario_target (x : R) :
  orbitTarget (Scenario.orbital 1) 0 (Scenario.heapAt x) 0%nat = Some (52, 0, 0).
Proof.
  unfold orbitTarget, Scenario.orbital, findIndex, calculateOrbitRadius. simpl.
  destruct (Req_dec_T 1 0) as [H|_]; [lra|].
  rewrite Rmax_1_1.
  replace (0 * (0.00025 * 1) + 0 * (PI / 6)) with 0 by lra.
  rewrite cos_0, sin_0. do 2 f_equal; [f_equal|]; lra.
Qed.

Lemma scenario_distance :
  distanceTo Scenario.heap 0%nat (52, 0, 0) = 52.
Proof.
  unfold distanceTo, Scenario.heap. simpl.
  replace ((52 - 0) * (52 - 0) + (0 - 0) * (0 - 0) + (0 - 0) * (0 - 0))
    with (52 * 52) by lra.
  apply sqrt_square. lra.
Qed.

(** A vector scaled to length [F] has magnitude [|F|]. *)
Lemma magnitude_scaled (dx dy dz F : R) :
  sqrt (dx * dx + dy * dy + dz * dz) <> 0 ->
  magnitude (dx / sqrt (dx * dx + dy * dy + dz * dz) * F,
             dy / sqrt (dx * dx + dy * dy + dz * dz) * F,
             dz / sqrt (dx * dx + dy * dy + dz * dz) * F) = Rabs F.
Proof.
  set (s := dx * dx + dy * dy + dz * dz). intros Hd.
  assert (Hs : 0 <= s) by (unfold s; nra).
  assert (Hdd : sqrt s * sqrt s = s) by now apply sqrt_sqrt.
  unfold magnitude.
  replace (dx / sqrt s * F * (dx / sqrt s * F) + dy / sqrt s * F * (dy / sqrt s * F)
           + dz / sqrt s * F * (dz / sqrt s * F))
    with (F * F).
  - rewrite <- (sqrt_Rsqr_abs F). reflexivity.
  - transitivity (s * (F * F) / (sqrt s * sqrt s)).
    + rewrite Hdd. field. intros Hz. apply Hd. rewrite Hz. apply sqrt_0.
    + unfold s. field. exact Hd.
Qed.

(** C1 (root exclusion).  Whatever the strength, the bound nodes and links,
    [alpha] and the clock, an invocation of the force leaves every node of
    kind root as it was: its velocity components [vx], [vy], [vz] are
    unchanged, and so is its position. *)
Theorem root_velocity_unchanged (f : OrbitalForce.t) (alpha : R)
    (clock : nat -> R) (h : Heap Token.t) (r : ref) :
  Token.type (h r) = Token.root ->
  force f alpha clock h r = h r /\
  Token.vx (force f alpha clock h r) = Token.vx (h r) /\
  Token.vy (force f alpha clock h r) = Token.vy (h r) /\
  Token.vz (force f alpha clock h r) = Token.vz (h r).
Proof.
  intros Hroot.
  assert (Hsame : force f alpha clock h r = h r).
  { unfold force. destruct (Rle_dec (strength f) 0); [reflexivity|].
    now apply forEachNode_keeps_root. }
  now rewrite Hsame.
Qed.

Lemma root_velocity_unchanged_witness :
  force (Scenario.orbital 1) 1 Scenario.clock Scenario.heap 1%nat
  = Scenario.heap 1%nat /\
  Token.vx (force (Scenario.orbital 1) 1 Scenario.clock Scenario.heap 1%nat)
  = Token.vx (Scenario.heap 1%nat) /\
  Token.vy (force (Scenario.orbital 1) 1 Scenario.clock Scenario.heap 1%nat)
  = Token.vy (Scenario.heap 1%nat) /\
  Token.vz (force (Scenario.orbital 1) 1 Scenario.clock Scenario.heap 1%nat)
  = Token.vz (Scenario.heap 1%nat).
Proof.
  apply (root_velocity_unchanged (Scenario.orbital 1) 1 Scenario.clock
           Scenario.heap 1%nat).
  reflexivity.
Defined.

(** The velocity that one tick adds to a node that is once in the array. *)
Lemma force_delta (f : OrbitalForce.t) (alpha : R) (clock : nat -> R)
    (h : Heap Token.t) (k : nat) (r : ref) (tx ty tz : R) :
  0 < strength f ->
  List.NoDup (nodes f) -> nth_error (nodes f) k = Some r ->
  orbitTarget f (clock k) h r = Some (tx, ty, tz) ->
  distanceTo h r (tx, ty, tz) <> 0 ->
  velocityDelta h (force f alpha clock h) r
  = ((tx - Token.x (h r)) / distanceTo h r (tx, ty, tz)
       * (Rmin (distanceTo h r (tx, ty, tz)) 2 * alpha * strength f),
     (ty - Token.y (h r)) / distanceTo h r (tx, ty, tz)
       * (Rmin (distanceTo h r (tx, ty, tz)) 2 * alpha * strength f),
     (tz - Token.z (h r)) / distanceTo h r (tx, ty, tz)
       * (Rmin (distanceTo h r (tx, ty, tz)) 2 * alpha * strength f)).
Proof.
  intros Hs Hnd Hk Htgt Hd.
  unfold velocityDelta, force.
  destruct (Rle_dec (strength f) 0) as [Hle|_]; [lra|].
  rewrite (forEachNode_at f alpha clock (nodes f) 0 k h r Hnd Hk). simpl.
  unfold forceNode. rewrite Htgt.
  unfold distanceTo in *.
  destruct (Req_dec_T _ 0) as [Hz|_]; [contradiction|].
  rewrite write_eq. unfold addVelocity. simpl.
  f_equal; [f_equal|]; ring.
Qed.

(** C2 (force magnitude cap).  A non-root node that receives an orbital
    adjustment in a tick (positive strength, a target at distance [d <> 0])
    has a velocity delta of Euclidean magnitude
    [min(d, 2) * |alpha| * strength]; for the non-negative [alpha] of a
    simulation this is [min(d, 2) * alpha * strength], at most
    [2 * alpha * strength], and exactly that from distance 2 on. *)
Theorem force_magnitude_cap (f : OrbitalForce.t) (alpha : R)
    (clock : nat -> R) (h : Heap Token.t) (k : nat) (r : ref)
    (tgt : R * R * R) :
  0 < strength f ->
  List.NoDup (nodes f) -> nth_error (nodes f) k = Some r ->
  orbitTarget f (clock k) h r = Some tgt ->
  distanceTo h r tgt <> 0 ->
  let delta := velocityDelta h (force f alpha clock h) r in
  let distance := distanceTo h r tgt in
  magnitude delta = Rmin distance 2 * Rabs alpha * strength f /\
  (0 <= alpha ->
   magnitude delta = Rmin distance 2 * alpha * strength f /\
   magnitude delta <= 2 * alpha * strength f /\
   (2 <= distance -> magnitude delta = 2 * alpha * strength f)).
Proof.
  intros Hs Hnd Hk Htgt Hd delta distance.
  destruct tgt as [[tx ty] tz].
  assert (Hpos : 0 <= distance) by (unfold distance, distanceTo; apply sqrt_pos).
  assert (Hmin : 0 <= Rmin distance 2 <= 2).
  { unfold Rmin. destruct (Rle_dec distance 2); lra. }
  assert (Hmag : magnitude delta = Rmin distance 2 * Rabs alpha * strength f).
  { unfold delta. rewrite (force_delta f alpha clock h k r tx ty tz Hs Hnd Hk Htgt Hd).
    unfold distanceTo in *. rewrite magnitude_scaled by exact Hd.
    fold distance. rewrite !Rabs_mult.
    rewrite (Rabs_pos_eq (Rmin distance 2)) by lra.
    rewrite (Rabs_pos_eq (strength f)) by lra. reflexivity. }
  split; [exact Hmag|].
  intros Ha. rewrite Hmag, (Rabs_pos_eq alpha Ha).
  split; [reflexivity|]. split.
  - apply Rmult_le_compat_r; [lra|]. apply Rmult_le_compat_r; lra.
  - intros H2. unfold Rmin. destruct (Rle_dec distance 2); [|reflexivity].
    replace distance with 2 by lra. reflexivity.
Qed.

Lemma scenario_nodup : List.NoDup (nodes (Scenario.orbital 1)).
Proof.
  simpl. constructor; [|constructor; [|constructor]]; simpl; intuition lia.
Qed.

Lemma force_magnitude_cap_witness :
  magnitude (velocityDelta Scenario.heap
               (force (Scenario.orbital 1) 1 Scenario.clock Scenario.heap) 0%nat)
  = 2 * 1 * strength (Scenario.orbital 1).
Proof.
  assert (Hs : 0 < strength (Scenario.orbital 1)) by (simpl; lra).
  assert (Hd : distanceTo Scenario.heap 0%nat (52, 0, 0) <> 0)
    by (rewrite scenario_distance; lra).
  destruct (force_magnitude_cap (Scenario.orbital 1) 1 Scenario.clock
              Scenario.heap 0 0%nat (52, 0, 0) Hs scenario_nodup eq_refl
              (scenario_target 0) Hd) as [_ Hcap].
  destruct Hcap as (_ & _ & Hfar); [lra|].
  apply Hfar. rewrite scenario_distance. lra.
Defined.

Lemma Rmax_ge_1 (v : R) : 1 <= v -> Rmax v 1 = v.
Proof. intros Hv. unfold Rmax. real_cases. Qed.

Lemma Rmax_le_1 (v : R) : v <= 1 -> Rmax v 1 = 1.
Proof. intros Hv. unfold Rmax. real_cases. Qed.

(** The adjustment of the radius, by the value of the link. *)
Lemma valueAdjustment_cases (parent node : Token.t) (v : R) :
  (v <= 1 ->
   calculateOrbitRadius parent node v
   = Token.size parent + Token.size node + 10 + 30) /\
  (1 <= v ->
   calculateOrbitRadius parent node v
   = Token.size parent + Token.size node + 10 + 30 / v).
Proof.
  unfold calculateOrbitRadius. split; intros Hv.
  - destruct (Req_dec_T v 0); [reflexivity|].
    rewrite Rmax_le_1 by exact Hv. lra.
  - destruct (Req_dec_T v 0); [lra|].
    now rewrite Rmax_ge_1.
Qed.

(** C3 (orbit radius).  The radius is
    [parent.size + node.size + 10 + radiusAdjustment], where the adjustment
    is [30 / max(linkValue, 1)] for a positive link value and [30]
    otherwise.  For fixed sizes the radius never grows with the link value:
    it decreases strictly from value 1 on and holds at the adjustment 30 up
    to value 1.  Sizes 10 and 2 give radius 52 at value 1 and 28 at
    value 5. *)
Theorem orbit_radius_monotone (parent node : Token.t) :
  (forall v,
     calculateOrbitRadius parent node v
     = Token.size parent + Token.size node + 10
       + (if Rlt_dec 0 v then 30 / Rmax v 1 else 30)) /\
  (forall v1 v2, v1 <= v2 ->
     calculateOrbitRadius parent node v2 <= calculateOrbitRadius parent node v1) /\
  (forall v1 v2, 1 <= v1 -> v1 < v2 ->
     calculateOrbitRadius parent node v2 < calculateOrbitRadius parent node v1) /\
  (forall v1 v2, v1 <= 1 -> v2 <= 1 ->
     calculateOrbitRadius parent node v2 = calculateOrbitRadius parent node v1) /\
  (Token.size parent = 10 -> Token.size node = 2 ->
     calculateOrbitRadius parent node 1 = 52 /\
     calculateOrbitRadius parent node 5 = 28).
Proof.
  pose proof (valueAdjustment_cases parent node) as Hcases.
  assert (Hinv : forall a b, 1 <= a -> a <= b -> 30 / b <= 30 / a).
  { intros a b Ha Hab. unfold Rdiv. apply Rmult_le_compat_l; [lra|].
    apply Rinv_le_contravar; lra. }
  assert (Hinv' : forall a b, 1 <= a -> a < b -> 30 / b < 30 / a).
  { intros a b Ha Hab. unfold Rdiv. apply Rmult_lt_compat_l; [lra|].
    apply Rinv_lt_contravar; [nra|lra]. }
  repeat split.
  - intros v. destruct (Rlt_dec 0 v) as [Hpos|Hneg].
    + unfold calculateOrbitRadius. destruct (Req_dec_T v 0); [lra|reflexivity].
    + destruct (Hcases v) as [Hlow _]. apply Hlow. lra.
  - intros v1 v2 Hle.
    destruct (Rle_dec v2 1) as [H2|H2].
    + destruct (Hcases v1) as [Hl1 _], (Hcases v2) as [Hl2 _].
      rewrite Hl1, Hl2 by lra. lra.
    + destruct (Hcases v2) as [_ Hh2]. rewrite Hh2 by lra.
      destruct (Rle_dec v1 1) as [H1|H1].
      * destruct (Hcases v1) as [Hl1 _]. rewrite Hl1 by lra.
        specialize (Hinv 1 v2). lra.
      * destruct (Hcases v1) as [_ Hh1]. rewrite Hh1 by lra.
        specialize (Hinv v1 v2). lra.
  - intros v1 v2 H1 Hlt.
    destruct (Hcases v1) as [_ Hh1], (Hcases v2) as [_ Hh2].
    rewrite Hh1, Hh2 by lra. specialize (Hinv' v1 v2). lra.
  - intros v1 v2 H1 H2.
    destruct (Hcases v1) as [Hl1 _], (Hcases v2) as [Hl2 _].
    now rewrite Hl1, Hl2.
  - destruct (Hcases 1) as [Hl _]. rewrite Hl by lra. lra.
  - destruct (Hcases 5) as [_ Hh]. rewrite Hh by lra. lra.
Qed.

Lemma orbit_radius_monotone_witness :
  calculateOrbitRadius Scenario.rootToken (Scenario.leafToken 0) 1 = 52 /\
  calculateOrbitRadius Scenario.rootToken (Scenario.leafToken 0) 5 = 28 /\
  calculateOrbitRadius Scenario.rootToken (Scenario.leafToken 0) 5
  < calculateOrbitRadius Scenario.rootToken (Scenario.leafToken 0) 1.
Proof.
  destruct (orbit_radius_monotone Scenario.rootToken (Scenario.leafToken 0))
    as (_ & _ & Hstrict & _ & Hex).
  destruct (Hex eq_refl eq_refl) as [H1 H5].
  split; [exact H1|]. split; [exact H5|].
  apply Hstrict; lra.
Defined.

(** C4 (zero strength).  While the strength of the force is 0, an
    invocation, with any [alpha], nodes and links, changes no node: the
    velocity components of every node are as before. *)
Theorem zero_strength_noop (f : OrbitalForce.t) (alpha : R)
    (clock : nat -> R) (h : Heap Token.t) (r : ref) :
  strength f = 0 ->
  force f alpha clock h r = h r /\
  Token.vx (force f alpha clock h r) = Token.vx (h r) /\
  Token.vy (force f alpha clock h r) = Token.vy (h r) /\
  Token.vz (force f alpha clock h r) = Token.vz (h r).
Proof.
  intros Hzero. unfold force.
  destruct (Rle_dec (strength f) 0) as [_|Hgt]; [|lra].
  repeat split.
Qed.

Lemma zero_strength_noop_witness :
  force (Scenario.orbital 0) 1 Scenario.clock Scenario.heap 0%nat
  = Scenario.heap 0%nat /\
  Token.vx (force (Scenario.orbital 0) 1 Scenario.clock Scenario.heap 0%nat)
  = Token.vx (Scenario.heap 0%nat) /\
  Token.vy (force (Scenario.orbital 0) 1 Scenario.clock Scenario.heap 0%nat)
  = Token.vy (Scenario.heap 0%nat) /\
  Token.vz (force (Scenario.orbital 0) 1 Scenario.clock Scenario.heap 0%nat)
  = Token.vz (Scenario.heap 0%nat).
Proof.
  apply (zero_strength_noop (Scenario.orbital 0) 1 Scenario.clock
           Scenario.heap 0%nat).
  reflexivity.
Defined.

(** An iteration whose target is where the node already is changes
    nothing. *)
Lemma forceNode_zero_distance (f : OrbitalForce.t) (alpha now : R)
    (h : Heap Token.t) (r : ref) (tgt : R * R * R) :
  orbitTarget f now h r = Some tgt -> distanceTo h r tgt = 0 ->
  forceNode f alpha now h r = h.
Proof.
  intros Htgt Hd. unfold forceNode. rewrite Htgt.
  destruct tgt as [[tx ty] tz]. unfold distanceTo in Hd.
  destruct (Req_dec_T _ 0) as [_|Hnz]; [reflexivity|contradiction].
Qed.

End OrbitalClaims.

(** ** Rounding *)

Lemma Int_part_IZR (n : Z) : Int_part (IZR n) = n.
Proof. symmetry. apply Int_part_spec. lra. Qed.

Lemma Math_ceil_IZR (n : Z) : Math_ceil (IZR n) = n.
Proof. unfold Math_ceil. rewrite <- opp_IZR, Int_part_IZR. lia. Qed.

Lemma Math_ceil_positive (v : R) : 0 < v -> (1 <= Math_ceil v)%Z.
Proof.
  intros Hv. unfold Math_ceil.
  destruct (base_Int_part (- v)) as [Hle _].
  assert (Hneg : (Int_part (- v) < 0)%Z) by (apply lt_IZR; lra).
  lia.
Qed.

Lemma Math_floor_bounds (v : R) (n : Z) :
  IZR n <= v < IZR n + 1 -> Math_floor v = n.
Proof. intros Hv. unfold Math_floor. symmetry. apply Int_part_spec. lra. Qed.

(** ** The shared resources *)

Section ResourceFacts.
Import LinkObjects.

(** The manager that a first [initLinkResources] builds. *)
Lemma initLinkResources_fresh (detail : Detail) (w : World) :
  linkResourceManager w = None ->
  let m := fst (initLinkResources detail w) in
  let w' := snd (initLinkResources detail w) in
  m = allocated w /\
  linkResourceManager w' = Some m /\
  ResourceManager.getTexture "particle" (managers w' m)
  = inr (createParticleTexture w) /\
  ResourceManager.getMaterial "linkBase" (managers w' m)
  = inr (THREE.mkMaterial THREE.LineBasic true 0.6 (THREE.Hex 16777215) 1 None) /\
  ResourceManager.getParameter "maxParticles" (managers w' m)
  = Some (maxParticlesOf detail).
Proof.
  intros Hnone. unfold initLinkResources. rewrite Hnone. simpl.
  rewrite write_eq. repeat split.
Qed.

Lemma maxParticlesOf_positive (detail : Detail) : (10 <= maxParticlesOf detail)%Z.
Proof. destruct detail; simpl; lia. Qed.

(** The offsets after the initialization loop: one draw per particle. *)
Lemma initParticles_exact (source dir : vec3) (random : nat -> R) (n : nat) :
  forall (i : nat) (positions offsets : list R),
    (i + n)%nat = List.length offsets ->
    snd (initParticles source dir random i n positions offsets)
    = take i offsets ++ List.map random (seq i n).
Proof.
  induction n as [|n IH]; intros i positions offsets Hlen.
  - simpl. rewrite take_ge by lia. now rewrite app_nil_r.
  - simpl. destruct source as [[sx sy] sz], dir as [[dx dy] dz].
    rewrite IH by (rewrite length_insert; lia).
    rewrite (take_S_r (<[i:=_]> offsets) i (random i))
      by (apply list_lookup_insert_eq; lia).
    rewrite take_insert_ge by lia.
    now rewrite <- app_assoc.
Qed.

(** What [createParticleSystem] returns: the metadata holds the count and
    the speed given, and one random draw per particle. *)
Lemma createParticleSystem_metadata (source target : vec3)
    (color : THREE.Color) (speed : R) (count : Z) (size : R)
    (random : nat -> R) (w : World) (p : Points) :
  createParticleSystem source target color speed count size random w = inr p ->
  exists metadata,
    __metadata p = Some metadata /\
    LinkObjects.count metadata = count /\
    LinkObjects.speed metadata = speed /\
    offsets metadata = List.map random (seq 0 (Z.to_nat count)).
Proof.
  unfold createParticleSystem.
  destruct (linkResourceManager w) as [m|]; [|discriminate].
  destruct source as [[sx sy] sz], target as [[tx ty] tz].
  destruct (ResourceManager.getTexture "particle" (managers w m)) as [e|texture];
    simpl; [discriminate|].
  destruct (count <? 0)%Z; [discriminate|].
  destruct (initParticles _ _ _ _ _ _ _) as [positions offsets] eqn:Hinit.
  intros Heq. injection Heq as <-. simpl.
  eexists. split; [reflexivity|]. simpl. repeat split.
  change offsets with (snd (positions, offsets)). rewrite <- Hinit.
  now rewrite initParticles_exact by (rewrite repeat_length; lia).
Qed.

Lemma createParticleSystem_offsets (source target : vec3)
    (color : THREE.Color) (speed : R) (count : Z) (size : R)
    (random : nat -> R) (w : World) (p : Points) (P : R -> Prop) :
  createParticleSystem source target color speed count size random w = inr p ->
  (forall i, P (random i)) ->
  Forall P (offsetsOf p) /\
  List.length (offsetsOf p) = Z.to_nat count.
Proof.
  intros Hcreate Hrandom.
  destruct (createParticleSystem_metadata _ _ _ _ _ _ _ _ _ Hcreate)
    as (metadata & Hmd & _ & _ & Hoffsets).
  unfold offsetsOf. rewrite Hmd, Hoffsets. split.
  - apply Forall_forall. intros o Hin.
    apply list_elem_of_fmap in Hin. destruct Hin as (i & -> & _). apply Hrandom.
  - now rewrite length_map, length_seq.
Qed.

Lemma createParticleSystem_succeeds (source target : vec3)
    (color : THREE.Color) (speed : R) (count : Z) (size : R)
    (random : nat -> R) (w : World) (m : ref) (texture : THREE.Texture) :
  linkResourceManager w = Some m ->
  ResourceManager.getTexture "particle" (managers w m) = inr texture ->
  (0 <= count)%Z ->
  exists p, createParticleSystem source target color speed count size random w
            = inr p.
Proof.
  intros Hm Htex Hcount. unfold createParticleSystem. rewrite Hm.
  destruct source as [[sx sy] sz], target as [[tx ty] tz].
  rewrite Htex. simpl.
  destruct (Z.ltb_spec count 0) as [Hneg|_]; [lia|].
  destruct (initParticles _ _ _ _ _ _ _) as [positions offsets].
  eexists. reflexivity.
Qed.

End ResourceFacts.

(** ** Claims on the link objects *)

Section LinkClaims.
Import LinkObjects.

(** The link object built on initialized resources: one line, and one
    particle system exactly when particles are shown and the value of the
    link is positive. *)
Lemma createLinkObject_initialized (link : Link.t) (showParticles : bool)
    (particleSpeed particleSize : R) (tokens : Heap Token.t)
    (random : nat -> R) (w : World) (m : ref) (base : THREE.Material)
    (texture : THREE.Texture) (maxParticles : Z) :
  linkResourceManager w = Some m ->
  ResourceManager.getMaterial "linkBase" (managers w m) = inr base ->
  ResourceManager.getTexture "particle" (managers w m) = inr texture ->
  ResourceManager.getParameter "maxParticles" (managers w m) = Some maxParticles ->
  (0 < maxParticles)%Z ->
  exists group,
    createLinkObject link showParticles particleSpeed particleSize tokens
                     random w = (inr group, w) /\
    ((showParticles = true /\ 0 < Link.value link) ->
     exists p metadata,
       particleSystemsOf group = [p] /\ __metadata p = Some metadata /\
       count metadata
       = Z.min (Math_ceil (Link.value link * 2)) maxParticles /\
       List.length (offsets metadata) = Z.to_nat (count metadata)) /\
    (~ (showParticles = true /\ 0 < Link.value link) ->
     particleSystemsOf group = []).
Proof.
  intros Hm Hbase Htex Hparam Hmax.
  unfold createLinkObject. rewrite Hm. cbv zeta. rewrite Hm.
  destruct (positionOf tokens (anchorOf (Link.source link))) as [[sx sy] sz].
  destruct (positionOf tokens (anchorOf (Link.target link))) as [[tx ty] tz].
  rewrite Hbase, Hparam. simpl.
  replace (if (maxParticles =? 0)%Z then 25%Z else maxParticles)
    with maxParticles by (destruct (Z.eqb_spec maxParticles 0); [lia|reflexivity]).
  destruct showParticles; simpl.
  - destruct (Rgt_dec (Link.value link) 0) as [Hpos|Hnpos].
    + set (particleCount := Z.min (Math_ceil (Link.value link * 2)) maxParticles).
      assert (Hcount : (0 <= particleCount)%Z).
      { assert (Hceil : (1 <= Math_ceil (Link.value link * 2))%Z)
          by (apply Math_ceil_positive; lra).
        unfold particleCount. lia. }
      destruct (createParticleSystem_succeeds (sx, sy, sz) (tx, ty, tz)
                  (match Link.color link with
                   | Some c =>
                       if String.eqb c EmptyString
                       then THREE.Hex 11184810 else THREE.Css c
                   | None => THREE.Hex 11184810
                   end)
                  particleSpeed particleCount particleSize random w m texture
                  Hm Htex Hcount) as [p Hp].
      rewrite Hp. simpl.
      destruct (createParticleSystem_metadata _ _ _ _ _ _ _ _ _ Hp)
        as (metadata & Hmd & Hc & _ & Hoffsets).
      eexists. split; [reflexivity|]. split.
      * intros _. exists p, metadata. unfold particleSystemsOf. simpl.
        repeat split; [exact Hmd|exact Hc|].
        now rewrite Hoffsets, Hc, length_map, length_seq.
      * intros Hnot. exfalso. apply Hnot. split; [reflexivity|lra].
    + eexists. split; [reflexivity|]. split.
      * intros [_ Hpos]. exfalso. apply Hnpos. lra.
      * intros _. reflexivity.
  - eexists. split; [reflexivity|]. split.
    + intros [Hfalse _]. discriminate.
    + intros _. reflexivity.
Qed.

(** C5 (particle count).  On link resources initialized for a quality tier,
    building the renderable of a link with particle display enabled makes a
    particle system if and only if the value of the link is strictly
    positive, and its particle count is
    [min(ceil(linkValue * 2), maxParticles of the tier)]: value 3 at tier
    medium gives 6 particles, value 20 at tier low gives 10. *)
Theorem particle_count_policy (detail : Detail) (link : Link.t)
    (particleSpeed particleSize : R) (tokens : Heap Token.t)
    (random : nat -> R) (w0 : World) :
  linkResourceManager w0 = None ->
  let w := snd (initLinkResources detail w0) in
  exists group,
    createLinkObject link true particleSpeed particleSize tokens random w
    = (inr group, w) /\
    (particleSystemsOf group <> [] <-> 0 < Link.value link) /\
    (forall p, In p (particleSystemsOf group) ->
       exists metadata,
         __metadata p = Some metadata /\
         count metadata
         = Z.min (Math_ceil (Link.value link * 2)) (maxParticlesOf detail) /\
         List.length (offsets metadata) = Z.to_nat (count metadata)) /\
    (detail = medium -> Link.value link = 3 ->
     exists p metadata,
       particleSystemsOf group = [p] /\ __metadata p = Some metadata /\
       count metadata = 6%Z) /\
    (detail = low -> Link.value link = 20 ->
     exists p metadata,
       particleSystemsOf group = [p] /\ __metadata p = Some metadata /\
       count metadata = 10%Z).
Proof.
  intros Hnone w.
  destruct (initLinkResources_fresh detail w0 Hnone) as (_ & Hm & Htex & Hbase & Hparam).
  fold w in Hm, Htex, Hbase, Hparam.
  assert (Hmax : (0 < maxParticlesOf detail)%Z)
    by (pose proof (maxParticlesOf_positive detail); lia).
  destruct (createLinkObject_initialized link true particleSpeed particleSize
              tokens random w _ _ _ _ Hm Hbase Htex Hparam Hmax)
    as (group & Hgroup & Hsome & Hnone').
  exists group. split; [exact Hgroup|].
  assert (Hdec : 0 < Link.value link \/ ~ 0 < Link.value link)
    by (destruct (Rlt_dec 0 (Link.value link)); auto).
  split; [|split; [|split]].
  - split.
    + intros Hne. destruct Hdec as [Hpos|Hnpos]; [exact Hpos|].
      exfalso. apply Hne, Hnone'. intros [_ Hpos]. contradiction.
    + intros Hpos. destruct (Hsome (conj eq_refl Hpos)) as (p & md & Hp & _).
      rewrite Hp. discriminate.
  - intros p Hin. destruct Hdec as [Hpos|Hnpos].
    + destruct (Hsome (conj eq_refl Hpos)) as (p' & md & Hp & Hmd & Hc & Hlen).
      rewrite Hp in Hin. destruct Hin as [<-|[]]. now exists md.
    + rewrite Hnone' in Hin by (intros [_ Hpos]; contradiction). destruct Hin.
  - intros -> Hv.
    destruct Hsome as (p & md & Hp & Hmd & Hc & _); [split; [reflexivity|lra]|].
    exists p, md. repeat split; [exact Hp|exact Hmd|].
    rewrite Hc, Hv. replace (3 * 2) with (IZR 6) by lra.
    rewrite Math_ceil_IZR. reflexivity.
  - intros -> Hv.
    destruct Hsome as (p & md & Hp & Hmd & Hc & _); [split; [reflexivity|lra]|].
    exists p, md. repeat split; [exact Hp|exact Hmd|].
    rewrite Hc, Hv. replace (20 * 2) with (IZR 40) by lra.
    rewrite Math_ceil_IZR. reflexivity.
Qed.

Lemma particle_count_policy_witness :
  exists group p metadata,
    createLinkObject (Scenario.link 3) true 0.005 1.5 Scenario.heap
      Scenario.random (snd (initLinkResources medium Scenario.world))
    = (inr group, snd (initLinkResources medium Scenario.world)) /\
    particleSystemsOf group = [p] /\ __metadata p = Some metadata /\
    count metadata = 6%Z.
Proof.
  destruct (particle_count_policy medium (Scenario.link 3) 0.005 1.5
              Scenario.heap Scenario.random Scenario.world eq_refl)
    as (group & Hgroup & _ & _ & Hmedium & _).
  destruct (Hmedium eq_refl eq_refl) as (p & metadata & Hp & Hmd & Hcount).
  exists group, p, metadata. repeat split; assumption.
Defined.

(** Offsets in the half-open and in the closed unit interval. *)
Lemma advanceParticles_offsets (source dir : vec3) (length speed : R) (n : nat) :
  0 < speed < 1 ->
  forall (i : nat) (positions offsets : list R),
    Forall (fun o => 0 <= o <= 1) offsets ->
    Forall (fun o => 0 <= o <= 1)
           (snd (advanceParticles source dir length speed i n positions offsets)).
Proof.
  intros Hspeed. induction n as [|n IH]; intros i positions offsets Hall.
  - exact Hall.
  - simpl. destruct (offsets !! i) as [o|] eqn:Ho; [|now apply IH].
    destruct source as [[sx sy] sz], dir as [[dx dy] dz].
    apply IH. apply Forall_insert; [exact Hall|].
    assert (Ho' : 0 <= o <= 1).
    { rewrite Forall_forall in Hall. apply Hall.
      eapply list_elem_of_lookup_2. exact Ho. }
    destruct (Rgt_dec (o + speed) 1); lra.
Qed.

(** The invariant of an animated particle system. *)
Lemma updateParticles_offsets (p : Points) (source target : vec3) (s : R) :
  0 < s < 1 ->
  (exists metadata, __metadata p = Some metadata /\ speed metadata = s /\
                    Forall (fun o => 0 <= o <= 1) (offsets metadata)) ->
  exists metadata,
    __metadata (updateParticles p source target) = Some metadata /\
    speed metadata = s /\
    Forall (fun o => 0 <= o <= 1) (offsets metadata).
Proof.
  intros Hs (metadata & Hmd & Hspeed & Hall).
  unfold updateParticles. rewrite Hmd.
  destruct source as [[sx sy] sz], target as [[tx ty] tz].
  destruct (Req_dec_T _ 0); [now exists metadata|].
  destruct (advanceParticles _ _ _ _ _ _ _ _) as [positions' offsets'] eqn:Hadv.
  eexists. split; [reflexivity|]. simpl. split; [exact Hspeed|].
  change offsets' with (snd (positions', offsets')). rewrite <- Hadv.
  apply advanceParticles_offsets; [now rewrite Hspeed|exact Hall].
Qed.

Lemma animate_offsets (frames : list (vec3 * vec3)) (s : R) :
  0 < s < 1 ->
  forall p : Points,
    (exists metadata, __metadata p = Some metadata /\ speed metadata = s /\
                      Forall (fun o => 0 <= o <= 1) (offsets metadata)) ->
    Forall (fun o => 0 <= o <= 1) (offsetsOf (animate p frames)).
Proof.
  intros Hs. induction frames as [|[source target] frames IH]; intros p Hinv.
  - destruct Hinv as (metadata & Hmd & _ & Hall).
    unfold animate, offsetsOf. simpl. now rewrite Hmd.
  - unfold animate. simpl. apply IH.
    now apply updateParticles_offsets.
Qed.

Lemma unit_segment_length :
  sqrt ((1 - 0) * (1 - 0) + (0 - 0) * (0 - 0) + (0 - 0) * (0 - 0)) = 1.
Proof.
  replace ((1 - 0) * (1 - 0) + (0 - 0) * (0 - 0) + (0 - 0) * (0 - 0))
    with (1 * 1) by lra.
  apply sqrt_square. lra.
Qed.


Lemma scenario_particles_updated :
  offsetsOf (updateParticles Scenario.particles (0, 0, 0) (1, 0, 0)) = [1].
Proof.
  unfold updateParticles, Scenario.particles. simpl.
  rewrite unit_segment_length.
  destruct (Req_dec_T 1 0) as [H|_]; [lra|].
  destruct (Rgt_dec (1 / 2 + 1 / 2) 1) as [H|_]; [lra|].
  unfold offsetsOf. simpl.
  f_equal. lra.
Qed.

Lemma scenario_random_unit (i : nat) : 0 <= Scenario.random i < 1.
Proof. unfold Scenario.random. lra. Qed.

(** The offsets after the update loop: each one advanced and wrapped. *)
Lemma advanceParticles_exact (source dir : vec3) (length speed : R) (n : nat) :
  forall (i : nat) (positions offsets : list R),
    (i + n)%nat = List.length offsets ->
    snd (advanceParticles source dir length speed i n positions offsets)
    = take i offsets ++ List.map (advanceOffset speed) (drop i offsets).
Proof.
  induction n as [|n IH]; intros i positions offsets Hlen.
  - simpl. rewrite take_ge, drop_ge by lia. now rewrite app_nil_r.
  - simpl.
    destruct (lookup_lt_is_Some_2 offsets i) as [o Ho]; [lia|].
    rewrite Ho. destruct source as [[sx sy] sz], dir as [[dx dy] dz].
    rewrite IH by (rewrite length_insert; lia).
    rewrite (take_S_r (<[i:=_]> offsets) i (advanceOffset speed o))
      by (apply list_lookup_insert_eq; lia).
    rewrite take_insert_ge by lia.
    rewrite drop_insert_lt by lia.
    rewrite (drop_S offsets o i Ho). simpl.
    now rewrite <- app_assoc.
Qed.

Lemma sum_squares_nonneg (a b c : R) : 0 <= a * a + b * b + c * c.
Proof.
  pose proof (Rle_0_sqr a). pose proof (Rle_0_sqr b). pose proof (Rle_0_sqr c).
  unfold Rsqr in *. lra.
Qed.

Lemma sum_squares_zero (a b c : R) :
  a * a + b * b + c * c = 0 -> a = 0 /\ b = 0 /\ c = 0.
Proof.
  intros Hsum.
  pose proof (Rle_0_sqr a). pose proof (Rle_0_sqr b). pose proof (Rle_0_sqr c).
  unfold Rsqr in *.
  repeat split; apply Rsqr_0_uniq; unfold Rsqr; lra.
Qed.

Lemma segment_length_nonzero (source target : vec3) :
  source <> target ->
  sqrt ((fst (fst target) - fst (fst source)) * (fst (fst target) - fst (fst source))
        + (snd (fst target) - snd (fst source)) * (snd (fst target) - snd (fst source))
        + (snd target - snd source) * (snd target - snd source)) <> 0.
Proof.
  destruct source as [[sx sy] sz], target as [[tx ty] tz]. simpl.
  intros Hne Hz. apply sqrt_eq_0 in Hz; [|apply sum_squares_nonneg].
  apply sum_squares_zero in Hz. destruct Hz as (Hx & Hy & Hz).
  apply Hne. f_equal; [f_equal|]; lra.
Qed.

(** What stays of the metadata from frame to frame: the speed, the count,
    and as many offsets as the count. *)
Lemma updateParticles_metadata (p : Points) (source target : vec3) (s : R)
    (n : Z) :
  (exists metadata, __metadata p = Some metadata /\ speed metadata = s /\
                    count metadata = n /\
                    List.length (offsets metadata) = Z.to_nat n) ->
  (exists metadata,
     __metadata (updateParticles p source target) = Some metadata /\
     speed metadata = s /\ count metadata = n /\
     List.length (offsets metadata) = Z.to_nat n) /\
  (source <> target ->
   offsetsOf (updateParticles p source target)
   = List.map (advanceOffset s) (offsetsOf p)).
Proof.
  intros (metadata & Hmd & Hspeed & Hcount & Hlen).
  pose proof (segment_length_nonzero source target) as Hnz.
  unfold offsetsOf, updateParticles. rewrite Hmd.
  destruct source as [[sx sy] sz], target as [[tx ty] tz]. simpl in Hnz.
  destruct (Req_dec_T _ 0) as [Hz|_].
  - split; [now exists metadata|]. intros Hne. now apply Hnz in Hne.
  - destruct (advanceParticles _ _ _ _ _ _ _ _) as [positions' offsets'] eqn:Hadv.
    assert (Hoffsets : offsets' = List.map (advanceOffset s) (offsets metadata)).
    { change offsets' with (snd (positions', offsets')). rewrite <- Hadv.
      rewrite advanceParticles_exact by (rewrite Hcount; lia).
      now rewrite Hspeed. }
    simpl. split; [|intros _; exact Hoffsets].
    eexists. split; [reflexivity|]. simpl.
    repeat split; [exact Hspeed|exact Hcount|].
    now rewrite Hoffsets, length_map.
Qed.

Lemma animate_metadata (frames : list (vec3 * vec3)) (s : R) (n : Z) :
  forall p : Points,
    (exists metadata, __metadata p = Some metadata /\ speed metadata = s /\
                      count metadata = n /\
                      List.length (offsets metadata) = Z.to_nat n) ->
    exists metadata, __metadata (animate p frames) = Some metadata /\
                     speed metadata = s /\ count metadata = n /\
                     List.length (offsets metadata) = Z.to_nat n.
Proof.
  induction frames as [|[source target] frames IH]; intros p Hinv.
  - exact Hinv.
  - unfold animate. simpl. apply IH.
    now apply updateParticles_metadata.
Qed.

Lemma zero_segment_length (x y z : R) :
  sqrt ((x - x) * (x - x) + (y - y) * (y - y) + (z - z) * (z - z)) = 0.
Proof.
  replace ((x - x) * (x - x) + (y - y) * (y - y) + (z - z) * (z - z))
    with 0 by ring.
  apply sqrt_0.
Qed.

Lemma updateParticles_degenerate (p : Points) (position : vec3) :
  updateParticles p position position = p.
Proof.
  unfold updateParticles. destruct (__metadata p); [|reflexivity].
  destruct position as [[x y] z]. rewrite zero_segment_length.
  destruct (Req_dec_T 0 0) as [_|Hne]; [reflexivity|contradiction].
Qed.

Lemma scenario_on_target :
  OrbitalForce.distanceTo (Scenario.heapAt 52) 0%nat (52, 0, 0) = 0.
Proof.
  unfold OrbitalForce.distanceTo. simpl.
  replace (0 - 0) with (52 - 52) by lra. apply zero_segment_length.
Qed.

(** C7 (degenerate geometry).  No path of [updateParticles] throws, and
    with the source and the target at the same position it returns the
    particle system as it was, positions included; so does the update
    closure of a link object.  In the orbital force a node at distance
    exactly zero from its target gets no velocity change: its iteration
    changes nothing, and the tick leaves it as it was. *)
Theorem degenerate_geometry_noop :
  (forall (p : Points) (position : vec3),
     updateParticles p position position = p) /\
  (forall (tokens : Heap Token.t) (group : Group) (source target : Anchor),
     __updateParticles group = Some (source, target) ->
     positionOf tokens source = positionOf tokens target ->
     callUpdateParticles tokens group = group) /\
  (forall (f : OrbitalForce.t) (alpha now : R) (h : Heap Token.t) (r : ref)
          (tgt : R * R * R),
     OrbitalForce.orbitTarget f now h r = Some tgt ->
     OrbitalForce.distanceTo h r tgt = 0 ->
     OrbitalForce.forceNode f alpha now h r = h) /\
  (forall (f : OrbitalForce.t) (alpha : R) (clock : nat -> R)
          (h : Heap Token.t) (k : nat) (r : ref) (tgt : R * R * R),
     List.NoDup (OrbitalForce.nodes f) ->
     nth_error (OrbitalForce.nodes f) k = Some r ->
     OrbitalForce.orbitTarget f (clock k) h r = Some tgt ->
     OrbitalForce.distanceTo h r tgt = 0 ->
     OrbitalForce.force f alpha clock h r = h r).
Proof.
  split; [exact updateParticles_degenerate|]. split; [|split].
  - intros tokens [children hook] source target Hhook Hpos. simpl in Hhook.
    unfold callUpdateParticles. simpl. rewrite Hhook, Hpos. f_equal.
    rewrite <- (map_id children) at 2. apply map_ext.
    intros [geometry material|p]; [reflexivity|].
    now rewrite updateParticles_degenerate.
  - intros f alpha now h r tgt. apply forceNode_zero_distance.
  - intros f alpha clock h k r tgt Hnd Hk Htgt Hd. unfold OrbitalForce.force.
    destruct (Rle_dec (OrbitalForce.strength f) 0); [reflexivity|].
    rewrite (forEachNode_at f alpha clock (OrbitalForce.nodes f) 0 k h r Hnd Hk).
    simpl. now rewrite (forceNode_zero_distance f alpha (clock k) h r tgt).
Qed.

Lemma degenerate_geometry_noop_witness :
  updateParticles Scenario.particles (1, 0, 0) (1, 0, 0) = Scenario.particles /\
  OrbitalForce.force (Scenario.orbital 1) 1 Scenario.clock (Scenario.heapAt 52)
    0%nat
  = Scenario.heapAt 52 0%nat.
Proof.
  destruct degenerate_geometry_noop as (Hupdate & _ & _ & Htick).
  split; [apply Hupdate|].
  apply (Htick (Scenario.orbital 1) 1 Scenario.clock (Scenario.heapAt 52)
           0%nat 0%nat (52, 0, 0)).
  - exact scenario_nodup.
  - reflexivity.
  - exact (scenario_target 52).
  - exact scenario_on_target.
Defined.

End LinkClaims.

(** ** The offsets that the typed arrays hold *)

Section Float32Facts.



















End Float32Facts.

Section StoredOffsets.
Import LinkObjects.
Variable store : R -> R.
Hypothesis store_unit : forall v, 0 <= v <= 1 -> 0 <= store v <= 1.
Hypothesis store_two : forall v, 0 <= v <= 2 -> 0 <= store v <= 2.









End StoredOffsets.

(** ** Claim on the range of the offsets *)

Section OffsetClaims.
Import LinkObjects.






(** With the identity for the store, the functions with stores are those of
    [LinkObjects]. *)
Lemma stored_identity_initParticles (source dir : vec3) (random : nat -> R)
    (n : nat) :
  forall (i : nat) (positions offsets : list R),
    Stored.initParticles (fun v => v) source dir random i n positions offsets
    = initParticles source dir random i n positions offsets.
Proof.
  induction n as [|n IH]; intros i positions offsets; [reflexivity|].
  simpl. destruct source as [[sx sy] sz], dir as [[dx dy] dz]. apply IH.
Qed.

Lemma stored_identity_advanceParticles (source dir : vec3) (length speed : R)
    (n : nat) :
  forall (i : nat) (positions offsets : list R),
    Stored.advanceParticles (fun v => v) source dir length speed i n positions
      offsets
    = advanceParticles source dir length speed i n positions offsets.
Proof.
  induction n as [|n IH]; intros i positions offsets; [reflexivity|].
  simpl. destruct (offsets !! i) as [o|]; [|apply IH].
  destruct source as [[sx sy] sz], dir as [[dx dy] dz]. apply IH.
Qed.

Lemma stored_identity (p : Points) (source target : vec3)
    (color : THREE.Color) (speed : R) (count : Z) (size : R)
    (random : nat -> R) (w : World) :
  Stored.createParticleSystem (fun v => v) source target color speed count size
    random w
  = createParticleSystem source target color speed count size random w /\
  Stored.updateParticles (fun v => v) p source target
  = updateParticles p source target.
Proof.
  split.
  - unfold Stored.createParticleSystem, createParticleSystem.
    destruct (linkResourceManager w); [|reflexivity].
    destruct source as [[sx sy] sz], target as [[tx ty] tz].
    now rewrite stored_identity_initParticles.
  - unfold Stored.updateParticles, updateParticles.
    destruct (__metadata p); [|reflexivity].
    destruct source as [[sx sy] sz], target as [[tx ty] tz].
    now rewrite stored_identity_advanceParticles.
Qed.

End OffsetClaims.

(** ** Claims on the performance monitor *)

(** C8 (FPS tiers).  [getRecommendedQualityLevel] maps the last FPS value
    by half-open intervals: below 15 to low, from 15 and below 30 to
    medium, from 30 on to high; 10, 25 and 60 give low, medium and high,
    and the boundaries 15 and 30 give medium and high. *)
Theorem quality_level_thresholds :
  (forall m : PerformanceMonitor.t,
     PerformanceMonitor.getFPS m < 15 ->
     PerformanceMonitor.getRecommendedQualityLevel m = low) /\
  (forall m : PerformanceMonitor.t,
     15 <= PerformanceMonitor.getFPS m < 30 ->
     PerformanceMonitor.getRecommendedQualityLevel m = medium) /\
  (forall m : PerformanceMonitor.t,
     30 <= PerformanceMonitor.getFPS m ->
     PerformanceMonitor.getRecommendedQualityLevel m = high) /\
  PerformanceMonitor.getRecommendedQualityLevel (Scenario.monitor 10) = low /\
  PerformanceMonitor.getRecommendedQualityLevel (Scenario.monitor 25) = medium /\
  PerformanceMonitor.getRecommendedQualityLevel (Scenario.monitor 60) = high /\
  PerformanceMonitor.getRecommendedQualityLevel (Scenario.monitor 15) = medium /\
  PerformanceMonitor.getRecommendedQualityLevel (Scenario.monitor 30) = high.
Proof.
  assert (Hlow : forall m, PerformanceMonitor.getFPS m < 15 ->
                           PerformanceMonitor.getRecommendedQualityLevel m = low).
  { intros m Hm. unfold PerformanceMonitor.getRecommendedQualityLevel.
    real_cases. }
  assert (Hmedium : forall m, 15 <= PerformanceMonitor.getFPS m < 30 ->
                              PerformanceMonitor.getRecommendedQualityLevel m = medium).
  { intros m [Hge Hlt]. unfold PerformanceMonitor.getRecommendedQualityLevel.
    real_cases. }
  assert (Hhigh : forall m, 30 <= PerformanceMonitor.getFPS m ->
                            PerformanceMonitor.getRecommendedQualityLevel m = high).
  { intros m Hge. unfold PerformanceMonitor.getRecommendedQualityLevel.
    real_cases. }
  repeat split; try assumption.
  - apply Hlow. simpl. lra.
  - apply Hmedium. simpl. lra.
  - apply Hhigh. simpl. lra.
  - apply Hmedium. simpl. lra.
  - apply Hhigh. simpl. lra.
Qed.

Lemma quality_level_thresholds_witness :
  PerformanceMonitor.getRecommendedQualityLevel (Scenario.monitor 14) = low /\
  PerformanceMonitor.getRecommendedQualityLevel (Scenario.monitor 29) = medium /\
  PerformanceMonitor.getRecommendedQualityLevel (Scenario.monitor 31) = high.
Proof.
  destruct quality_level_thresholds as (Hlow & Hmedium & Hhigh & _).
  split; [|split].
  - apply Hlow. simpl. lra.
  - apply Hmedium. simpl. lra.
  - apply Hhigh. simpl. lra.
Defined.

(** ** Claims on the setup of the orbital physics *)

(** C9 (setup).  [setupOrbitalPhysics] throws, to its caller, exactly when
    it has no usable simulation handle: the force graph is absent, or its
    [d3Force()] gives no simulation.  Otherwise it returns the new force,
    with the strength asked for (1 by default), installed in the registry
    of the simulation under the name [orbital], with the tick listener
    registered. *)
Theorem setupOrbitalPhysics_contract (forceGraph : option ForceGraph.t)
    (orbitalStrength : option R) :
  ((exists e, ForceGraph.setupOrbitalPhysics forceGraph orbitalStrength = inl e)
   <-> (forceGraph = None \/
        exists fg, forceGraph = Some fg /\ ForceGraph.d3Force fg = None)) /\
  (forall (orbital : OrbitalForce.t) (fg' : ForceGraph.t),
     ForceGraph.setupOrbitalPhysics forceGraph orbitalStrength
     = inr (orbital, fg') ->
     orbital = OrbitalForce.set_strength (default 1 orbitalStrength)
                                         OrbitalForce.orbitalForce /\
     exists simulation,
       ForceGraph.d3Force fg' = Some simulation /\
       ForceGraph.forces simulation !! "orbital"%string
       = Some (ForceGraph.Orbital orbital) /\
       ForceGraph.listeners simulation !! "tick"%string
       = Some ForceGraph.RebindOrbital).
Proof.
  unfold ForceGraph.setupOrbitalPhysics.
  destruct forceGraph as [fg|]; [destruct (ForceGraph.d3Force fg) as [simulation|] eqn:Hsim|].
  - split.
    + split.
      * intros [e He]. discriminate.
      * intros [Hnone|(fg0 & Hfg & Hd3)]; [discriminate|].
        injection Hfg as <-. congruence.
    + intros orbital fg' Heq. injection Heq as <- <-.
      split; [reflexivity|]. eexists. split; [reflexivity|]. simpl.
      split; apply lookup_insert_eq.
  - split.
    + split; [|intros _; eexists; reflexivity].
      intros _. right. now exists fg.
    + intros orbital fg' Heq. discriminate.
  - split.
    + split; [|intros _; eexists; reflexivity].
      intros _. now left.
    + intros orbital fg' Heq. discriminate.
Qed.

Lemma setupOrbitalPhysics_contract_witness :
  exists fg' simulation,
    ForceGraph.setupOrbitalPhysics (Some Scenario.forceGraph) (Some 1)
    = inr (OrbitalForce.set_strength 1 OrbitalForce.orbitalForce, fg') /\
    ForceGraph.d3Force fg' = Some simulation /\
    ForceGraph.forces simulation !! "orbital"%string
    = Some (ForceGraph.Orbital
              (OrbitalForce.set_strength 1 OrbitalForce.orbitalForce)).
Proof.
  destruct (ForceGraph.setupOrbitalPhysics (Some Scenario.forceGraph) (Some 1))
    as [e|[orbital fg']] eqn:Hsetup; [discriminate|].
  destruct (setupOrbitalPhysics_contract (Some Scenario.forceGraph) (Some 1))
    as [_ Hok].
  destruct (Hok orbital fg' Hsetup) as (Horbital & simulation & Hsim & Hforce & _).
  simpl in Horbital. exists fg', simulation. rewrite <- Horbital.
  repeat split; assumption.
Defined.

(** After the setup, a tick gives the installed force the nodes of the
    simulation and the links of the graph. *)
Lemma onTick_rebinds (fg fg' : ForceGraph.t) (simulation : ForceGraph.Simulation)
    (ls : list Link.t) (orbitalStrength : option R) (orbital : OrbitalForce.t) :
  ForceGraph.d3Force fg = Some simulation ->
  ForceGraph.links fg = Some ls ->
  ForceGraph.setupOrbitalPhysics (Some fg) orbitalStrength = inr (orbital, fg') ->
  exists simulation',
    ForceGraph.d3Force (ForceGraph.onTick fg') = Some simulation' /\
    ForceGraph.forces simulation' !! "orbital"%string
    = Some (ForceGraph.Orbital
              (OrbitalForce.initialize (ForceGraph.nodes simulation) (Some ls)
                                       orbital)).
Proof.
  intros Hsim Hlinks. unfold ForceGraph.setupOrbitalPhysics. rewrite Hsim.
  intros Heq. injection Heq as <- <-.
  unfold ForceGraph.onTick. simpl. rewrite Hlinks.
  rewrite lookup_insert_eq. eexists. split; [reflexivity|]. simpl.
  apply lookup_insert_eq.
Qed.

(** ** Claims on the shared resources *)

(** The segment numbers of the node spheres, by tier. *)
Lemma getResolution_values :
  (forall base, NodeObjects.getResolution high base = base) /\
  NodeObjects.getResolution medium 32 = 22%Z /\
  NodeObjects.getResolution medium 24 = 16%Z /\
  NodeObjects.getResolution medium 16 = 11%Z /\
  NodeObjects.getResolution low 32 = 16%Z /\
  NodeObjects.getResolution low 24 = 12%Z /\
  NodeObjects.getResolution low 16 = 8%Z.
Proof.
  unfold NodeObjects.getResolution. split; [reflexivity|].
  rewrite (Math_floor_bounds (32 * 0.7) 22) by lra.
  rewrite (Math_floor_bounds (24 * 0.7) 16) by lra.
  rewrite (Math_floor_bounds (16 * 0.7) 11) by lra.
  rewrite (Math_floor_bounds (32 * 0.5) 16) by lra.
  rewrite (Math_floor_bounds (24 * 0.5) 12) by lra.
  rewrite (Math_floor_bounds (16 * 0.5) 8) by lra.
  repeat split.
Qed.


(** C10 (idempotent initialization).  Once [initNodeResources]
    (respectively [initLinkResources]) has run, every later call, whatever
    tier it asks for, returns the same manager and leaves the whole state,
    the geometries, textures and parameters of the manager included, as it
    was; this lasts until [disposeNodeResources] (respectively
    [disposeLinkResources]) resets the module variable, after which an
    initialization builds a manager for the tier then asked for. *)
Theorem resources_init_idempotent :
  (forall (d : Detail) (w : World) (m : ref),
     resourceManager w = Some m -> NodeObjects.initNodeResources d w = (m, w)) /\
  (forall (d : Detail) (w : World) (m : ref),
     linkResourceManager w = Some m -> LinkObjects.initLinkResources d w = (m, w)) /\
  (forall (d1 d2 : Detail) (w : World),
     NodeObjects.initNodeResources d2 (snd (NodeObjects.initNodeResources d1 w))
     = NodeObjects.initNodeResources d1 w) /\
  (forall (d1 d2 : Detail) (w : World),
     LinkObjects.initLinkResources d2 (snd (LinkObjects.initLinkResources d1 w))
     = LinkObjects.initLinkResources d1 w) /\
  (forall w : World, resourceManager (NodeObjects.disposeNodeResources w) = None) /\
  (forall w : World, linkResourceManager (LinkObjects.disposeLinkResources w) = None) /\
  (forall (d : Detail) (w : World),
     let w' := snd (LinkObjects.initLinkResources d (LinkObjects.disposeLinkResources w)) in
     let m := fst (LinkObjects.initLinkResources d (LinkObjects.disposeLinkResources w)) in
     ResourceManager.getParameter "maxParticles" (managers w' m)
     = Some (LinkObjects.maxParticlesOf d)).
Proof.
  assert (Hnode : forall d w m, resourceManager w = Some m ->
                                NodeObjects.initNodeResources d w = (m, w)).
  { intros d w m Hm. unfold NodeObjects.initNodeResources. now rewrite Hm. }
  assert (Hlink : forall d w m, linkResourceManager w = Some m ->
                                LinkObjects.initLinkResources d w = (m, w)).
  { intros d w m Hm. unfold LinkObjects.initLinkResources. now rewrite Hm. }
  assert (Hnodispose : forall w, resourceManager (NodeObjects.disposeNodeResources w) = None).
  { intros w. unfold NodeObjects.disposeNodeResources.
    destruct (resourceManager w) eqn:Hm; [reflexivity|exact Hm]. }
  assert (Hlidispose : forall w, linkResourceManager (LinkObjects.disposeLinkResources w) = None).
  { intros w. unfold LinkObjects.disposeLinkResources.
    destruct (linkResourceManager w) eqn:Hm; [reflexivity|exact Hm]. }
  repeat split; try assumption.
  - intros d1 d2 w. destruct (resourceManager w) as [m|] eqn:Hm.
    + rewrite (Hnode d1 w m Hm). simpl. now apply Hnode.
    + unfold NodeObjects.initNodeResources at 2 3. rewrite Hm. simpl.
      now apply Hnode.
  - intros d1 d2 w. destruct (linkResourceManager w) as [m|] eqn:Hm.
    + rewrite (Hlink d1 w m Hm). simpl. now apply Hlink.
    + unfold LinkObjects.initLinkResources at 2 3. rewrite Hm. simpl.
      now apply Hlink.
  - intros d w.
    now destruct (initLinkResources_fresh d _ (Hlidispose w)) as (_ & _ & _ & _ & Hparam).
Qed.

Lemma resources_init_idempotent_witness :
  LinkObjects.initLinkResources high
    (snd (LinkObjects.initLinkResources low Scenario.world))
  = (0%nat, snd (LinkObjects.initLinkResources low Scenario.world)) /\
  NodeObjects.initNodeResources low
    (snd (NodeObjects.initNodeResources high Scenario.world))
  = (0%nat, snd (NodeObjects.initNodeResources high Scenario.world)).
Proof.
  destruct resources_init_idempotent as (Hnode & Hlink & _).
  split; [apply Hlink|apply Hnode]; reflexivity.
Defined.

(** * Further properties of the code *)

(** ** The orbital force: what it reads and what it writes *)

Section OrbitalFrame.
Import OrbitalForce.
Variable f : OrbitalForce.t.

Lemma geomEq_trans (h1 h2 h3 : Heap Token.t) :
  geomEq h1 h2 -> geomEq h2 h3 -> geomEq h1 h3.
Proof.
  intros H12 H23 r. destruct (H12 r) as (?&?&?&?&?&?).
  destruct (H23 r) as (?&?&?&?&?&?). repeat split; congruence.
Qed.

Lemma geomEq_sym (h1 h2 : Heap Token.t) : geomEq h1 h2 -> geomEq h2 h1.
Proof.
  intros H12 r. destruct (H12 r) as (?&?&?&?&?&?). repeat split; congruence.
Qed.

Lemma forEachNode_geom (alpha : R) (clock : nat -> R) (l : list ref) :
  forall (i : nat) (h : Heap Token.t),
    geomEq h (forEachNode f alpha clock i l h).
Proof.
  induction l as [|r rest IH]; intros i h; simpl; [apply geomEq_refl|].
  eapply geomEq_trans; [apply forceNode_geom|apply IH].
Qed.

Lemma force_geom (alpha : R) (clock : nat -> R) (h : Heap Token.t) :
  geomEq h (force f alpha clock h).
Proof.
  unfold force. destruct (Rle_dec (strength f) 0); [apply geomEq_refl|].
  apply forEachNode_geom.
Qed.

(** A node for which no link passes the filter keeps its state through the
    loop, whatever happens to the other nodes. *)
Lemma forEachNode_no_parent (alpha : R) (clock : nat -> R) (h : Heap Token.t)
    (r : ref) (l : list ref) :
  List.filter (isParentLink h (h r)) (links f) = [] ->
  forall (i : nat) (h' : Heap Token.t),
    geomEq h h' -> h' r = h r ->
    forEachNode f alpha clock i l h' r = h r.
Proof.
  intros Hnone. induction l as [|r0 rest IH]; intros i h' Hg Hr; simpl;
    [exact Hr|].
  apply IH.
  - eapply geomEq_trans; [exact Hg|apply forceNode_geom].
  - destruct (Nat.eq_dec r r0) as [<-|Hne]; [|now rewrite forceNode_other].
    unfold forceNode.
    rewrite <- (orbitTarget_geom f (clock i) h h' r Hg).
    unfold orbitTarget. rewrite Hnone.
    now destruct (Token.kind_eqb (Token.type (h r)) Token.root).
Qed.

End OrbitalFrame.

Section OrbitalExtras.
Import OrbitalForce.

(** X1.  An invocation of the force changes velocities only: the id, the
    kind, the size and the position of every node are as before; and a
    node that is not in the bound array is not changed at all. *)
Theorem force_writes_velocities_only (f : OrbitalForce.t) (alpha : R)
    (clock : nat -> R) (h : Heap Token.t) (r : ref) :
  (Token.id (force f alpha clock h r) = Token.id (h r) /\
   Token.type (force f alpha clock h r) = Token.type (h r) /\
   Token.size (force f alpha clock h r) = Token.size (h r) /\
   Geometry.position (force f alpha clock h r) = Geometry.position (h r)) /\
  (~ In r (nodes f) -> force f alpha clock h r = h r).
Proof.
  split.
  - destruct (force_geom f alpha clock h r) as (Hid & Hty & Hsz & Hx & Hy & Hz).
    unfold Geometry.position. rewrite <- Hid, <- Hty, <- Hsz, <- Hx, <- Hy, <- Hz.
    repeat split.
  - intros Hnotin. unfold force.
    destruct (Rle_dec (strength f) 0); [reflexivity|].
    now apply forEachNode_notin.
Qed.

Lemma force_writes_velocities_only_witness :
  force (Scenario.orbital 1) 1 Scenario.clock Scenario.heap 7%nat
  = Scenario.heap 7%nat.
Proof.
  apply (force_writes_velocities_only (Scenario.orbital 1) 1 Scenario.clock
           Scenario.heap 7%nat).
  simpl. intros [H|[H|[]]]; discriminate.
Defined.

Lemma isParentLink_unresolved (h : Heap Token.t) (node : Token.t)
    (link : Link.t) :
  Geometry.resolved link = false -> isParentLink h node link = false.
Proof.
  unfold Geometry.resolved, isParentLink.
  destruct (Link.source link), (Link.target link); auto; discriminate.
Qed.

Lemma filter_unresolved (h : Heap Token.t) (node : Token.t)
    (ls : list Link.t) :
  Forall (fun link => Geometry.resolved link = false) ls ->
  List.filter (isParentLink h node) ls = [].
Proof.
  induction 1 as [|link rest Hlink _ IH]; [reflexivity|]. simpl.
  now rewrite (isParentLink_unresolved h node link Hlink).
Qed.

(** X2.  A node that no link joins to a parent ends the tick as it was; a
    link joins a node to a parent when both its ends are resolved to
    objects, one end has the id of the node and the other end is a branch
    or a root, whichever of the two is the source.  In particular, while
    every link still has a string id for an endpoint, or no links were
    bound, the force changes no node. *)
Theorem force_needs_parent_link (f : OrbitalForce.t) (alpha : R)
    (clock : nat -> R) (h : Heap Token.t) :
  (forall r : ref,
     List.filter (isParentLink h (h r)) (links f) = [] ->
     force f alpha clock h r = h r) /\
  (Forall (fun link => Geometry.resolved link = false) (links f) ->
   forall r : ref, force f alpha clock h r = h r).
Proof.
  assert (Hnode : forall r, List.filter (isParentLink h (h r)) (links f) = [] ->
                            force f alpha clock h r = h r).
  { intros r Hnone. unfold force.
    destruct (Rle_dec (strength f) 0); [reflexivity|].
    apply (forEachNode_no_parent f alpha clock h r (nodes f) Hnone);
      [apply geomEq_refl|reflexivity]. }
  split; [exact Hnode|].
  intros Hunresolved r. apply Hnode. now apply filter_unresolved.
Qed.

Lemma force_needs_parent_link_witness :
  force (initialize [0%nat; 1%nat]
           (Some [Link.mk (Link.Id "leaf-1") (Link.Id "root-1") 1 None])
           orbitalForce)
        1 Scenario.clock Scenario.heap 0%nat
  = Scenario.heap 0%nat.
Proof.
  apply (force_needs_parent_link
           (initialize [0%nat; 1%nat]
              (Some [Link.mk (Link.Id "leaf-1") (Link.Id "root-1") 1 None])
              orbitalForce)
           1 Scenario.clock Scenario.heap).
  simpl. constructor; [reflexivity|constructor].
Defined.

Lemma orbit_sum_squares (a q radius : R) :
  cos a * radius * (cos a * radius)
  + sin a * radius * cos q * (sin a * radius * cos q)
  + sin a * radius * sin q * (sin a * radius * sin q)
  = radius * radius.
Proof.
  pose proof (sin2_cos2 a) as Ha. pose proof (sin2_cos2 q) as Hq.
  unfold Rsqr in Ha, Hq.
  transitivity (radius * radius
                * (cos a * cos a
                   + sin a * sin a * (sin q * sin q + cos q * cos q)));
    [ring|].
  rewrite Hq, Rmult_1_r, (Rplus_comm (cos a * cos a)), Ha. ring.
Qed.

(** X3.  The target computed for a node lies on the sphere around the
    current position of its parent whose radius is the orbit radius: the
    parent is the other end of the first link that passes the filter (the
    target of the link when its source has the id of the node, its source
    otherwise), and the distance from the parent to the target is the
    absolute value of [calculateOrbitRadius], the radius itself for sizes
    that are not negative. *)
Theorem orbit_target_on_sphere (f : OrbitalForce.t) (now : R)
    (h : Heap Token.t) (r : ref) (tgt : R * R * R) :
  orbitTarget f now h r = Some tgt ->
  exists (parentLink : Link.t) (rest : list Link.t) (p : ref),
    List.filter (isParentLink h (h r)) (links f) = parentLink :: rest /\
    parentOf h (h r) parentLink = Link.Obj p /\
    magnitude (Geometry.minus3 tgt (Geometry.position (h p)))
    = Rabs (calculateOrbitRadius (h p) (h r) (Link.value parentLink)) /\
    (0 <= Token.size (h p) -> 0 <= Token.size (h r) ->
     magnitude (Geometry.minus3 tgt (Geometry.position (h p)))
     = calculateOrbitRadius (h p) (h r) (Link.value parentLink)).
Proof.
  unfold orbitTarget.
  destruct (Token.kind_eqb (Token.type (h r)) Token.root); [discriminate|].
  destruct (List.filter _ (links f)) as [|parentLink rest] eqn:Hfilter;
    [discriminate|].
  destruct (parentOf h (h r) parentLink) as [?|p] eqn:Hparent; [discriminate|].
  intros Heq. injection Heq as <-.
  exists parentLink, rest, p. split; [reflexivity|]. split; [exact Hparent|].
  set (radius := calculateOrbitRadius (h p) (h r) (Link.value parentLink)).
  assert (Hmag : forall a q,
    magnitude (Geometry.minus3
                 (Token.x (h p) + cos a * radius,
                  Token.y (h p) + sin a * radius * cos q,
                  Token.z (h p) + sin a * radius * sin q)
                 (Geometry.position (h p))) = Rabs radius).
  { intros a q. unfold magnitude, Geometry.minus3, Geometry.position.
    replace (Token.x (h p) + cos a * radius - Token.x (h p))
      with (cos a * radius) by ring.
    replace (Token.y (h p) + sin a * radius * cos q - Token.y (h p))
      with (sin a * radius * cos q) by ring.
    replace (Token.z (h p) + sin a * radius * sin q - Token.z (h p))
      with (sin a * radius * sin q) by ring.
    rewrite orbit_sum_squares. apply sqrt_Rsqr_abs. }
  split; [apply Hmag|].
  intros Hp Hr. rewrite Hmag. apply Rabs_pos_eq.
  destruct (Rle_dec (Link.value parentLink) 1) as [Hle|Hgt].
  - destruct (valueAdjustment_cases (h p) (h r) (Link.value parentLink))
      as [Hlow _]. unfold radius. rewrite Hlow by exact Hle. lra.
  - destruct (valueAdjustment_cases (h p) (h r) (Link.value parentLink))
      as [_ Hhigh]. unfold radius. rewrite Hhigh by lra.
    assert (0 < 30 / Link.value parentLink)
      by (apply Rdiv_lt_0_compat; lra).
    lra.
Qed.

Lemma orbit_target_on_sphere_witness :
  exists (parentLink : Link.t) (rest : list Link.t) (p : ref),
    List.filter (isParentLink Scenario.heap (Scenario.heap 0%nat))
                (links (Scenario.orbital 1)) = parentLink :: rest /\
    parentOf Scenario.heap (Scenario.heap 0%nat) parentLink = Link.Obj p /\
    magnitude (Geometry.minus3 (52, 0, 0) (Geometry.position (Scenario.heap p)))
    = Rabs (calculateOrbitRadius (Scenario.heap p) (Scenario.heap 0%nat)
                                 (Link.value parentLink)).
Proof.
  destruct (orbit_target_on_sphere (Scenario.orbital 1) 0 Scenario.heap 0%nat
              (52, 0, 0) (scenario_target 0))
    as (parentLink & rest & p & Hfilter & Hparent & Hmag & _).
  now exists parentLink, rest, p.
Defined.

(** X4.  The orbit radius exceeds [parent.size + node.size + 10] and is at
    most [parent.size + node.size + 40], whatever the link value; it is
    the upper bound exactly for values up to 1.  For sizes that are not
    negative an orbit is therefore never tighter than 10. *)
Theorem orbit_radius_bounds (parent node : Token.t) (v : R) :
  Token.size parent + Token.size node + 10
  < calculateOrbitRadius parent node v
  <= Token.size parent + Token.size node + 40 /\
  (calculateOrbitRadius parent node v
   = Token.size parent + Token.size node + 40 <-> v <= 1) /\
  (0 <= Token.size parent -> 0 <= Token.size node ->
   10 < calculateOrbitRadius parent node v).
Proof.
  destruct (valueAdjustment_cases parent node v) as [Hlow Hhigh].
  destruct (Rle_dec v 1) as [Hle|Hgt].
  - rewrite (Hlow Hle). split; [lra|]. split; [|lra]. split; [auto|lra].
  - assert (H1 : 1 <= v) by lra. rewrite (Hhigh H1).
    assert (Hpos : 0 < 30 / v) by (apply Rdiv_lt_0_compat; lra).
    assert (Hlt : 30 / v < 30).
    { apply (Rmult_lt_reg_r v); [lra|].
      unfold Rdiv. rewrite Rmult_assoc, Rinv_l by lra. lra. }
    split; [lra|]. split; [|lra]. split; [lra|contradiction].
Qed.

Lemma orbit_radius_bounds_witness :
  10 < calculateOrbitRadius Scenario.rootToken (Scenario.leafToken 0) 5.
Proof.
  destruct (orbit_radius_bounds Scenario.rootToken (Scenario.leafToken 0) 5)
    as (_ & _ & Hfloor).
  apply Hfloor; simpl; lra.
Defined.

(** X5.  The velocity that a tick adds to a node points from the node to
    its target: it is the displacement to the target scaled by
    [min(d, 2) * alpha * strength / d], a factor that is not negative for
    [alpha >= 0]; within distance 2 the factor is [alpha * strength]. *)
Theorem force_pulls_toward_target (f : OrbitalForce.t) (alpha : R)
    (clock : nat -> R) (h : Heap Token.t) (k : nat) (r : ref)
    (tgt : R * R * R) :
  0 < strength f ->
  List.NoDup (nodes f) -> nth_error (nodes f) k = Some r ->
  orbitTarget f (clock k) h r = Some tgt ->
  distanceTo h r tgt <> 0 ->
  let displacement := Geometry.minus3 tgt (Geometry.position (h r)) in
  let factor := Rmin (distanceTo h r tgt) 2 * alpha * strength f
                / distanceTo h r tgt in
  velocityDelta h (force f alpha clock h) r
  = Geometry.scale3 factor displacement /\
  (0 <= alpha -> 0 <= factor) /\
  (distanceTo h r tgt <= 2 ->
   velocityDelta h (force f alpha clock h) r
   = Geometry.scale3 (alpha * strength f) displacement).
Proof.
  intros Hs Hnd Hk Htgt Hd displacement factor.
  destruct tgt as [[tx ty] tz].
  rewrite (force_delta f alpha clock h k r tx ty tz Hs Hnd Hk Htgt Hd).
  set (d := distanceTo h r (tx, ty, tz)) in *.
  assert (Hpos : 0 < d).
  { assert (0 <= d) by (unfold d, distanceTo; apply sqrt_pos). lra. }
  unfold displacement, factor, Geometry.scale3, Geometry.minus3,
    Geometry.position.
  split; [|split].
  - f_equal; [f_equal|]; field; lra.
  - intros Ha. apply Rmult_le_pos; [|left; now apply Rinv_0_lt_compat].
    apply Rmult_le_pos; [|lra]. apply Rmult_le_pos; [|exact Ha].
    unfold Rmin. destruct (Rle_dec d 2); lra.
  - intros Hnear. unfold Rmin. destruct (Rle_dec d 2); [|lra].
    f_equal; [f_equal|]; field; lra.
Qed.

Lemma force_pulls_toward_target_witness :
  velocityDelta Scenario.heap
    (force (Scenario.orbital 1) 1 Scenario.clock Scenario.heap) 0%nat
  = Geometry.scale3
      (Rmin (distanceTo Scenario.heap 0%nat (52, 0, 0)) 2 * 1
       * strength (Scenario.orbital 1)
       / distanceTo Scenario.heap 0%nat (52, 0, 0))
      (Geometry.minus3 (52, 0, 0) (Geometry.position (Scenario.heap 0%nat))).
Proof.
  assert (Hs : 0 < strength (Scenario.orbital 1)) by (simpl; lra).
  assert (Hd : distanceTo Scenario.heap 0%nat (52, 0, 0) <> 0)
    by (rewrite scenario_distance; lra).
  exact (proj1 (force_pulls_toward_target (Scenario.orbital 1) 1 Scenario.clock
                  Scenario.heap 0 0%nat (52, 0, 0) Hs scenario_nodup eq_refl
                  (scenario_target 0) Hd)).
Defined.

(** What one iteration adds to its node depends on the geometry only. *)
Lemma forceNode_delta_geom (f : OrbitalForce.t) (alpha now : R)
    (h h' : Heap Token.t) (r : ref) :
  geomEq h h' ->
  velocityDelta h (forceNode f alpha now h r) r
  = velocityDelta h' (forceNode f alpha now h' r) r.
Proof.
  intros Hg. unfold velocityDelta, forceNode.
  rewrite <- (orbitTarget_geom f now h h' r Hg).
  destruct (Hg r) as (_ & _ & _ & Hx & Hy & Hz).
  destruct (orbitTarget f now h r) as [[[tx ty] tz]|].
  - rewrite <- Hx, <- Hy, <- Hz.
    destruct (Req_dec_T _ 0).
    + f_equal; [f_equal|]; ring.
    + rewrite !write_eq. unfold addVelocity. simpl.
      f_equal; [f_equal|]; ring.
  - f_equal; [f_equal|]; ring.
Qed.

(** X6.  With each node once in the bound array, the velocity that a tick
    adds to a node does not depend on any velocity: two heaps that agree on
    ids, kinds, sizes and positions get the same delta.  So two ticks in a
    row at the same clock readings, with the positions left alone, add
    twice the delta of one. *)
Theorem force_delta_ignores_velocities (f : OrbitalForce.t) (alpha : R)
    (clock : nat -> R) (h h' : Heap Token.t) (r : ref) :
  List.NoDup (nodes f) ->
  (geomEq h h' ->
   velocityDelta h (force f alpha clock h) r
   = velocityDelta h' (force f alpha clock h') r) /\
  velocityDelta h (force f alpha clock (force f alpha clock h)) r
  = Geometry.scale3 2 (velocityDelta h (force f alpha clock h) r).
Proof.
  intros Hnd.
  assert (Hsame : forall h1 h2, geomEq h1 h2 ->
            velocityDelta h1 (force f alpha clock h1) r
            = velocityDelta h2 (force f alpha clock h2) r).
  { intros h1 h2 Hg. unfold force.
    destruct (Rle_dec (strength f) 0).
    - unfold velocityDelta. f_equal; [f_equal|]; ring.
    - destruct (in_dec Nat.eq_dec r (nodes f)) as [Hin|Hnotin].
      + destruct (In_nth_error _ _ Hin) as [k Hk].
        unfold velocityDelta.
        rewrite (forEachNode_at f alpha clock (nodes f) 0 k h1 r Hnd Hk).
        rewrite (forEachNode_at f alpha clock (nodes f) 0 k h2 r Hnd Hk).
        exact (forceNode_delta_geom f alpha (clock (0 + k)%nat) h1 h2 r Hg).
      + unfold velocityDelta. rewrite !forEachNode_notin by exact Hnotin.
        f_equal; [f_equal|]; ring. }
  split; [apply Hsame|].
  pose proof (Hsame h (force f alpha clock h) (force_geom f alpha clock h))
    as Hsecond.
  unfold velocityDelta, Geometry.scale3 in *.
  injection Hsecond as Hx Hy Hz.
  f_equal; [f_equal|]; lra.
Qed.

Lemma force_delta_ignores_velocities_witness :
  velocityDelta Scenario.heap
    (force (Scenario.orbital 1) 1 Scenario.clock
       (force (Scenario.orbital 1) 1 Scenario.clock Scenario.heap)) 0%nat
  = Geometry.scale3 2
      (velocityDelta Scenario.heap
         (force (Scenario.orbital 1) 1 Scenario.clock Scenario.heap) 0%nat).
Proof.
  exact (proj2 (force_delta_ignores_velocities (Scenario.orbital 1) 1
                  Scenario.clock Scenario.heap Scenario.heap 0%nat
                  scenario_nodup)).
Defined.



End OrbitalExtras.

(** ** The resource manager *)

Section ResourceManagerExtras.
Import ResourceManager.

(** X8.  A resource added under a name is the one that the getter of its
    kind returns for that name, a parameter set is the one read back; the
    entries under other names, and the maps of the other kinds, are as
    before. *)
Theorem resource_add_then_get (m : ResourceManager.t) (name other : string)
    (geometry : THREE.BufferGeometry) (material : THREE.Material)
    (texture : THREE.Texture) (v : Z) :
  (getGeometry name (addGeometry name geometry m) = inr geometry /\
   getMaterial name (addMaterial name material m) = inr material /\
   getTexture name (addTexture name texture m) = inr texture /\
   getParameter name (setParameter name v m) = Some v) /\
  (other <> name ->
   getGeometry other (addGeometry name geometry m) = getGeometry other m /\
   getMaterial other (addMaterial name material m) = getMaterial other m /\
   getTexture other (addTexture name texture m) = getTexture other m /\
   getParameter other (setParameter name v m) = getParameter other m) /\
  (materials (addGeometry name geometry m) = materials m /\
   textures (addGeometry name geometry m) = textures m /\
   parameters (addGeometry name geometry m) = parameters m /\
   geometries (addMaterial name material m) = geometries m /\
   textures (addMaterial name material m) = textures m /\
   parameters (addMaterial name material m) = parameters m /\
   geometries (addTexture name texture m) = geometries m /\
   materials (addTexture name texture m) = materials m /\
   parameters (addTexture name texture m) = parameters m /\
   geometries (setParameter name v m) = geometries m /\
   materials (setParameter name v m) = materials m /\
   textures (setParameter name v m) = textures m).
Proof.
  split; [|split].
  - unfold getGeometry, getMaterial, getTexture, getParameter. simpl.
    now rewrite !lookup_insert_eq.
  - intros Hne.
    unfold getGeometry, getMaterial, getTexture, getParameter. simpl.
    now rewrite !lookup_insert_ne by congruence.
  - repeat split.
Qed.

Lemma resource_add_then_get_witness :
  getTexture "glow" (addTexture "particle" (THREE.mkTexture None false) new)
  = getTexture "glow" new.
Proof.
  destruct (resource_add_then_get new "particle" "glow"
              (THREE.PositionGeometry [])
              (THREE.mkMaterial THREE.LineBasic true 1 (THREE.Hex 0) 1 None)
              (THREE.mkTexture None false) 0) as (_ & Hother & _).
  destruct Hother as (_ & _ & Htexture & _); [discriminate|exact Htexture].
Defined.

(** After [dispose()] the manager holds nothing: every getter throws
    its not-found error for every name, every parameter is undefined, the
    statistics are all zero; and disposing again changes nothing. *)
Lemma resource_dispose_empties (m : ResourceManager.t) (name : string) :
  getGeometry name (dispose m)
  = inl (mkError ("Geometry " ++ quoted name ++ " not found in ResourceManager")) /\
  getMaterial name (dispose m)
  = inl (mkError ("Material " ++ quoted name ++ " not found in ResourceManager")) /\
  getTexture name (dispose m)
  = inl (mkError ("Texture " ++ quoted name ++ " not found in ResourceManager")) /\
  getParameter name (dispose m) = None /\
  getStats (dispose m) = (0%nat, 0%nat, 0%nat) /\
  dispose (dispose m) = dispose m.
Proof.
  unfold getGeometry, getMaterial, getTexture, getParameter, getStats, dispose.
  simpl. rewrite !lookup_empty, !map_size_empty. repeat split.
Qed.

(** X9.  [getStats] counts names: adding a resource under a name that its
    kind does not hold yet raises the count of that kind by one, adding
    under a name already held replaces the entry and keeps the count; the
    counts of the other kinds do not move, and parameters are not
    counted. *)
Theorem resource_stats_count (m : ResourceManager.t) (name : string)
    (geometry : THREE.BufferGeometry) (material : THREE.Material)
    (texture : THREE.Texture) (v : Z) :
  (geometries m !! name = None ->
   getStats (addGeometry name geometry m)
   = (S (size (geometries m)), size (materials m), size (textures m))) /\
  (materials m !! name = None ->
   getStats (addMaterial name material m)
   = (size (geometries m), S (size (materials m)), size (textures m))) /\
  (textures m !! name = None ->
   getStats (addTexture name texture m)
   = (size (geometries m), size (materials m), S (size (textures m)))) /\
  (is_Some (geometries m !! name) ->
   getStats (addGeometry name geometry m) = getStats m) /\
  (is_Some (materials m !! name) ->
   getStats (addMaterial name material m) = getStats m) /\
  (is_Some (textures m !! name) ->
   getStats (addTexture name texture m) = getStats m) /\
  getStats (setParameter name v m) = getStats m.
Proof.
  unfold getStats, addGeometry, addMaterial, addTexture, setParameter. simpl.
  repeat split.
  - intros Hnone. now rewrite map_size_insert_None.
  - intros Hnone. now rewrite map_size_insert_None.
  - intros Hnone. now rewrite map_size_insert_None.
  - intros Hsome. now rewrite map_size_insert_Some.
  - intros Hsome. now rewrite map_size_insert_Some.
  - intros Hsome. now rewrite map_size_insert_Some.
Qed.

Lemma resource_stats_count_witness :
  getStats (addGeometry "leafNode" (THREE.SphereGeometry 1 16 16) new)
  = (1%nat, 0%nat, 0%nat) /\
  getStats (addGeometry "leafNode" (THREE.SphereGeometry 1 8 8)
              (addGeometry "leafNode" (THREE.SphereGeometry 1 16 16) new))
  = getStats (addGeometry "leafNode" (THREE.SphereGeometry 1 16 16) new).
Proof.
  split.
  - rewrite (proj1 (resource_stats_count new "leafNode"
                      (THREE.SphereGeometry 1 16 16)
                      (THREE.mkMaterial THREE.LineBasic true 1 (THREE.Hex 0) 1 None)
                      (THREE.mkTexture None false) 0)); reflexivity.
  - destruct (resource_stats_count
                (addGeometry "leafNode" (THREE.SphereGeometry 1 16 16) new)
                "leafNode" (THREE.SphereGeometry 1 8 8)
                (THREE.mkMaterial THREE.LineBasic true 1 (THREE.Hex 0) 1 None)
                (THREE.mkTexture None false) 0) as (_ & _ & _ & Hheld & _).
    apply Hheld. eexists. apply lookup_insert_eq.
Defined.

End ResourceManagerExtras.

(** ** The particle flow along a link *)

Section FlowExtras.
Import LinkObjects.












End FlowExtras.

(** ** Building link objects *)

Section LinkObjectExtras.
Import LinkObjects.





Lemma createLinkObject_uninitialized (link : Link.t) (showParticles : bool)
    (particleSpeed particleSize : R) (tokens : Heap Token.t)
    (random : nat -> R) (w : World) :
  linkResourceManager w = None ->
  createLinkObject link showParticles particleSpeed particleSize tokens
                   random w
  = createLinkObject link showParticles particleSpeed particleSize tokens
                     random (snd (initLinkResources medium w)).
Proof.
  intros Hnone.
  destruct (initLinkResources_fresh medium w Hnone) as (_ & Hm & _).
  unfold createLinkObject. rewrite Hnone. cbv zeta. now rewrite !Hm.
Qed.

(** X12.  A link object built before any [initLinkResources] builds the
    resources itself, for tier medium: the call succeeds, leaves the state
    that [initLinkResources('medium')] gives, and a particle system it
    makes has [min(ceil(value * 2), 25)] particles, so at most 25. *)
Theorem createLinkObject_lazy_init (link : Link.t) (showParticles : bool)
    (particleSpeed particleSize : R) (tokens : Heap Token.t)
    (random : nat -> R) (w : World) :
  linkResourceManager w = None ->
  exists group,
    createLinkObject link showParticles particleSpeed particleSize tokens
                     random w
    = (inr group, snd (initLinkResources medium w)) /\
    linkResourceManager (snd (initLinkResources medium w))
    = Some (allocated w) /\
    forall p, In p (particleSystemsOf group) ->
      exists metadata,
        __metadata p = Some metadata /\
        count metadata = Z.min (Math_ceil (Link.value link * 2)) 25 /\
        (1 <= count metadata <= 25)%Z.
Proof.
  intros Hnone.
  rewrite (createLinkObject_uninitialized _ _ _ _ _ _ _ Hnone).
  destruct (initLinkResources_fresh medium w Hnone)
    as (Hfresh & Hm & Htex & Hbase & Hparam).
  destruct (createLinkObject_initialized link showParticles particleSpeed
              particleSize tokens random _ _ _ _ _ Hm Hbase Htex Hparam)
    as (group & Hgroup & Hsome & Hnone'); [reflexivity|].
  exists group. split; [exact Hgroup|]. split; [now rewrite Hm, Hfresh|].
  intros p Hin.
  destruct showParticles, (Rlt_dec 0 (Link.value link)) as [Hpos|Hnpos];
    try (rewrite Hnone' in Hin by (intros [Hs Hv]; (discriminate || contradiction));
         destruct Hin).
  destruct (Hsome (conj eq_refl Hpos)) as (p' & metadata & Hp & Hmd & Hcount & _).
  rewrite Hp in Hin. destruct Hin as [<-|[]].
  exists metadata. split; [exact Hmd|]. split; [exact Hcount|].
  assert (Hceil : (1 <= Math_ceil (Link.value link * 2))%Z)
    by (apply Math_ceil_positive; lra).
  rewrite Hcount. simpl. lia.
Qed.

Lemma createLinkObject_lazy_init_witness :
  exists group,
    createLinkObject (Scenario.link 3) true 0.005 1.5 Scenario.heap
      Scenario.random Scenario.world
    = (inr group, snd (initLinkResources medium Scenario.world)).
Proof.
  destruct (createLinkObject_lazy_init (Scenario.link 3) true 0.005 1.5
              Scenario.heap Scenario.random Scenario.world eq_refl)
    as (group & Hgroup & _).
  now exists group.
Defined.

(** X13.  [createLinkObject] throws what the manager throws.  While the
    module variable holds a manager without the material [linkBase] (as
    after [dispose()] called on the manager itself), every call throws the
    not-found error of the material and leaves the state as it was.  With
    the material but without the texture [particle], a call that has
    particles to make throws the not-found error of the texture, and a call
    that has none (display off, or no positive value) succeeds. *)
Theorem createLinkObject_missing_resources (link : Link.t)
    (showParticles : bool) (particleSpeed particleSize : R)
    (tokens : Heap Token.t) (random : nat -> R) (w : World) (m : ref) :
  linkResourceManager w = Some m ->
  (ResourceManager.materials (managers w m) !! "linkBase"%string = None ->
   createLinkObject link showParticles particleSpeed particleSize tokens
                    random w
   = (inl (mkError ("Material " ++ quoted "linkBase"
                    ++ " not found in ResourceManager")), w)) /\
  (forall base,
     ResourceManager.materials (managers w m) !! "linkBase"%string = Some base ->
     ResourceManager.textures (managers w m) !! "particle"%string = None ->
     (showParticles = true -> 0 < Link.value link ->
      createLinkObject link showParticles particleSpeed particleSize tokens
                       random w
      = (inl (mkError ("Texture " ++ quoted "particle"
                       ++ " not found in ResourceManager")), w)) /\
     (showParticles = false \/ Link.value link <= 0 ->
      exists group,
        createLinkObject link showParticles particleSpeed particleSize tokens
                         random w = (inr group, w) /\
        particleSystemsOf group = [])).
Proof.
  intros Hm. split.
  - intros Hmissing. unfold createLinkObject. rewrite Hm. cbv zeta. rewrite Hm.
    destruct (positionOf tokens (anchorOf (Link.source link))) as [[sx sy] sz].
    destruct (positionOf tokens (anchorOf (Link.target link))) as [[tx ty] tz].
    unfold ResourceManager.getMaterial. now rewrite Hmissing.
  - intros base Hbase Hmissing. split.
    + intros -> Hpos. unfold createLinkObject. rewrite Hm. cbv zeta. rewrite Hm.
      destruct (positionOf tokens (anchorOf (Link.source link))) as [[sx sy] sz].
      destruct (positionOf tokens (anchorOf (Link.target link))) as [[tx ty] tz].
      unfold ResourceManager.getMaterial. rewrite Hbase. simpl.
      destruct (Rgt_dec (Link.value link) 0) as [_|Hn]; [|lra]. simpl.
      unfold createParticleSystem. rewrite Hm.
      unfold ResourceManager.getTexture. now rewrite Hmissing.
    + intros Hnothing. unfold createLinkObject. rewrite Hm. cbv zeta. rewrite Hm.
      destruct (positionOf tokens (anchorOf (Link.source link))) as [[sx sy] sz].
      destruct (positionOf tokens (anchorOf (Link.target link))) as [[tx ty] tz].
      unfold ResourceManager.getMaterial. rewrite Hbase. simpl.
      assert (Hoff : showParticles
                     && (if Rgt_dec (Link.value link) 0 then true else false)
                     = false).
      { destruct Hnothing as [->|Hle]; [reflexivity|].
        destruct (Rgt_dec (Link.value link) 0); [lra|]. apply andb_false_r. }
      rewrite Hoff. eexists. split; reflexivity.
Qed.

Lemma createLinkObject_missing_resources_witness :
  createLinkObject (Scenario.link 3) true 0.005 1.5 Scenario.heap
    Scenario.random
    (mkWorld (fun _ => ResourceManager.new) 1%nat None (Some 0%nat) false)
  = (inl (mkError ("Material " ++ quoted "linkBase"
                   ++ " not found in ResourceManager")),
     mkWorld (fun _ => ResourceManager.new) 1%nat None (Some 0%nat) false).
Proof.
  apply (proj1 (createLinkObject_missing_resources (Scenario.link 3) true 0.005
                  1.5 Scenario.heap Scenario.random
                  (mkWorld (fun _ => ResourceManager.new) 1%nat None
                           (Some 0%nat) false)
                  0%nat eq_refl)).
  apply lookup_empty.
Defined.

End LinkObjectExtras.

(** ** The shared managers of the two rendering modules *)

Section ManagerExtras.
Import LinkObjects NodeObjects.

(** X14.  [disposeLinkResources] empties the manager that the module holds
    and forgets it: a handle kept from an earlier [initLinkResources] then
    sees a manager without any resource, the other managers and the node
    module are untouched, a second dispose (or one with nothing
    initialized) does nothing; and the next [initLinkResources] builds
    another manager, leaving the disposed one empty. *)
Theorem disposeLinkResources_effects (w : World) :
  disposeLinkResources (disposeLinkResources w) = disposeLinkResources w /\
  (linkResourceManager w = None -> disposeLinkResources w = w) /\
  (forall m, linkResourceManager w = Some m ->
     managers (disposeLinkResources w) m = ResourceManager.new /\
     (forall m', m' <> m -> managers (disposeLinkResources w) m' = managers w m') /\
     resourceManager (disposeLinkResources w) = resourceManager w /\
     allocated (disposeLinkResources w) = allocated w) /\
  (Flow.wellAllocated w ->
   forall (m : ref) (d : Detail), linkResourceManager w = Some m ->
     fst (initLinkResources d (disposeLinkResources w)) <> m /\
     managers (snd (initLinkResources d (disposeLinkResources w))) m
     = ResourceManager.new).
Proof.
  assert (Hnone : linkResourceManager (disposeLinkResources w) = None).
  { unfold disposeLinkResources.
    destruct (linkResourceManager w) eqn:Hm; [reflexivity|exact Hm]. }
  split; [|split; [|split]].
  - unfold disposeLinkResources at 1. now rewrite Hnone.
  - intros Hm. unfold disposeLinkResources. now rewrite Hm.
  - intros m Hm. unfold disposeLinkResources. rewrite Hm. simpl.
    repeat split. + apply write_eq. + intros m' Hne. now apply write_ne.
  - intros (_ & Hlink & _) m d Hm.
    specialize (Hlink m Hm).
    unfold initLinkResources. rewrite Hnone. simpl.
    unfold disposeLinkResources. rewrite Hm. simpl.
    split; [lia|].
    rewrite write_ne by lia. apply write_eq.
Qed.

Lemma disposeLinkResources_effects_witness :
  fst (initLinkResources high
         (disposeLinkResources (snd (initLinkResources low Scenario.world))))
  <> 0%nat /\
  managers (snd (initLinkResources high
                   (disposeLinkResources
                      (snd (initLinkResources low Scenario.world))))) 0%nat
  = ResourceManager.new.
Proof.
  destruct (disposeLinkResources_effects
              (snd (initLinkResources low Scenario.world)))
    as (_ & _ & _ & Hnext).
  apply Hnext.
  - repeat split; simpl; intros m; try discriminate.
    intros Hm. injection Hm as <-. lia.
  - reflexivity.
Defined.

(** X15.  The node manager and the link manager are objects apart, and stay
    so through every initialization and dispose; initializing or disposing
    the resources of one module leaves the module variable of the other,
    and every resource of its manager, as they were. *)
Theorem managers_stay_apart (w : World) (d : Detail) :
  Flow.wellAllocated w ->
  (Flow.wellAllocated (snd (initNodeResources d w)) /\
   Flow.wellAllocated (snd (initLinkResources d w)) /\
   Flow.wellAllocated (disposeNodeResources w) /\
   Flow.wellAllocated (disposeLinkResources w)) /\
  (forall m, linkResourceManager w = Some m ->
     linkResourceManager (snd (initNodeResources d w)) = Some m /\
     managers (snd (initNodeResources d w)) m = managers w m /\
     linkResourceManager (disposeNodeResources w) = Some m /\
     managers (disposeNodeResources w) m = managers w m) /\
  (forall m, resourceManager w = Some m ->
     resourceManager (snd (initLinkResources d w)) = Some m /\
     managers (snd (initLinkResources d w)) m = managers w m /\
     resourceManager (disposeLinkResources w) = Some m /\
     managers (disposeLinkResources w) m = managers w m).
Proof.
  intros (Hnode & Hlink & Hapart).
  unfold initNodeResources, initLinkResources, disposeNodeResources,
    disposeLinkResources, Flow.wellAllocated.
  destruct (resourceManager w) as [mn|] eqn:Hmn;
    destruct (linkResourceManager w) as [ml|] eqn:Hml; simpl;
    rewrite ?Hmn, ?Hml;
    repeat match goal with
           | |- _ /\ _ => split
           | |- forall _, _ => intros
           | H : Some _ = Some _ |- _ => injection H as <-
           | H : None = Some _ |- _ => discriminate H
           | H : Some _ = None |- _ => discriminate H
           end;
    try reflexivity; try assumption; try discriminate;
    try (specialize (Hnode _ eq_refl)); try (specialize (Hlink _ eq_refl));
    try (specialize (Hapart _ _ eq_refl eq_refl));
    try lia;
    try (rewrite write_ne by (congruence || lia); reflexivity);
    try (apply Hnode; assumption); try (apply Hlink; assumption);
    try (apply Hapart; assumption); try congruence.
Qed.

Lemma managers_stay_apart_witness :
  Flow.wellAllocated
    (snd (initNodeResources high (snd (initLinkResources low Scenario.world)))).
Proof.
  assert (Hinit : Flow.wellAllocated Scenario.world)
    by (repeat split; simpl; intros; discriminate).
  apply (managers_stay_apart (snd (initLinkResources low Scenario.world)) high).
  apply (managers_stay_apart Scenario.world low Hinit).
Defined.

Lemma Math_floor_le (a b : R) : a <= b -> (Math_floor a <= Math_floor b)%Z.
Proof.
  intros Hab. unfold Math_floor.
  destruct (base_Int_part a) as [Ha _], (base_Int_part b) as [_ Hb].
  assert (Hlt : (Int_part a < Int_part b + 1)%Z).
  { apply lt_IZR. rewrite plus_IZR. lra. }
  lia.
Qed.

Lemma Math_floor_le_self (a : R) (n : Z) : a <= IZR n -> (Math_floor a <= n)%Z.
Proof.
  intros Ha. rewrite <- (Int_part_IZR n). now apply Math_floor_le.
Qed.

Lemma getResolution_facts (detail : Detail) (base base' : Z) :
  getResolution high base = base /\
  (8 <= getResolution medium base)%Z /\
  (6 <= getResolution low base)%Z /\
  (getResolution low base <= getResolution medium base)%Z /\
  ((8 <= base)%Z -> (getResolution medium base <= base)%Z) /\
  ((base <= base')%Z ->
   (getResolution detail base <= getResolution detail base')%Z).
Proof.
  unfold getResolution. split; [reflexivity|]. split; [lia|]. split; [lia|].
  split; [|split].
  - destruct (Z_le_gt_dec 0 base) as [Hpos|Hneg].
    + assert (Hfloor : (Math_floor (IZR base * 0.5) <= Math_floor (IZR base * 0.7))%Z).
      { apply Math_floor_le. apply IZR_le in Hpos. nra. }
      lia.
    + assert (Hfloor : (Math_floor (IZR base * 0.5) <= 0)%Z).
      { apply Math_floor_le_self.
        assert (IZR base < 0) by (apply IZR_lt; lia). simpl. nra. }
      lia.
  - intros Hbase.
    assert (Hfloor : (Math_floor (IZR base * 0.7) <= base)%Z).
    { apply Math_floor_le_self. apply IZR_le in Hbase. nra. }
    lia.
  - intros Hle. pose proof (IZR_le _ _ Hle) as HleR.
    destruct detail; [lia| |].
    + assert (Math_floor (IZR base * 0.7) <= Math_floor (IZR base' * 0.7))%Z
        by (apply Math_floor_le; nra).
      lia.
    + assert (Math_floor (IZR base * 0.5) <= Math_floor (IZR base' * 0.5))%Z
        by (apply Math_floor_le; nra).
      lia.
Qed.

(** X16.  The segment count that [getResolution] gives a sphere is the base
    count at tier high, at least 8 at medium and at least 6 at low; for
    every base the low count is at most the medium count, which is at most
    the base count once that is 8 or more; and at every tier a larger base
    never gives fewer segments. *)
Theorem getResolution_bounds (detail : Detail) (base base' : Z) :
  getResolution high base = base /\
  (8 <= getResolution medium base)%Z /\
  (6 <= getResolution low base)%Z /\
  (getResolution low base <= getResolution medium base)%Z /\
  ((8 <= base)%Z -> (getResolution medium base <= base)%Z) /\
  ((base <= base')%Z ->
   (getResolution detail base <= getResolution detail base')%Z).
Proof. exact (getResolution_facts detail base base'). Qed.

Lemma getResolution_bounds_witness :
  (getResolution medium 16 <= getResolution medium 32)%Z /\
  (getResolution medium 32 <= 32)%Z.
Proof.
  destruct (getResolution_bounds medium 16 32) as (_ & _ & _ & _ & _ & Hmono).
  destruct (getResolution_bounds medium 32 32) as (_ & _ & _ & _ & Hbase & _).
  split; [apply Hmono|apply Hbase]; lia.
Defined.

(** X17.  A first [initNodeResources(detail)] builds a manager that holds
    exactly three geometries and one texture: unit spheres under
    [rootNode], [branchNode] and [leafNode] with as many width as height
    segments, [getResolution] of 32, 24 and 16, so never more segments for
    a leaf than for a branch nor for a branch than for a root, and never
    fewer than 6 nor more than 32; and the glow texture under [glow]. *)
Theorem initNodeResources_contents (detail : Detail) (w : World) :
  resourceManager w = None ->
  let m := fst (initNodeResources detail w) in
  let w' := snd (initNodeResources detail w) in
  resourceManager w' = Some m /\
  ResourceManager.getGeometry "rootNode" (managers w' m)
  = inr (THREE.SphereGeometry 1 (getResolution detail 32) (getResolution detail 32)) /\
  ResourceManager.getGeometry "branchNode" (managers w' m)
  = inr (THREE.SphereGeometry 1 (getResolution detail 24) (getResolution detail 24)) /\
  ResourceManager.getGeometry "leafNode" (managers w' m)
  = inr (THREE.SphereGeometry 1 (getResolution detail 16) (getResolution detail 16)) /\
  ResourceManager.getTexture "glow" (managers w' m) = inr (createGlowTexture w) /\
  ResourceManager.getStats (managers w' m) = (3%nat, 0%nat, 1%nat) /\
  (6 <= getResolution detail 16 <= getResolution detail 24)%Z /\
  (getResolution detail 24 <= getResolution detail 32 <= 32)%Z.
Proof.
  intros Hnone m w'. subst m w'. unfold initNodeResources. rewrite Hnone. simpl.
  rewrite write_eq.
  unfold ResourceManager.getGeometry, ResourceManager.getTexture,
    ResourceManager.getStats. simpl.
  split; [reflexivity|]. split.
  { now rewrite lookup_insert_ne, lookup_insert_ne, lookup_insert_eq. }
  split. { now rewrite lookup_insert_ne, lookup_insert_eq. }
  split. { now rewrite lookup_insert_eq. }
  split. { now rewrite lookup_insert_eq. }
  split.
  { rewrite !map_size_insert_None, map_size_empty; try reflexivity;
      rewrite ?lookup_insert_ne by discriminate; apply lookup_empty. }
  pose proof (getResolution_facts detail 16 24) as (_ & _ & _ & _ & _ & H1624).
  pose proof (getResolution_facts detail 24 32) as (_ & _ & _ & _ & _ & H2432).
  pose proof (getResolution_facts detail 32 32) as (Hhigh & _ & _ & Hlm & Hmb & _).
  pose proof (getResolution_facts detail 16 16) as (Hhigh16 & Hm16 & Hl16 & _).
  assert (H6 : (6 <= getResolution detail 16)%Z).
  { destruct detail; [rewrite Hhigh16| |]; lia. }
  assert (H32 : (getResolution detail 32 <= 32)%Z).
  { destruct detail; [rewrite Hhigh| |]; lia. }
  lia.
Qed.

Lemma initNodeResources_contents_witness :
  ResourceManager.getStats
    (managers (snd (initNodeResources low Scenario.world))
              (fst (initNodeResources low Scenario.world)))
  = (3%nat, 0%nat, 1%nat).
Proof.
  destruct (initNodeResources_contents low Scenario.world eq_refl)
    as (_ & _ & _ & _ & _ & Hstats & _).
  exact Hstats.
Defined.

End ManagerExtras.

(** ** The sampling loop and the callbacks that call the monitor back *)

Section MonitoringExtras.
Import Sampling Monitoring.

Lemma new_consistent (host : Host) :
  pending host = ∅ -> consistent (new, host).
Proof.
  intros Hpending. unfold consistent. simpl.
  split; [|split; [|split]].
  - intros id. rewrite Hpending. set_solver.
  - discriminate.
  - intros _. now split.
  - lia.
Qed.

Lemma stopMonitoring_consistent (st : t * Host) :
  consistent st -> consistent (stopMonitoring st).
Proof.
  destruct st as [m host]. intros (Hfresh & Hon & Hoff & Hhistory).
  unfold stopMonitoring, consistent.
  destruct (PerformanceMonitor.tracking (core m)) eqn:Htracking.
  - destruct (Hon eq_refl) as (id & Hid & Hpending). rewrite Hid. simpl.
    repeat split; try discriminate; auto.
    + intros id'. rewrite Hpending. set_solver.
    + rewrite Hpending. set_solver.
  - destruct (Hoff eq_refl) as [Hid Hpending]. rewrite Hid. simpl.
    repeat split; try discriminate; auto.
Qed.

Lemma stopMonitoring_callback (st : t * Host) :
  callback (fst (stopMonitoring st)) = callback (fst st).
Proof. destruct st as [m host]. unfold stopMonitoring. now destruct (rafId m). Qed.

Lemma startMonitoring_consistent (cb : option Callback) (interval : option R)
    (now : R) (st : t * Host) :
  consistent st -> consistent (startMonitoring cb interval now st).
Proof.
  intros Hst.
  assert (Hstopped : exists m host,
            (if PerformanceMonitor.tracking (core (fst st))
             then stopMonitoring st else st) = (m, host) /\
            consistent (m, host) /\
            PerformanceMonitor.tracking (core m) = false).
  { destruct (PerformanceMonitor.tracking (core (fst st))) eqn:Htracking.
    - pose proof (stopMonitoring_consistent st Hst) as Hstop.
      destruct st as [m host]. unfold stopMonitoring in *.
      destruct (rafId m); eexists _, _; (split; [reflexivity|]); split; auto.
    - destruct st as [m host]. exists m, host. auto. }
  destruct Hstopped as (m & host & Heq & (Hfresh & _ & Hoff & Hhistory) & Htracking).
  unfold startMonitoring. rewrite Heq. simpl.
  destruct (Hoff Htracking) as [_ Hpending].
  repeat split; try discriminate; auto.
  - intros id. rewrite Hpending. set_solver by lia.
  - intros _. exists (nextId host). split; [reflexivity|].
    rewrite Hpending. set_solver.
Qed.

Lemma startMonitoring_callback (cb : option Callback) (interval : option R)
    (now : R) (st : t * Host) :
  callback (fst (startMonitoring cb interval now st)) = cb.
Proof.
  unfold startMonitoring.
  destruct (if PerformanceMonitor.tracking (core (fst st))
            then stopMonitoring st else st) as [m host].
  reflexivity.
Qed.

(** A frame of a monitor whose callback does not call it back. *)
Lemma frame_consistent (id : nat) (now : R) (st : t * Host) :
  inert (callback (fst st)) ->
  consistent st ->
  consistent (frame id now st) /\
  callback (fst (frame id now st)) = callback (fst st).
Proof.
  destruct st as [m host]. intros Hinert Hst. unfold frame.
  destruct (decide (id ∈ pending host)) as [Hin|_]; [|now split].
  destruct Hst as (Hfresh & Hon & Hoff & Hhistory).
  destruct (PerformanceMonitor.tracking (core m)) eqn:Htracking;
    [|destruct (Hoff eq_refl) as [_ Hpending]; rewrite Hpending in Hin;
      set_solver].
  destruct (Hon eq_refl) as (id0 & Hid & Hpending).
  simpl in Hinert. unfold updateFPS. simpl.
  destruct (Rge_dec _ _); simpl.
  - assert (Hhistory' :
      (List.length
         match memory host with
         | Some snapshot =>
             if (60 <? List.length (memoryHistory m ++ [(now, snapshot)]))%nat
             then tl (memoryHistory m ++ [(now, snapshot)])
             else memoryHistory m ++ [(now, snapshot)]
         | None => memoryHistory m
         end <= 60)%nat).
    { destruct (memory host) as [snapshot|]; [|exact Hhistory].
      destruct (Nat.ltb_spec 60 (List.length (memoryHistory m ++ [(now, snapshot)])))
        as [Hfull|Hroom]; [|exact Hroom].
      rewrite length_app in Hfull. simpl in Hfull.
      destruct (memoryHistory m) as [|entry rest]; simpl in *; [lia|].
      rewrite length_app. simpl. lia. }
    destruct Hinert as [Hcb|Hcb]; rewrite Hcb; simpl;
      (split; [|reflexivity]);
      (split; [|split; [|split]]); simpl.
    + intros id'. rewrite Hpending. set_solver by lia.
    + intros _. eexists. split; [reflexivity|]. rewrite Hpending. set_solver.
    + intros Hfalse. rewrite Htracking in Hfalse. discriminate.
    + exact Hhistory'.
    + intros id'. rewrite Hpending. set_solver by lia.
    + intros _. eexists. split; [reflexivity|]. rewrite Hpending. set_solver.
    + intros Hfalse. rewrite Htracking in Hfalse. discriminate.
    + exact Hhistory'.
  - split; [|reflexivity]. split; [|split; [|split]]; simpl.
    + intros id'. rewrite Hpending. set_solver by lia.
    + intros _. eexists. split; [reflexivity|]. rewrite Hpending. set_solver.
    + intros Hfalse. rewrite Htracking in Hfalse. discriminate.
    + exact Hhistory.
Qed.

Lemma run_consistent (calls : list Call) (st : t * Host) :
  consistent st -> inert (callback (fst st)) -> Forall inertCall calls ->
  consistent (run calls st) /\ inert (callback (fst (run calls st))).
Proof.
  intros Hst Hinert Hcalls. revert st Hst Hinert. unfold run.
  induction Hcalls as [|c calls Hc _ IH]; intros st Hst Hinert; [now split|].
  simpl. destruct c as [cb interval now| |id now]; simpl in *.
  - apply IH; [now apply startMonitoring_consistent|].
    now rewrite startMonitoring_callback.
  - apply IH; [now apply stopMonitoring_consistent|].
    now rewrite stopMonitoring_callback.
  - destruct (frame_consistent id now st Hinert Hst) as [Hframe Hcb].
    apply IH; [exact Hframe|now rewrite Hcb].
Qed.

(** The frame that completes a window, on a monitor that is tracking. *)
Lemma nextFrame_elapsed (now : R) (m : t) (host : Host) (id : nat) :
  rafId m = Some id -> pending host = {[id]} -> elapsed now m ->
  nextFrame now (m, host)
  = let c := core m in
    let frames := (PerformanceMonitor.frames c + 1)%Z in
    let fps :=
      IZR (Math_round (IZR frames * 1000
                       / (now - PerformanceMonitor.lastTime c))) in
    let history :=
      match memory host with
      | Some snapshot =>
          let pushed := memoryHistory m ++ [(now, snapshot)] in
          if (60 <? List.length pushed)%nat then tl pushed else pushed
      | None => memoryHistory m
      end in
    let m1 :=
      mk (PerformanceMonitor.mk fps frames (PerformanceMonitor.lastTime c)
                                (PerformanceMonitor.interval c)
                                (PerformanceMonitor.tracking c))
         (callback m) (rafId m) history in
    let '(m2, host2) :=
      match callback m with
      | Some cb => runCallback cb fps now (m1, cancelAnimationFrame id host)
      | None => (m1, cancelAnimationFrame id host)
      end in
    let c2 := core m2 in
    let '(id', host3) := requestAnimationFrame host2 in
    (mk (PerformanceMonitor.mk (PerformanceMonitor.fps c2) 0 now
                               (PerformanceMonitor.interval c2)
                               (PerformanceMonitor.tracking c2))
        (callback m2) (Some id') (memoryHistory m2), host3).
Proof.
  intros Hid Hpending Helapsed. unfold nextFrame. simpl. rewrite Hid.
  unfold frame.
  destruct (decide (id ∈ pending host)) as [_|Hout];
    [|rewrite Hpending in Hout; set_solver].
  unfold updateFPS. cbv zeta.
  destruct (Rge_dec _ _) as [_|Hlt]; [|contradiction].
  destruct (callback m) as [[| |next interval]|]; try reflexivity.
  unfold runCallback.
  match goal with
  | |- context [startMonitoring next interval now ?st0] =>
      destruct (startMonitoring next interval now st0) as [m2 host2]
  end.
  reflexivity.
Qed.

(** X18.  With callbacks that do not call the monitor back, at most one
    sampling loop runs: after any run of [startMonitoring], [stopMonitoring]
    and animation frames (also of ids that were cancelled) the only frame
    pending is the one that the monitor requested last, while it is
    tracking, and no frame is pending otherwise; the memory history never
    holds more than 60 entries.  A callback that calls [startMonitoring]
    breaks this: the frame that calls it, at the end of a window, leaves two
    frames pending, the one that the restart requested and the one that
    [updateFPS] requests after the callback. *)
Theorem sampling_loop_consistent (st : t * Host) :
  consistent st ->
  (inert (callback (fst st)) ->
   forall calls : list Call,
     Forall inertCall calls ->
     consistent (run calls st) /\
     (size (pending (snd (run calls st))) <= 1)%nat /\
     (List.length (getMemoryHistory (fst (run calls st))) <= 60)%nat) /\
  (forall (now : R) (next : option Callback) (interval : option R),
     PerformanceMonitor.tracking (core (fst st)) = true ->
     callback (fst st) = Some (Restarts next interval) ->
     elapsed now (fst st) ->
     size (pending (snd (nextFrame now st))) = 2%nat /\
     ~ consistent (nextFrame now st)).
Proof.
  intros Hst. split.
  - intros Hinert calls Hcalls.
    destruct (run_consistent calls st Hst Hinert Hcalls) as [Hrun _].
    split; [exact Hrun|].
    destruct (run calls st) as [m host].
    destruct Hrun as (_ & Hon & Hoff & Hhistory).
    split; [|exact Hhistory]. simpl.
    destruct (PerformanceMonitor.tracking (core m)).
    + destruct (Hon eq_refl) as (id & _ & ->). now rewrite size_singleton.
    + destruct (Hoff eq_refl) as [_ ->]. rewrite size_empty. lia.
  - intros now next interval Htracking Hcb Helapsed.
    destruct st as [m host]. simpl in *.
    destruct Hst as (Hfresh & Hon & _ & _).
    destruct (Hon Htracking) as (id & Hid & Hpending).
    assert (Hsize : size (pending (snd (nextFrame now (m, host)))) = 2%nat).
    { rewrite (nextFrame_elapsed now m host id Hid Hpending Helapsed).
      cbv zeta. rewrite Hcb. unfold runCallback, startMonitoring. simpl.
      rewrite Htracking. unfold stopMonitoring. simpl. rewrite Hid. simpl.
      rewrite Hpending.
      replace ({[id]} ∖ {[id]} ∖ {[id]} : gset nat) with (∅ : gset nat)
        by set_solver.
      rewrite size_union by set_solver by lia.
      rewrite size_union by set_solver.
      now rewrite !size_singleton, size_empty. }
    split; [exact Hsize|].
    intros Hbroken. destruct (nextFrame now (m, host)) as [m' host'].
    destruct Hbroken as (_ & Hon' & Hoff' & _). simpl in Hsize.
    destruct (PerformanceMonitor.tracking (core m')).
    + destruct (Hon' eq_refl) as (id' & _ & Hone). rewrite Hone in Hsize.
      rewrite size_singleton in Hsize. discriminate.
    + destruct (Hoff' eq_refl) as [_ Hnone]. rewrite Hnone in Hsize.
      rewrite size_empty in Hsize. discriminate.
Qed.

Lemma sampling_loop_consistent_witness :
  (size (pending (snd (run [Start (Some Inert) None 0%R;
                            Start None (Some 500%R) 10%R]
                           (new, mkHost ∅ 0 None [])))) <= 1)%nat /\
  size (pending (snd (nextFrame 1000%R
                        (startMonitoring (Some (Restarts None None)) None 0%R
                           (new, mkHost ∅ 0 None []))))) = 2%nat.
Proof.
  split.
  - destruct (sampling_loop_consistent (new, mkHost ∅ 0 None [])
                (new_consistent (mkHost ∅ 0 None []) eq_refl)) as [Hone _].
    apply (Hone (or_introl eq_refl)
                [Start (Some Inert) None 0; Start None (Some 500) 10]).
    constructor; [now right|]. constructor; [now left|]. constructor.
  - destruct (sampling_loop_consistent
                (startMonitoring (Some (Restarts None None)) None 0
                   (new, mkHost ∅ 0 None []))
                (startMonitoring_consistent _ _ _ _ (new_consistent (mkHost ∅ 0 None []) eq_refl)))
      as [_ Htwo].
    apply (Htwo 1000 None None); [reflexivity|reflexivity|].
    unfold elapsed. simpl. lra.
Defined.

(** The loop that goes on after the callback stopped the monitor. *)
Lemma stopped_step (now : R) (m : t) (host : Host) (id : nat) :
  PerformanceMonitor.tracking (core m) = false ->
  callback m = Some Stops -> rafId m = Some id -> pending host = {[id]} ->
  exists m' host' id',
    nextFrame now (m, host) = (m', host') /\
    PerformanceMonitor.tracking (core m') = false /\
    callback m' = Some Stops /\ rafId m' = Some id' /\
    pending host' = {[id']}.
Proof.
  intros Htracking Hcb Hid Hpending.
  unfold nextFrame. simpl. rewrite Hid. unfold frame.
  destruct (decide (id ∈ pending host)) as [_|Hout];
    [|rewrite Hpending in Hout; set_solver].
  unfold updateFPS. cbv zeta.
  destruct (Rge_dec _ _) as [_|_].
  - rewrite Hcb. simpl.
    eexists _, _, _. split; [reflexivity|]. simpl.
    split; [reflexivity|]. split; [reflexivity|]. split; [reflexivity|].
    rewrite Hpending. set_solver.
  - simpl. eexists _, _, _. split; [reflexivity|]. simpl.
    split; [exact Htracking|]. split; [exact Hcb|]. split; [reflexivity|].
    rewrite Hpending. set_solver.
Qed.

Lemma stopped_loop_goes_on (times : list R) (m : t) (host : Host) (id : nat) :
  PerformanceMonitor.tracking (core m) = false ->
  callback m = Some Stops -> rafId m = Some id -> pending host = {[id]} ->
  let st' := fold_left (fun st now => nextFrame now st) times (m, host) in
  PerformanceMonitor.tracking (core (fst st')) = false /\
  exists id', rafId (fst st') = Some id' /\ pending (snd st') = {[id']}.
Proof.
  revert m host id.
  induction times as [|now times IH]; intros m host id Htracking Hcb Hid Hpending.
  - simpl. split; [exact Htracking|]. now exists id.
  - destruct (stopped_step now m host id Htracking Hcb Hid Hpending)
      as (m' & host' & id' & Hstep & Htracking' & Hcb' & Hid' & Hpending').
    cbv zeta. cbn [fold_left]. rewrite Hstep.
    exact (IH m' host' id' Htracking' Hcb' Hid' Hpending').
Qed.

(** X19.  [stopMonitoring] called between frames cancels the loop: on a
    monitor with one loop at most, no animation frame that the host still
    runs afterwards, whatever its id, changes the monitor or requests
    another frame.  Called by the callback it does not: [updateFPS]
    requests the next frame after the callback has returned, so after the
    frame that ends a window, and after every later frame, the monitor is
    not tracking and yet has a frame pending. *)
Theorem stopMonitoring_cancels (st : t * Host) :
  consistent st ->
  (forall frames : list (nat * R),
     run (List.map (fun f => Frame (fst f) (snd f)) frames) (stopMonitoring st)
     = stopMonitoring st /\
     PerformanceMonitor.tracking (core (fst (stopMonitoring st))) = false /\
     pending (snd (stopMonitoring st)) = ∅) /\
  (forall (now : R) (times : list R),
     PerformanceMonitor.tracking (core (fst st)) = true ->
     callback (fst st) = Some Stops ->
     elapsed now (fst st) ->
     let st' :=
       fold_left (fun st now => nextFrame now st) times (nextFrame now st) in
     PerformanceMonitor.tracking (core (fst st')) = false /\
     exists id, rafId (fst st') = Some id /\ pending (snd st') = {[id]}).
Proof.
  intros Hst. split.
  - intros frames.
    pose proof (stopMonitoring_consistent st Hst) as Hstop.
    assert (Htracking :
              PerformanceMonitor.tracking (core (fst (stopMonitoring st))) = false).
    { destruct st as [m host]. unfold stopMonitoring. now destruct (rafId m). }
    destruct (stopMonitoring st) as [m host].
    destruct Hstop as (_ & _ & Hoff & _).
    destruct (Hoff Htracking) as [_ Hpending].
    split; [|split; [exact Htracking|exact Hpending]].
    unfold run. induction frames as [|[id now] frames IH]; [reflexivity|].
    simpl.
    destruct (decide (id ∈ pending host)) as [Hin|_]; [|exact IH].
    rewrite Hpending in Hin. set_solver.
  - intros now times Htracking Hcb Helapsed.
    destruct st as [m host]. simpl in *.
    destruct Hst as (_ & Hon & _ & _).
    destruct (Hon Htracking) as (id & Hid & Hpending).
    rewrite (nextFrame_elapsed now m host id Hid Hpending Helapsed).
    cbv zeta. rewrite Hcb. unfold runCallback, stopMonitoring. simpl.
    rewrite Hid. simpl.
    eapply stopped_loop_goes_on; simpl; [reflexivity|reflexivity|reflexivity|].
    rewrite Hpending. set_solver.
Qed.

Lemma stopMonitoring_cancels_witness :
  run [Frame 0 16%R; Frame 1 33%R]
      (stopMonitoring (startMonitoring (Some Inert) None 0%R
                         (new, mkHost ∅ 0 None [])))
  = stopMonitoring (startMonitoring (Some Inert) None 0%R
                      (new, mkHost ∅ 0 None [])) /\
  PerformanceMonitor.tracking
    (core (fst (nextFrame 1000%R
                  (startMonitoring (Some Stops) None 0%R
                     (new, mkHost ∅ 0 None []))))) = false /\
  exists id,
    pending (snd (nextFrame 1000%R
                    (startMonitoring (Some Stops) None 0%R
                       (new, mkHost ∅ 0 None [])))) = {[id]}.
Proof.
  split.
  - destruct (stopMonitoring_cancels
                (startMonitoring (Some Inert) None 0 (new, mkHost ∅ 0 None []))
                (startMonitoring_consistent _ _ _ _ (new_consistent (mkHost ∅ 0 None []) eq_refl)))
      as [Hquiet _].
    exact (proj1 (Hquiet [(0%nat, 16); (1%nat, 33)])).
  - destruct (stopMonitoring_cancels
                (startMonitoring (Some Stops) None 0 (new, mkHost ∅ 0 None []))
                (startMonitoring_consistent _ _ _ _ (new_consistent (mkHost ∅ 0 None []) eq_refl)))
      as [_ Hloop].
    assert (Helapsed : elapsed 1000
              (fst (startMonitoring (Some Stops) None 0
                      (new, mkHost ∅ 0 None []))))
      by (unfold elapsed; simpl; lra).
    destruct (Hloop 1000 [] eq_refl eq_refl Helapsed) as [Htracking [id [_ Hpending]]].
    split; [exact Htracking|]. exists id. exact Hpending.
Defined.

End MonitoringExtras.

(** ** The frame rate that the monitor reports *)

Section SamplingExtras.
Import Sampling.

Lemma Math_round_nearest (v : R) : Rabs (IZR (Math_round v) - v) <= 1 / 2.
Proof.
  unfold Math_round, Math_floor.
  destruct (base_Int_part (v + 0.5)) as [Hle Hgt].
  apply Rabs_le. lra.
Qed.

Lemma Math_round_IZR (n : Z) : Math_round (IZR n) = n.
Proof. unfold Math_round. apply Math_floor_bounds. lra. Qed.

(** The monitor inside a measurement window: started at [t0], [k] frames
    counted, one frame pending. *)
Lemma window_open (cb : bool) (i fps0 t0 : R) (times : list R) :
  Forall (fun t => t - t0 < i) times ->
  forall (k : Z) (m : t) (host : Host) (id : nat),
    core m = PerformanceMonitor.mk fps0 k t0 i true ->
    callback m = cb -> rafId m = Some id -> id ∈ pending host ->
    exists m' host' id',
      fold_left (fun st now => nextFrame now st) times (m, host) = (m', host') /\
      core m' = PerformanceMonitor.mk fps0 (k + Z.of_nat (List.length times)) t0 i true /\
      callback m' = cb /\ rafId m' = Some id' /\ id' ∈ pending host' /\
      reported host' = reported host.
Proof.
  induction 1 as [|now times Hnow _ IH]; intros k m host id Hcore Hcb Hid Hin.
  - exists m, host, id. simpl. rewrite Z.add_0_r. repeat split; assumption.
  - simpl. unfold nextFrame at 2. simpl. rewrite Hid. unfold frame.
    destruct (decide (id ∈ pending host)) as [_|Hout]; [|contradiction].
    unfold updateFPS. simpl. rewrite Hcore. simpl.
    destruct (Rge_dec (now - t0) i) as [Hge|_]; [lra|]. simpl.
    match goal with
    | |- context [fold_left _ times (?m1, ?host1)] =>
        destruct (IH (k + 1)%Z m1 host1 (nextId host) eq_refl Hcb eq_refl)
          as (m' & host' & id' & Hrun & Hcore' & Hcb' & Hid' & Hin' & Hrep);
          [simpl; set_solver|]
    end.
    exists m', host', id'. rewrite Hrun. repeat split; auto.
    rewrite Hcore'. f_equal. lia.
Qed.

(** X20.  The frame rate that the monitor reports for a window: started at
    time [t0] with a positive interval, after frames that all come before
    the interval has elapsed and one frame at a time [tn] when it has, the
    FPS value is [Math.round(n * 1000 / (tn - t0))] for the number [n] of
    all these frames, within one half of the true rate and equal to it
    when that is an integer; the frame count is back to 0, the next window
    starts at [tn], and a callback just received the value. *)
Theorem fps_of_window (cb : bool) (i t0 tn : R) (times : list R)
    (st0 : t * Host) :
  0 < i ->
  Forall (fun now => now - t0 < i) times ->
  i <= tn - t0 ->
  let st := nextFrame tn
              (fold_left (fun st now => nextFrame now st) times
                         (startMonitoring cb (Some i) t0 st0)) in
  let n := (Z.of_nat (List.length times) + 1)%Z in
  let rate := IZR n * 1000 / (tn - t0) in
  PerformanceMonitor.getFPS (core (fst st)) = IZR (Math_round rate) /\
  Rabs (PerformanceMonitor.getFPS (core (fst st)) - rate) <= 1 / 2 /\
  (forall k : Z, rate = IZR k ->
                 PerformanceMonitor.getFPS (core (fst st)) = IZR k) /\
  PerformanceMonitor.frames (core (fst st)) = 0%Z /\
  PerformanceMonitor.lastTime (core (fst st)) = tn /\
  (cb = true ->
   head (reported (snd st)) = Some (PerformanceMonitor.getFPS (core (fst st)))).
Proof.
  intros Hi Htimes Htn st n rate.
  assert (Hstart : exists m host id,
            startMonitoring cb (Some i) t0 st0 = (m, host) /\
            core m = PerformanceMonitor.mk
                       (PerformanceMonitor.fps (core m)) 0 t0 i true /\
            callback m = cb /\ rafId m = Some id /\ id ∈ pending host).
  { unfold startMonitoring.
    destruct (if PerformanceMonitor.tracking (core (fst st0))
              then stopMonitoring st0 else st0) as [m host].
    eexists _, _, _. split; [reflexivity|]. simpl.
    repeat split. set_solver. }
  destruct Hstart as (m & host & id & Hstart & Hcore & Hcb & Hid & Hin).
  destruct (window_open cb i _ t0 times Htimes 0 m host id Hcore Hcb Hid Hin)
    as (m' & host' & id' & Hrun & Hcore' & Hcb' & Hid' & Hin' & _).
  assert (Hfps : PerformanceMonitor.getFPS (core (fst st)) = IZR (Math_round rate)
                 /\ PerformanceMonitor.frames (core (fst st)) = 0%Z
                 /\ PerformanceMonitor.lastTime (core (fst st)) = tn
                 /\ (cb = true ->
                     head (reported (snd st))
                     = Some (PerformanceMonitor.getFPS (core (fst st))))).
  { unfold st. rewrite Hstart, Hrun. unfold nextFrame. simpl. rewrite Hid'.
    unfold frame.
    destruct (decide (id' ∈ pending host')) as [_|Hout]; [|contradiction].
    unfold updateFPS. simpl. rewrite Hcore'. simpl.
    destruct (Rge_dec (tn - t0) i) as [_|Hlt]; [|lra]. simpl.
    unfold rate, n. rewrite Z.add_0_l.
    repeat split. intros ->. now rewrite Hcb'. }
  destruct Hfps as (Hfps & Hframes & Hlast & Hreported).
  split; [exact Hfps|]. split; [rewrite Hfps; apply Math_round_nearest|].
  split; [|auto].
  intros k Hk. rewrite Hfps, Hk. now rewrite Math_round_IZR.
Qed.

Lemma fps_of_window_witness :
  PerformanceMonitor.getFPS
    (core (fst (nextFrame 1000
                  (fold_left (fun st now => nextFrame now st) [400; 800]
                     (startMonitoring true (Some 1000) 0
                        (new, mkHost ∅ 0 None []))))))
  = IZR (Math_round (IZR (Z.of_nat (List.length [400; 800]) + 1) * 1000
                     / (1000 - 0))).
Proof.
  assert (Hinterval : 0 < 1000) by lra.
  assert (Hearly : Forall (fun now => now - 0 < 1000) [400; 800])
    by (repeat constructor; lra).
  assert (Hlate : 1000 <= 1000 - 0) by lra.
  exact (proj1 (fps_of_window true 1000 0 1000 [400; 800]
                  (new, mkHost ∅ 0 None []) Hinterval Hearly Hlate)).
Defined.

End SamplingExtras.

(** ** The tiers and strengths that the component passes on *)

Section VisualizationExtras.
Import Visualization.

(** X21.  The tier that the component sets from a frame rate is never
    above the tier that [getRecommendedQualityLevel] recommends for it, and
    is below it exactly for rates from 15 and below 20 and from 30 and
    below 40: the component tests against 20 and 40, the monitor against 15
    and 30.  A higher rate never gives a lower tier. *)
Theorem component_tier_stricter (m : PerformanceMonitor.t) (fps' : R) :
  (rank (deviceCapabilityOf (PerformanceMonitor.getFPS m))
   <= rank (PerformanceMonitor.getRecommendedQualityLevel m))%nat /\
  (deviceCapabilityOf (PerformanceMonitor.getFPS m)
   <> PerformanceMonitor.getRecommendedQualityLevel m
   <-> 15 <= PerformanceMonitor.getFPS m < 20
       \/ 30 <= PerformanceMonitor.getFPS m < 40) /\
  (PerformanceMonitor.getFPS m <= fps' ->
   (rank (deviceCapabilityOf (PerformanceMonitor.getFPS m))
    <= rank (deviceCapabilityOf fps'))%nat).
Proof.
  unfold deviceCapabilityOf, PerformanceMonitor.getRecommendedQualityLevel.
  set (fps := PerformanceMonitor.getFPS m).
  split; [|split].
  - destruct (Rlt_dec fps 20), (Rlt_dec fps 40), (Rlt_dec fps 15),
      (Rlt_dec fps 30); simpl; try lia; lra.
  - destruct (Rlt_dec fps 20), (Rlt_dec fps 40), (Rlt_dec fps 15),
      (Rlt_dec fps 30); split; intros H; try lra; try congruence;
      try discriminate; try (exfalso; lra).
  - intros Hle.
    destruct (Rlt_dec fps 20), (Rlt_dec fps 40), (Rlt_dec fps' 20),
      (Rlt_dec fps' 40); simpl; try lia; lra.
Qed.

Lemma component_tier_stricter_witness :
  deviceCapabilityOf (PerformanceMonitor.getFPS (Scenario.monitor 17))
  <> PerformanceMonitor.getRecommendedQualityLevel (Scenario.monitor 17).
Proof.
  apply (component_tier_stricter (Scenario.monitor 17) 17).
  left. simpl. lra.
Defined.

(** X22.  A force whose strength is zero or negative changes no node.  So
    with orbital movement disabled in the preferences, where the component
    passes strength 0 to [setupOrbitalPhysics], the force installed is
    inert whatever nodes and links the tick listener binds to it later. *)
Theorem disabled_orbit_is_inert (f : OrbitalForce.t) (alpha : R)
    (clock : nat -> R) (h : Heap Token.t) :
  (OrbitalForce.strength f <= 0 ->
   forall r, OrbitalForce.force f alpha clock h r = h r) /\
  (forall (fg fg' : ForceGraph.t) (orbitalSpeed orbitalForce : R)
          (ns : list ref) (ls : option (list Link.t)) (r : ref),
     ForceGraph.setupOrbitalPhysics (Some fg)
       (Some (orbitalStrengthOf false orbitalSpeed orbitalForce))
     = inr (f, fg') ->
     OrbitalForce.force (OrbitalForce.initialize ns ls f) alpha clock h r = h r).
Proof.
  split.
  - intros Hs r. unfold OrbitalForce.force.
    destruct (Rle_dec (OrbitalForce.strength f) 0); [reflexivity|contradiction].
  - intros fg fg' orbitalSpeed orbitalForce ns ls r.
    unfold ForceGraph.setupOrbitalPhysics.
    destruct (ForceGraph.d3Force fg); [|discriminate].
    intros Heq. injection Heq as <- _.
    unfold OrbitalForce.force. simpl.
    destruct (Rle_dec 0 0) as [_|Hn]; [reflexivity|lra].
Qed.

Lemma disabled_orbit_is_inert_witness :
  OrbitalForce.force (Scenario.orbital (-1)) 1 Scenario.clock Scenario.heap 0%nat
  = Scenario.heap 0%nat.
Proof.
  apply (proj1 (disabled_orbit_is_inert (Scenario.orbital (-1)) 1
                  Scenario.clock Scenario.heap)).
  simpl. lra.
Defined.

End VisualizationExtras.

(** ** The update closure of a link object *)

Section ClosureExtras.
Import LinkObjects.






End ClosureExtras.

(** ** Building node objects *)

Section NodeObjectExtras.
Import NodeObjects NodeScene.

Lemma initNodeResources_lookup (detail : Detail) (w : World)
    (type : Token.kind) :
  resourceManager w = None ->
  let w' := snd (initNodeResources detail w) in
  resourceManager w' = Some (allocated w) /\
  ResourceManager.geometries (managers w' (allocated w)) !! geometryNameOf type
  = Some (THREE.SphereGeometry 1 (getResolution detail (baseSegments type))
                               (getResolution detail (baseSegments type))) /\
  ResourceManager.textures (managers w' (allocated w)) !! "glow"
  = Some (createGlowTexture w).
Proof.
  intros Hnone w'. subst w'. unfold initNodeResources. rewrite Hnone. simpl.
  rewrite write_eq. simpl. split; [reflexivity|]. split.
  - destruct type; simpl.
    + now rewrite lookup_insert_ne, lookup_insert_ne, lookup_insert_eq.
    + now rewrite lookup_insert_ne, lookup_insert_eq.
    + now rewrite lookup_insert_eq.
  - now rewrite lookup_insert_eq.
Qed.

(** The children that [createNodeObject] builds from a geometry and a
    texture. *)
Lemma createNodeObject_ready (node : Node) (highlightedNode : option string)
    (w : World) (m : ref) (geometry : THREE.BufferGeometry)
    (texture : THREE.Texture) :
  resourceManager w = Some m ->
  ResourceManager.geometries (managers w m)
    !! geometryNameOf (Token.type (token node)) = Some geometry ->
  ResourceManager.textures (managers w m) !! "glow" = Some texture ->
  let size := Token.size (token node) in
  let isHighlighted := isHighlightedOf highlightedNode node in
  createNodeObject node highlightedNode w
  = (inr (Mesh geometry
            (mkMeshMaterial (color node) true 0.9 80
               (if isHighlighted then Some (color node, 0.5) else None))
            (size, size, size)
          :: (if Rgt_dec (success node) 0 then
                [Sprite
                   (mkSpriteMaterial texture (THREE.Css (color node)) true
                      (success node * (if isHighlighted then 1.2 else 0.8)))
                   (size * (2 + success node * 2),
                    size * (2 + success node * 2), 1)]
              else [])
          ++ (if isHighlighted then
                [Sprite (mkSpriteMaterial texture (THREE.Hex 16777215) true 0.4)
                        (size * 5, size * 5, 1)]
              else [])), w).
Proof.
  intros Hm Hgeometry Htexture size isHighlighted. subst size isHighlighted.
  unfold createNodeObject. rewrite Hm. cbv zeta. rewrite Hm.
  unfold ResourceManager.getGeometry, ResourceManager.getTexture.
  rewrite Hgeometry, Htexture. simpl.
  destruct (Rgt_dec (success node) 0); destruct (isHighlightedOf highlightedNode node);
    reflexivity.
Qed.

(** X24.  After a first [initNodeResources(detail)], [createNodeObject]
    returns a group and leaves the module state as it is.  The group holds
    the mesh, then a glow sprite exactly when the success of the node is
    positive, then a highlight sprite exactly when the node is the
    highlighted one.  The mesh is the shared unit sphere of the type of the
    node, with the segments of the tier, scaled by the size of the node on
    all three axes, in the color of the node, emissive only when
    highlighted; every sprite carries the shared glow texture. *)
Theorem createNodeObject_children (detail : Detail) (node : Node)
    (highlightedNode : option string) (w0 : World) :
  resourceManager w0 = None ->
  let w := snd (initNodeResources detail w0) in
  let size := Token.size (token node) in
  let segments :=
    getResolution detail (baseSegments (Token.type (token node))) in
  exists material rest,
    createNodeObject node highlightedNode w
    = (inr (Mesh (THREE.SphereGeometry 1 segments segments) material
                 (size, size, size) :: rest), w) /\
    meshColor material = color node /\
    (emissive material
     = if isHighlightedOf highlightedNode node then Some (color node, 0.5)
       else None) /\
    List.length rest
    = ((if Rgt_dec (success node) 0 then 1 else 0)
       + (if isHighlightedOf highlightedNode node then 1 else 0))%nat /\
    Forall (fun child =>
              exists sprite, spriteOf child = Some sprite /\
                             spriteMap sprite = createGlowTexture w0) rest.
Proof.
  intros Hnone w size segments.
  destruct (initNodeResources_lookup detail w0 (Token.type (token node)) Hnone)
    as (Hm & Hgeometry & Htexture).
  fold w in Hm, Hgeometry, Htexture.
  rewrite (createNodeObject_ready node highlightedNode w _ _ _ Hm Hgeometry Htexture).
  eexists _, _. split; [reflexivity|]. simpl.
  split; [reflexivity|]. split; [reflexivity|].
  destruct (Rgt_dec (success node) 0);
    destruct (isHighlightedOf highlightedNode node); simpl;
    (split; [reflexivity|]); repeat constructor; eexists; split; reflexivity.
Qed.

Lemma createNodeObject_children_witness :
  exists material rest,
    createNodeObject scenarioNode (Some "leaf-1"%string)
      (snd (initNodeResources low Scenario.world))
    = (inr (Mesh (THREE.SphereGeometry 1 (getResolution low 16)
                                       (getResolution low 16))
                 material (2, 2, 2) :: rest),
       snd (initNodeResources low Scenario.world)) /\
    List.length rest
    = ((if Rgt_dec (success scenarioNode) 0 then 1 else 0) + 1)%nat.
Proof.
  destruct (createNodeObject_children low scenarioNode (Some "leaf-1"%string)
              Scenario.world eq_refl)
    as (material & rest & Hcreate & _ & _ & Hlength & _).
  exists material, rest. split; [exact Hcreate|exact Hlength].
Defined.

(** X25.  [createNodeObject] called before any initialisation initialises
    the node resources itself, at tier medium: it returns what it returns
    after [initNodeResources('medium')], a group and no error, and it leaves
    the module variable set, so that a later [initNodeResources] of any
    tier changes nothing. *)
Theorem createNodeObject_lazy_init (node : Node)
    (highlightedNode : option string) (detail : Detail) (w : World) :
  resourceManager w = None ->
  let w' := snd (initNodeResources medium w) in
  createNodeObject node highlightedNode w
  = createNodeObject node highlightedNode w' /\
  (exists children, createNodeObject node highlightedNode w = (inr children, w')) /\
  initNodeResources detail w' = (allocated w, w').
Proof.
  intros Hnone w'.
  destruct (initNodeResources_lookup medium w (Token.type (token node)) Hnone)
    as (Hm & Hgeometry & Htexture).
  fold w' in Hm, Hgeometry, Htexture.
  assert (Hsame : createNodeObject node highlightedNode w
                  = createNodeObject node highlightedNode w').
  { unfold createNodeObject at 1 2. rewrite Hnone, Hm. reflexivity. }
  split; [exact Hsame|]. split.
  - rewrite Hsame.
    rewrite (createNodeObject_ready node highlightedNode w' _ _ _ Hm Hgeometry Htexture).
    eexists. reflexivity.
  - unfold initNodeResources at 1. now rewrite Hm.
Qed.

Lemma createNodeObject_lazy_init_witness :
  initNodeResources high (snd (initNodeResources medium Scenario.world))
  = (0%nat, snd (initNodeResources medium Scenario.world)).
Proof.
  exact (proj2 (proj2 (createNodeObject_lazy_init scenarioNode None high
                         Scenario.world eq_refl))).
Defined.

(** X26.  For a node of positive size whose success is at most 1, every
    child of the group that [createNodeObject] returns is scaled from the
    size of the node: the mesh by the size on all three axes, a sprite by
    the same factor on x and y and by 1 on z, the factor being more than
    twice and at most five times the size; and the opacity of a sprite is
    positive and at most 1.2. *)
Theorem createNodeObject_scales (node : Node) (highlightedNode : option string)
    (w w' : World) (children : list Object3D) :
  0 < Token.size (token node) ->
  success node <= 1 ->
  createNodeObject node highlightedNode w = (inr children, w') ->
  let size := Token.size (token node) in
  Forall (fun child =>
            match spriteOf child with
            | None => scaleOf child = (size, size, size)
            | Some sprite =>
                (exists factor, scaleOf child = (factor, factor, 1) /\
                                2 * size < factor <= 5 * size) /\
                0 < spriteOpacity sprite <= 1.2
            end) children.
Proof.
  intros Hsize Hsuccess Hcreate size. subst size.
  unfold createNodeObject in Hcreate. cbv zeta in Hcreate.
  destruct (resourceManager
              match resourceManager w with
              | Some _ => w
              | None => snd (initNodeResources medium w)
              end) as [m|]; [|discriminate].
  injection Hcreate as Hresult _.
  unfold ResourceManager.getGeometry, ResourceManager.getTexture in Hresult.
  destruct (ResourceManager.geometries _ !! _) as [geometry|]; [|discriminate].
  simpl in Hresult.
  destruct (ResourceManager.textures _ !! _) as [texture|].
  - destruct (Rgt_dec (success node) 0) as [Hpos|Hneg];
      destruct (isHighlightedOf highlightedNode node); simpl in Hresult;
      injection Hresult as <-;
      repeat match goal with |- Forall _ _ => constructor end; simpl;
      try reflexivity;
      (split; [eexists; split; [reflexivity|nra]|nra]).
  - destruct (Rgt_dec (success node) 0) as [Hpos|Hneg];
      destruct (isHighlightedOf highlightedNode node); simpl in Hresult;
      try discriminate.
    injection Hresult as <-.
    repeat match goal with |- Forall _ _ => constructor end. reflexivity.
Qed.

Lemma scenario_node_object :
  exists children w',
    createNodeObject scenarioNode None Scenario.world = (inr children, w').
Proof.
  destruct (initNodeResources_lookup medium Scenario.world Token.leaf eq_refl)
    as (Hm & Hgeometry & Htexture).
  eexists _, _.
  transitivity (createNodeObject scenarioNode None
                  (snd (initNodeResources medium Scenario.world))).
  - reflexivity.
  - exact (createNodeObject_ready scenarioNode None _ _ _ _ Hm Hgeometry Htexture).
Qed.

Lemma createNodeObject_scales_witness :
  exists children,
    Forall (fun child =>
              match spriteOf child with
              | None => scaleOf child = (2, 2, 2)
              | Some sprite =>
                  (exists factor, scaleOf child = (factor, factor, 1) /\
                                  2 * 2 < factor <= 5 * 2) /\
                  0 < spriteOpacity sprite <= 1.2
              end) children.
Proof.
  destruct scenario_node_object as (children & w' & Hcreate).
  exists children.
  apply (createNodeObject_scales scenarioNode None Scenario.world w' children);
    [simpl; lra|simpl; lra|exact Hcreate].
Defined.

(** X27.  With a manager in place, [createNodeObject] throws exactly when a
    resource it looks up is missing: the error of [getGeometry] for the
    geometry name of the type of the node when that geometry is missing,
    whatever else the manager holds; with the geometry there and no glow
    texture, the error of [getTexture] when the node has a positive success
    or is highlighted, and a group of the mesh alone otherwise.  In no case
    does it change the module state. *)
Theorem createNodeObject_missing_resources (node : Node)
    (highlightedNode : option string) (w : World) (m : ref) :
  resourceManager w = Some m ->
  let name := geometryNameOf (Token.type (token node)) in
  (ResourceManager.geometries (managers w m) !! name = None ->
   createNodeObject node highlightedNode w
   = (inl (mkError ("Geometry " ++ quoted name ++ " not found in ResourceManager")), w)) /\
  (forall geometry,
     ResourceManager.geometries (managers w m) !! name = Some geometry ->
     ResourceManager.textures (managers w m) !! "glow" = None ->
     (success node > 0 \/ isHighlightedOf highlightedNode node = true ->
      createNodeObject node highlightedNode w
      = (inl (mkError ("Texture " ++ quoted "glow" ++ " not found in ResourceManager")), w)) /\
     (~ success node > 0 -> isHighlightedOf highlightedNode node = false ->
      exists material,
        createNodeObject node highlightedNode w
        = (inr [Mesh geometry material
                  (Token.size (token node), Token.size (token node),
                   Token.size (token node))], w))).
Proof.
  intros Hm name. subst name. split.
  - intros Hnone. unfold createNodeObject. rewrite Hm. cbv zeta. rewrite Hm.
    unfold ResourceManager.getGeometry. rewrite Hnone. reflexivity.
  - intros geometry Hgeometry Hnone. split.
    + intros Hneeded. unfold createNodeObject. rewrite Hm. cbv zeta. rewrite Hm.
      unfold ResourceManager.getGeometry, ResourceManager.getTexture.
      rewrite Hgeometry, Hnone. simpl.
      destruct (Rgt_dec (success node) 0) as [Hpos|Hneg]; [reflexivity|].
      destruct Hneeded as [Hpos|Hhighlighted]; [contradiction|].
      rewrite Hhighlighted. reflexivity.
    + intros Hneg Hplain. unfold createNodeObject. rewrite Hm. cbv zeta.
      rewrite Hm.
      unfold ResourceManager.getGeometry, ResourceManager.getTexture.
      rewrite Hgeometry, Hnone. simpl.
      destruct (Rgt_dec (success node) 0) as [Hpos|_]; [contradiction|].
      rewrite Hplain. simpl. eexists. reflexivity.
Qed.

Lemma createNodeObject_missing_resources_witness :
  let w :=
    mkWorld (fun _ => ResourceManager.new) 1%nat (Some 0%nat) None false in
  createNodeObject scenarioNode None w
  = (inl (mkError ("Geometry " ++ quoted "leafNode" ++ " not found in ResourceManager")), w).
Proof.
  intros w.
  exact (proj1 (createNodeObject_missing_resources scenarioNode None w 0%nat
                  eq_refl) eq_refl).
Defined.

End NodeObjectExtras.

(** ** Validating the data *)

Section ValidationExtras.
Import Adapter.

Lemma get_prop (v : Value) (name : string) (x : Value) :
  get v name = inr x -> x = prop v name.
Proof. destruct v; simpl; intros [=]; congruence. Qed.

Lemma truthy_prop_object (v : Value) (name : string) :
  truthy (prop v name) = true -> exists identity fields, v = Object identity fields.
Proof. destruct v; simpl; try discriminate. intros _. eauto. Qed.

Lemma le_positive (n : Number) : le n (Finite 0) = false <-> positive n.
Proof.
  destruct n; simpl; try (split; [intros; exact I|reflexivity]);
    try (split; [discriminate|intros []]).
  destruct (Rle_dec r 0); split; intros H; try discriminate; try reflexivity; lra.
Qed.

Lemma lt_nonNegative (n : Number) : lt n (Finite 0) = false <-> nonNegative n.
Proof.
  destruct n; simpl; try (split; [intros; exact I|reflexivity]);
    try (split; [discriminate|intros []]).
  destruct (Rlt_dec r 0); split; intros H; try discriminate; try reflexivity; lra.
Qed.

Lemma lt_between (lo hi : R) (n : Number) :
  lt n (Finite lo) || lt (Finite hi) n = false <-> between lo hi n.
Proof.
  destruct n; simpl; try (split; [intros; exact I|reflexivity]);
    try (split; [discriminate|intros []]).
  destruct (Rlt_dec r lo), (Rlt_dec hi r); simpl; split; intros H;
    try discriminate; try reflexivity; lra.
Qed.

Lemma includes_In (names : list string) (v : Value) :
  includes names v = true <-> exists s, v = Str s /\ In s names.
Proof.
  destruct v; simpl; try (split; [discriminate|intros (? & [=] & _)]).
  rewrite existsb_exists. split.
  - intros (x & Hin & Heq). apply String.eqb_eq in Heq. subst x. eauto.
  - intros (x & [= <-] & Hin). exists s. split; [exact Hin|apply String.eqb_refl].
Qed.

Lemma forEachFrom_Forall (f : Value -> nat -> Thrown + unit)
    (P : Value -> Prop) (items : list Value) :
  (forall item index, f item index = inr tt <-> P item) ->
  forall index, forEachFrom f items index = inr tt <-> Forall P items.
Proof.
  intros Hf. induction items as [|item rest IH]; intros index; simpl.
  - split; [constructor|reflexivity].
  - unfold andThen. destruct (f item index) as [e|[]] eqn:Hitem.
    + split; [discriminate|]. intros Hall. inversion Hall as [|? ? Hhead _]; subst.
      apply Hf with (index := index) in Hhead. congruence.
    + rewrite IH. apply Hf in Hitem. split.
      * intros Hrest. now constructor.
      * intros Hall. now inversion Hall.
Qed.

Lemma validateReserve_valid (node reserve : Value) (rIndex : nat) :
  validateReserve node reserve rIndex = inr tt <-> validReserve reserve.
Proof.
  unfold validateReserve, validReserve.
  assert (Hthrow : forall (parts : Value -> list Part) (Q : Prop),
             ~ Q ->
             (id <~ get node "id" ;; inl (ErrorOf (parts id))) = inr tt <-> Q).
  { intros parts Q HQ. destruct (get node "id"); simpl;
      (split; [discriminate|intros HQ'; contradiction]). }
  destruct reserve as [| | | | |identity items|identity fields]; simpl;
    try (split; [discriminate|intros [[=] _]]);
    try (apply (Hthrow (fun id => [_; _; _; Interpolated id; _]));
         intros [[=] _]).
  destruct (truthy (fieldOf "tokenId" fields)); simpl.
  - destruct (fieldOf "percentage" fields) as [| | |n| | |];
      try (apply (Hthrow (fun id => [_; _; _; Interpolated id; _]));
           intros (_ & ? & [=] & _)).
    fold (lt (Finite 100) n).
    destruct (lt n (Finite 0) || lt (Finite 100) n) eqn:Hrange.
    + apply (Hthrow (fun id => [_; _; _; Interpolated id; _])).
      intros (_ & n' & [= <-] & Hbetween). apply lt_between in Hbetween.
      congruence.
    + split; [|reflexivity]. intros _. split; [reflexivity|].
      exists n. split; [reflexivity|]. now apply lt_between.
  - apply (Hthrow (fun id => [_; _; _; Interpolated id; _])). intros [[=] _].
Qed.

Lemma validateNode_valid (node : Value) (index : nat) :
  validateNode node index = inr tt <-> validNode node.
Proof.
  unfold validateNode, validNode.
  destruct node as [| | | | |identity items|identity fields]; simpl;
    try (split; [discriminate|intros [[=] _]]).
  destruct (truthy (fieldOf "id" fields)); simpl;
    [|split; [discriminate|intros [[=] _]]].
  destruct (truthy (fieldOf "name" fields)); simpl;
    [|split; [discriminate|intros (_ & [=] & _)]].
  destruct (includes ["root"; "branch"; "leaf"]%string (fieldOf "type" fields))
    eqn:Htype; simpl.
  2:{ split; [discriminate|]. intros (_ & _ & (type & Heq & Hin) & _).
      assert (includes ["root"; "branch"; "leaf"]%string (fieldOf "type" fields) = true)
        by (apply includes_In; eauto).
      congruence. }
  apply includes_In in Htype.
  destruct (fieldOf "size" fields) as [| | |size| | |] eqn:Hsize;
    try (split; [discriminate|intros (_ & _ & _ & (? & [=] & _) & _)]).
  destruct (le size (Finite 0)) eqn:Hpositive.
  { split; [discriminate|]. intros (_ & _ & _ & (n & [= <-] & Hn) & _).
    apply le_positive in Hn. congruence. }
  apply le_positive in Hpositive.
  destruct (truthy (fieldOf "color" fields)); simpl;
    [|split; [discriminate|intros (_ & _ & _ & _ & [=] & _)]].
  destruct (fieldOf "success" fields) as [| | |success| | |] eqn:Hsuccess;
    try (split; [discriminate|intros (_ & _ & _ & _ & _ & (? & [=] & _) & _)]).
  fold (lt (Finite 1) success).
  destruct (lt success (Finite 0) || lt (Finite 1) success) eqn:Hrange.
  { split; [discriminate|]. intros (_ & _ & _ & _ & _ & (n & [= <-] & Hn) & _).
    apply lt_between in Hn. congruence. }
  apply lt_between in Hrange.
  destruct (fieldOf "reserves" fields) as [| | | | |reservesId reserves|] eqn:Hreserves;
    simpl;
    try (split; [discriminate|intros (_ & _ & _ & _ & _ & _ & ? & ? & [=] & _)]).
  unfold forEach.
  rewrite (forEachFrom_Forall _ validReserve)
    by (intros; apply validateReserve_valid).
  split.
  - intros Hall. repeat split; eauto.
  - intros (_ & _ & _ & _ & _ & _ & ? & ? & [= <- <-] & Hall). exact Hall.
Qed.

Lemma validNode_get (node : Value) (name : string) :
  validNode node -> get node name = inr (prop node name).
Proof.
  intros (Hid & _). apply truthy_prop_object in Hid as (identity & fields & ->).
  reflexivity.
Qed.

Lemma some_strictEquals (nodes : list Value) (wanted : Value) :
  Forall validNode nodes ->
  some (fun node => id <~ get node "id" ;; inr (strictEquals id wanted)) nodes
  = inr (existsb (fun node => strictEquals (prop node "id") wanted) nodes).
Proof.
  induction 1 as [|node rest Hnode _ IH]; simpl; [reflexivity|].
  rewrite (validNode_get node "id" Hnode). simpl.
  destruct (strictEquals (prop node "id") wanted); [reflexivity|exact IH].
Qed.

Lemma existsb_Exists {A : Type} (p : A -> bool) (l : list A) :
  existsb p l = true <-> Exists (fun a => p a = true) l.
Proof.
  rewrite existsb_exists, Exists_exists. split; intros (a & Ha & Hp); exists a.
  - split; [now apply list_elem_of_In|exact Hp].
  - split; [now apply list_elem_of_In|exact Hp].
Qed.

Lemma endId_get (v : Value) :
  truthy v = true ->
  (if isString v then inr v else get v "id") = inr (endId v).
Proof. destruct v; simpl; try discriminate; reflexivity. Qed.

Lemma validateLink_valid (nodes : list Value) (link : Value) (index : nat) :
  Forall validNode nodes ->
  validateLink nodes link index = inr tt <-> validLink nodes link.
Proof.
  intros Hnodes. unfold validateLink, validLink.
  destruct link as [| | | | |identity items|identity fields]; simpl;
    try (split; [discriminate|intros [[=] _]]).
  destruct (truthy (fieldOf "source" fields)) eqn:Hsource; simpl;
    [|split; [discriminate|intros [[=] _]]].
  destruct (truthy (fieldOf "target" fields)) eqn:Htarget; simpl;
    [|split; [discriminate|intros (_ & [=] & _)]].
  destruct (fieldOf "value" fields) as [| | |value| | |] eqn:Hvalue;
    try (split; [discriminate|intros (_ & _ & (? & [=] & _) & _)]).
  destruct (lt value (Finite 0)) eqn:Hsign.
  { split; [discriminate|]. intros (_ & _ & (n & [= <-] & Hn) & _).
    apply lt_nonNegative in Hn. congruence. }
  apply lt_nonNegative in Hsign.
  rewrite (endId_get _ Hsource), (endId_get _ Htarget). simpl.
  rewrite !(some_strictEquals nodes _ Hnodes). simpl.
  destruct (existsb _ nodes) eqn:HsourceExists at 1; simpl.
  2:{ split; [discriminate|]. intros (_ & _ & _ & Hexists & _).
      apply existsb_Exists in Hexists. congruence. }
  apply existsb_Exists in HsourceExists.
  destruct (existsb _ nodes) eqn:HtargetExists; simpl.
  2:{ split; [discriminate|]. intros (_ & _ & _ & _ & Hexists).
      apply existsb_Exists in Hexists. congruence. }
  apply existsb_Exists in HtargetExists.
  split; [|reflexivity]. intros _. repeat split; eauto.
Qed.

(** X28.  [validateEcosystemData] returns its argument itself, and does so
    exactly for valid data: an object whose [nodes] and [links] are arrays,
    every node with a truthy [id], [name] and [color], a [type] among
    [root], [branch] and [leaf], a numeric [size] that is not at most 0, a
    numeric [success] that is neither below 0 nor above 1 and an array of
    reserves, every reserve with a truthy [tokenId] and a numeric
    percentage neither below 0 nor above 100, and every link with truthy
    ends, a numeric value that is not below 0, and for each end a node
    whose [id] is identical to the end, if that is a string, and to its
    [id] otherwise.  For all other data it throws.  A number that is
    [NaN] counts as in range throughout, as no comparison rejects it. *)
Theorem validateEcosystemData_accepts (data result : Value) :
  (validateEcosystemData data = inr result <-> result = data /\ validData data) /\
  (~ validData data -> exists thrown, validateEcosystemData data = inl thrown).
Proof.
  assert (Hiff : forall result,
             validateEcosystemData data = inr result
             <-> result = data /\ validData data).
  { clear result. intros result. unfold validateEcosystemData, validData.
    destruct data as [| |[]| | |identity items|identity fields]; simpl;
      try (split; [discriminate|intros (_ & ? & ? & ? & ? & [=] & _)]).
    - destruct n as [| |r|]; simpl;
        try (split; [discriminate|intros (_ & ? & ? & ? & ? & [=] & _)]).
      destruct (Req_dec_T r 0); simpl;
        (split; [discriminate|intros (_ & ? & ? & ? & ? & [=] & _)]).
    - destruct s; simpl;
        (split; [discriminate|intros (_ & ? & ? & ? & ? & [=] & _)]).
    - destruct (fieldOf "nodes" fields) as [| | | | |nodesId nodes|] eqn:Hnodes;
        simpl;
        try (split; [discriminate|intros (_ & ? & ? & ? & ? & [=] & _)]).
      destruct (fieldOf "links" fields) as [| | | | |linksId links|] eqn:Hlinks;
        simpl;
        try (split; [discriminate|intros (_ & ? & ? & ? & ? & _ & [=] & _)]).
      unfold forEach.
      destruct (forEachFrom validateNode nodes 0) as [thrown|[]] eqn:HvalidNodes;
        simpl.
      { split; [discriminate|].
        intros (_ & ? & ? & ? & ? & [= <- <-] & _ & Hall & _).
        apply (forEachFrom_Forall validateNode validNode nodes
                 validateNode_valid 0%nat) in Hall.
        congruence. }
      apply (forEachFrom_Forall validateNode validNode nodes
               validateNode_valid 0%nat) in HvalidNodes.
      destruct (forEachFrom (validateLink nodes) links 0) as [thrown|[]]
        eqn:HvalidLinks; simpl.
      { split; [discriminate|].
        intros (_ & ? & ? & ? & ? & [= <- <-] & [= <- <-] & _ & Hall).
        apply (forEachFrom_Forall (validateLink nodes) (validLink nodes) links
                 (fun link index => validateLink_valid nodes link index HvalidNodes)
                 0%nat) in Hall.
        congruence. }
      apply (forEachFrom_Forall (validateLink nodes) (validLink nodes) links
               (fun link index => validateLink_valid nodes link index HvalidNodes)
               0%nat) in HvalidLinks.
      split.
      + intros [= <-]. split; [reflexivity|]. eauto 10.
      + intros [-> _]. reflexivity. }
  split; [apply Hiff|].
  intros Hinvalid. destruct (validateEcosystemData data) as [thrown|value] eqn:Hrun.
  - eauto.
  - destruct (proj1 (Hiff value) eq_refl) as [_ Hvalid]. contradiction.
Qed.

Lemma exampleData_valid : validData exampleData.
Proof.
  unfold validData, exampleData. simpl. eexists _, _, _, _.
  split; [reflexivity|]. split; [reflexivity|]. split.
  - repeat constructor; simpl; eauto 10.
    + eexists. split; [reflexivity|]. simpl. lra.
    + eexists. split; [reflexivity|]. simpl. lra.
    + eexists _, _. split; [reflexivity|]. repeat constructor. simpl.
      eexists. split; [reflexivity|]. simpl. lra.
  - repeat constructor; simpl; eauto 10.
    eexists. split; [reflexivity|]. simpl. lra.
Qed.

Lemma validateEcosystemData_accepts_witness :
  validateEcosystemData exampleData = inr exampleData.
Proof.
  apply (proj1 (validateEcosystemData_accepts exampleData exampleData)).
  split; [reflexivity|exact exampleData_valid].
Defined.

End ValidationExtras.

(** ** Blending colors and adapting the data *)

Section AdapterExtras.
Import Adapter.
Import Stdlib.Strings.Ascii.
Open Scope Z_scope.

Lemma hexValue_range (c : ascii) (v : Z) :
  hexValue c = Some v -> 0 <= v < 16.
Proof.
  unfold hexValue. cbv zeta.
  repeat match goal with
         | |- context [(?a <=? ?b)] => destruct (Z.leb_spec a b)
         end; simpl; intros [= <-]; lia.
Qed.

Lemma digit_cases (d : Z) :
  0 <= d < 16 ->
  d = 0 \/ d = 1 \/ d = 2 \/ d = 3 \/ d = 4 \/ d = 5 \/ d = 6 \/ d = 7 \/
  d = 8 \/ d = 9 \/ d = 10 \/ d = 11 \/ d = 12 \/ d = 13 \/ d = 14 \/ d = 15.
Proof. lia. Qed.

Lemma hexValue_hexDigit (d : Z) : 0 <= d < 16 -> hexValue (hexDigit d) = Some d.
Proof.
  intros Hd. apply digit_cases in Hd.
  repeat (destruct Hd as [->|Hd]; [reflexivity|]). subst d. reflexivity.
Qed.

Lemma isLowerHex_hexDigit (d : Z) : 0 <= d < 16 -> isLowerHex (hexDigit d) = true.
Proof.
  intros Hd. apply digit_cases in Hd.
  repeat (destruct Hd as [->|Hd]; [reflexivity|]). subst d. reflexivity.
Qed.

Lemma isLowerHex_value (c : ascii) :
  isLowerHex c = true ->
  exists v, hexValue c = Some v /\ hexDigit v = c /\ 0 <= v < 16.
Proof.
  unfold isLowerHex. destruct (hexValue c) as [v|] eqn:Hvalue; [|discriminate].
  intros Heq. apply Ascii.eqb_eq in Heq. exists v.
  split; [reflexivity|]. split; [exact Heq|]. now apply hexValue_range with c.
Qed.

Lemma parseInt16_range (c1 c2 : ascii) (v : Z) :
  parseInt16 c1 c2 = Some v -> 0 <= v <= 255.
Proof.
  unfold parseInt16.
  destruct (hexValue c1) as [v1|] eqn:H1; [|discriminate].
  destruct (hexValue c2) as [v2|] eqn:H2; [|discriminate].
  apply hexValue_range in H1, H2. intros [= <-]. lia.
Qed.

Lemma parseInt16_hexDigit (v : Z) :
  0 <= v <= 255 -> parseInt16 (hexDigit (v / 16)) (hexDigit (v mod 16)) = Some v.
Proof.
  intros Hv. unfold parseInt16.
  rewrite !hexValue_hexDigit by (Z.div_mod_to_equations; lia).
  f_equal. Z.div_mod_to_equations. lia.
Qed.

(** The channels that [hexToRgb] returns are bytes. *)
Lemma hexToRgb_range (hex : string) :
  let '(r, g, b) := hexToRgb hex in
  0 <= r <= 255 /\ 0 <= g <= 255 /\ 0 <= b <= 255.
Proof.
  unfold hexToRgb.
  set (digits := match hex with String "#"%char rest => rest | _ => hex end).
  clearbody digits.
  destruct digits as [|c1 [|c2 [|c3 [|c4 [|c5 [|c6 [|c7 rest]]]]]]]; try lia.
  destruct (parseInt16 c1 c2) as [r|] eqn:Hr; [|lia].
  destruct (parseInt16 c3 c4) as [g|] eqn:Hg; [|lia].
  destruct (parseInt16 c5 c6) as [b|] eqn:Hb; [|lia].
  apply parseInt16_range in Hr, Hg, Hb. lia.
Qed.

(** [Math.round] of the mean of two integers. *)
Lemma Math_round_mean (a b : Z) :
  Math_round ((IZR a + IZR b) / 2) = blendChannel a b.
Proof.
  unfold Math_round, blendChannel. apply Math_floor_bounds.
  pose proof (Z.div_mod (a + b + 1) 2 ltac:(lia)) as Hdiv.
  pose proof (Z.mod_pos_bound (a + b + 1) 2 ltac:(lia)) as Hmod.
  set (q := (a + b + 1) / 2) in *. set (m := (a + b + 1) mod 2) in *.
  assert (Hsum : (IZR a + IZR b + 1 = 2 * IZR q + IZR m)%R).
  { rewrite <- !plus_IZR, <- mult_IZR, <- plus_IZR. f_equal. exact Hdiv. }
  assert (Hm : (0 <= IZR m <= 1)%R).
  { split; apply IZR_le; lia. }
  lra.
Qed.

Lemma ToInt32_small (n : Z) : - 2 ^ 31 <= n < 2 ^ 31 -> ToInt32 n = n.
Proof.
  intros Hn. unfold ToInt32. cbv zeta.
  destruct (Z_lt_le_dec n 0) as [Hneg|Hpos].
  - replace (n mod 2 ^ 32) with (n + 2 ^ 32).
    + destruct (Z.ltb_spec (n + 2 ^ 32) (2 ^ 31)); lia.
    + apply Z.mod_unique with (q := -1); lia.
  - rewrite Z.mod_small by lia. destruct (Z.ltb_spec n (2 ^ 31)); lia.
Qed.

Lemma shiftLeft_byte (a k : Z) :
  0 <= a <= 255 -> 0 <= k <= 16 -> shiftLeft a k = a * 2 ^ k.
Proof.
  intros Ha Hk. unfold shiftLeft.
  rewrite (ToInt32_small a) by lia.
  rewrite (Z.mod_small k 32) by lia.
  rewrite Z.shiftl_mul_pow2 by lia.
  apply ToInt32_small.
  assert (Hpow : 0 < 2 ^ k <= 2 ^ 16).
  { split; [apply Z.pow_pos_nonneg; lia|apply Z.pow_le_mono_r; lia]. }
  nia.
Qed.

Lemma hexDigits_snoc (fuel : nat) (m d : Z) :
  0 < m -> 0 <= d < 16 ->
  hexDigits (S fuel) (16 * m + d)
  = (hexDigits fuel m ++ String (hexDigit d) EmptyString)%string.
Proof.
  intros Hm Hd. simpl.
  destruct (Z.ltb_spec (16 * m + d) 16); [lia|].
  replace ((16 * m + d) / 16) with m by (Z.div_mod_to_equations; lia).
  replace ((16 * m + d) mod 16) with d by (Z.div_mod_to_equations; lia).
  reflexivity.
Qed.

(** What [rgbToHex] writes for three bytes. *)
Lemma rgbToHex_digits (r g b : Z) :
  0 <= r <= 255 -> 0 <= g <= 255 -> 0 <= b <= 255 ->
  rgbToHex r g b
  = String "#"%char
      (String (hexDigit (r / 16)) (String (hexDigit (r mod 16))
      (String (hexDigit (g / 16)) (String (hexDigit (g mod 16))
      (String (hexDigit (b / 16)) (String (hexDigit (b mod 16))
       EmptyString)))))).
Proof.
  intros Hr Hg Hb. unfold rgbToHex.
  rewrite (shiftLeft_byte r 16), (shiftLeft_byte g 8) by lia.
  replace (shiftLeft 1 24) with (2 ^ 24) by reflexivity.
  set (n := 2 ^ 24 + r * 2 ^ 16 + g * 2 ^ 8 + b).
  assert (Hn : 2 ^ 24 <= n < 2 ^ 25) by (subst n; lia).
  unfold toString16. destruct (Z.ltb_spec n 0); [lia|].
  rewrite (Z.log2_unique n 24) by lia.
  change (S (Z.to_nat 24)) with 25%nat.
  assert (Hdigits :
    n = 16 * (16 * (16 * (16 * (16 * (16 * 1 + r / 16) + r mod 16) + g / 16)
                    + g mod 16) + b / 16) + b mod 16).
  { subst n. Z.div_mod_to_equations. lia. }
  rewrite Hdigits.
  assert (0 <= r / 16 < 16 /\ 0 <= r mod 16 < 16 /\ 0 <= g / 16 < 16 /\
          0 <= g mod 16 < 16 /\ 0 <= b / 16 < 16 /\ 0 <= b mod 16 < 16)
    as (Hr1 & Hr0 & Hg1 & Hg0 & Hb1 & Hb0)
    by (Z.div_mod_to_equations; lia).
  rewrite !hexDigits_snoc by lia.
  reflexivity.
Qed.

Lemma hexToRgb_rgbToHex (r g b : Z) :
  0 <= r <= 255 -> 0 <= g <= 255 -> 0 <= b <= 255 ->
  hexToRgb (rgbToHex r g b) = (r, g, b).
Proof.
  intros Hr Hg Hb. rewrite rgbToHex_digits by assumption.
  unfold hexToRgb. cbv iota beta zeta.
  now rewrite !parseInt16_hexDigit by assumption.
Qed.

Lemma isHexColor_rgbToHex (r g b : Z) :
  0 <= r <= 255 -> 0 <= g <= 255 -> 0 <= b <= 255 ->
  isHexColor (rgbToHex r g b) = true.
Proof.
  intros Hr Hg Hb. rewrite rgbToHex_digits by assumption.
  unfold isHexColor, allLowerHex. cbv iota beta.
  rewrite !isLowerHex_hexDigit by (Z.div_mod_to_equations; lia).
  reflexivity.
Qed.

Lemma blendChannel_range (c1 c2 : Z) :
  Z.min c1 c2 <= blendChannel c1 c2 <= Z.max c1 c2.
Proof. unfold blendChannel. Z.div_mod_to_equations. lia. Qed.

Lemma blendColors_rgbToHex (color1 color2 : string) :
  blendColors color1 color2
  = let '(r1, g1, b1) := hexToRgb color1 in
    let '(r2, g2, b2) := hexToRgb color2 in
    rgbToHex (blendChannel r1 r2) (blendChannel g1 g2) (blendChannel b1 b2).
Proof.
  unfold blendColors.
  destruct (hexToRgb color1) as [[r1 g1] b1], (hexToRgb color2) as [[r2 g2] b2].
  now rewrite !Math_round_mean.
Qed.

Lemma blendChannel_same (c : Z) : blendChannel c c = c.
Proof. unfold blendChannel. Z.div_mod_to_equations. lia. Qed.

Lemma blendChannel_comm (c1 c2 : Z) : blendChannel c1 c2 = blendChannel c2 c1.
Proof. unfold blendChannel. f_equal. lia. Qed.

Lemma parseInt16_lower (c1 c2 : ascii) :
  isLowerHex c1 = true -> isLowerHex c2 = true ->
  exists v, parseInt16 c1 c2 = Some v /\ 0 <= v <= 255 /\
            hexDigit (v / 16) = c1 /\ hexDigit (v mod 16) = c2.
Proof.
  intros H1 H2.
  apply isLowerHex_value in H1 as (v1 & Hv1 & Hd1 & Hr1).
  apply isLowerHex_value in H2 as (v2 & Hv2 & Hd2 & Hr2).
  exists (16 * v1 + v2). unfold parseInt16. rewrite Hv1, Hv2.
  split; [reflexivity|]. split; [lia|].
  replace ((16 * v1 + v2) / 16) with v1 by (Z.div_mod_to_equations; lia).
  replace ((16 * v1 + v2) mod 16) with v2 by (Z.div_mod_to_equations; lia).
  now split.
Qed.

Lemma blendColors_same (color : string) :
  isHexColor color = true -> blendColors color color = color.
Proof.
  intros Hcolor. rewrite blendColors_rgbToHex.
  destruct color as [|h digits]; [discriminate|].
  destruct h as [[] [] [] [] [] [] [] []]; try discriminate.
  simpl in Hcolor.
  destruct digits as [|c1 [|c2 [|c3 [|c4 [|c5 [|c6 [|c7 rest]]]]]]];
    try discriminate.
  simpl in Hcolor.
  repeat (apply andb_prop in Hcolor as [? Hcolor]).
  destruct (parseInt16_lower c1 c2) as (r & Hr & Hrange & Hr1 & Hr0); try assumption.
  destruct (parseInt16_lower c3 c4) as (g & Hg & Hgrange & Hg1 & Hg0); try assumption.
  destruct (parseInt16_lower c5 c6) as (b & Hb & Hbrange & Hb1 & Hb0); try assumption.
  unfold hexToRgb. cbv iota beta zeta. rewrite Hr, Hg, Hb.
  rewrite !blendChannel_same, rgbToHex_digits by assumption.
  now rewrite Hr1, Hr0, Hg1, Hg0, Hb1, Hb0.
Qed.

(** X29.  [blendColors] reads each color as three bytes, black when the
    string is not six hexadecimal digits after an optional [#], and writes
    [#] and six lower-case hexadecimal digits that read back as the mean of
    the two colors channel by channel, a half rounded up, so a value between
    the two channels.  The blend does not depend on the order of the two
    colors, and a color already in the form written blended with itself is
    that same string. *)
Theorem blendColors_mean (color1 color2 : string) :
  let '(r1, g1, b1) := hexToRgb color1 in
  let '(r2, g2, b2) := hexToRgb color2 in
  hexToRgb (blendColors color1 color2)
  = (blendChannel r1 r2, blendChannel g1 g2, blendChannel b1 b2) /\
  (Z.min r1 r2 <= blendChannel r1 r2 <= Z.max r1 r2 /\
   Z.min g1 g2 <= blendChannel g1 g2 <= Z.max g1 g2 /\
   Z.min b1 b2 <= blendChannel b1 b2 <= Z.max b1 b2) /\
  isHexColor (blendColors color1 color2) = true /\
  blendColors color1 color2 = blendColors color2 color1 /\
  (isHexColor color1 = true -> blendColors color1 color1 = color1).
Proof.
  pose proof (hexToRgb_range color1) as Hrange1.
  pose proof (hexToRgb_range color2) as Hrange2.
  pose proof (blendColors_same color1) as Hsame.
  rewrite (blendColors_rgbToHex color2 color1).
  rewrite (blendColors_rgbToHex color1 color2).
  destruct (hexToRgb color1) as [[r1 g1] b1], (hexToRgb color2) as [[r2 g2] b2].
  pose proof (blendChannel_range r1 r2). pose proof (blendChannel_range g1 g2).
  pose proof (blendChannel_range b1 b2).
  split; [apply hexToRgb_rgbToHex; lia|]. split; [lia|].
  split; [apply isHexColor_rgbToHex; lia|]. split; [|exact Hsame].
  now rewrite (blendChannel_comm r1 r2), (blendChannel_comm g1 g2),
    (blendChannel_comm b1 b2).
Qed.

Lemma blendColors_mean_witness :
  blendColors "#ff8000" "#ff8000" = "#ff8000"%string.
Proof.
  pose proof (blendColors_mean "#ff8000" "#ff8000") as Hmean.
  simpl in Hmean. destruct Hmean as (_ & _ & _ & _ & Hsame).
  apply Hsame. reflexivity.
Defined.

Lemma nodeMapOf_app (tokens : list TokenData) (node : TokenData) :
  nodeMapOf (tokens ++ [node]) = <[id node := node]> (nodeMapOf tokens).
Proof. unfold nodeMapOf. now rewrite fold_left_app. Qed.

Lemma nodeMapOf_lookup (tokens : list TokenData) (key : string) :
  nodeMapOf tokens !! key = lastWithId key tokens.
Proof.
  unfold lastWithId.
  induction tokens as [|node tokens IH] using rev_ind; [reflexivity|].
  rewrite nodeMapOf_app, rev_app_distr. simpl.
  destruct (String.eqb_spec (id node) key) as [->|Hne].
  - apply lookup_insert_eq.
  - rewrite lookup_insert_ne by exact Hne. exact IH.
Qed.

Lemma lastWithId_spec (key : string) (tokens : list TokenData) :
  match lastWithId key tokens with
  | Some node => In node tokens /\ id node = key
  | None => forall node, In node tokens -> id node <> key
  end.
Proof.
  unfold lastWithId.
  destruct (find _ (rev tokens)) as [node|] eqn:Hfind.
  - apply find_some in Hfind as [Hin Heq]. rewrite <- in_rev in Hin.
    split; [exact Hin|now apply String.eqb_eq].
  - intros node Hin Heq. rewrite in_rev in Hin.
    apply (find_none _ _ Hfind) in Hin. simpl in Hin.
    rewrite <- Heq, String.eqb_refl in Hin. discriminate.
Qed.

Lemma noColor_blend (color1 color2 : string) :
  noColor (Some (blendColors color1 color2)) = false.
Proof.
  rewrite blendColors_rgbToHex.
  destruct (hexToRgb color1) as [[r1 g1] b1], (hexToRgb color2) as [[r2 g2] b2].
  reflexivity.
Qed.

Lemma adaptLink_idempotent (nodeMap : gmap string TokenData) (link : LinkData) :
  adaptLink nodeMap (adaptLink nodeMap link) = adaptLink nodeMap link.
Proof.
  unfold adaptLink. simpl.
  destruct (noColor (linkColor link)) eqn:Hcolor.
  - destruct (nodeMap !! endIdOf (source link)) as [s|] eqn:Hs.
    + destruct (nodeMap !! endIdOf (target link)) as [t|] eqn:Ht.
      * now rewrite noColor_blend.
      * now rewrite Hcolor.
    + now rewrite Hcolor.
  - now rewrite Hcolor.
Qed.

(** X30.  [adaptToForceGraphFormat] returns the nodes as they are and one
    link for each link, in order, with the ids of its ends as strings and
    its value and type kept.  A link that has a non-empty color keeps it.
    A link that has none gets the blend of the colors of its end nodes, a
    non-empty color, when [data.nodes] has a node for the id of each end,
    the last such node counting; otherwise its color stays as it is.
    Adapting the result again changes nothing. *)
Theorem adaptToForceGraphFormat_links (data : EcosystemData) :
  let nodes' := fst (adaptToForceGraphFormat data) in
  let links' := snd (adaptToForceGraphFormat data) in
  nodes' = nodes data /\
  List.length links' = List.length (links data) /\
  (forall (i : nat) (link : LinkData),
     links data !! i = Some link ->
     exists link',
       links' !! i = Some link' /\
       source link' = Id (endIdOf (source link)) /\
       target link' = Id (endIdOf (target link)) /\
       value link' = value link /\
       linkType link' = linkType link /\
       (noColor (linkColor link) = false -> linkColor link' = linkColor link) /\
       (noColor (linkColor link) = true ->
        match lastWithId (endIdOf (source link)) (nodes data),
              lastWithId (endIdOf (target link)) (nodes data) with
        | Some sourceNode, Some targetNode =>
            linkColor link'
            = Some (blendColors (color sourceNode) (color targetNode)) /\
            noColor (linkColor link') = false
        | _, _ => linkColor link' = linkColor link
        end)) /\
  (forall key,
     match lastWithId key (nodes data) with
     | Some node => In node (nodes data) /\ id node = key
     | None => forall node, In node (nodes data) -> id node <> key
     end) /\
  adaptToForceGraphFormat (mkEcosystemData nodes' links' (metadata data))
  = (nodes', links').
Proof.
  intros nodes' links'. subst nodes' links'. unfold adaptToForceGraphFormat.
  simpl. rewrite List.map_id.
  split; [reflexivity|]. split; [apply List.length_map|]. split; [|split].
  - intros i link Hlink. exists (adaptLink (nodeMapOf (nodes data)) link).
    split; [now rewrite list_lookup_fmap_Some; eauto|].
    unfold adaptLink. simpl. rewrite !nodeMapOf_lookup.
    repeat (split; [reflexivity|]). split.
    + intros Hcolor. now rewrite Hcolor.
    + intros Hcolor. rewrite Hcolor.
      destruct (lastWithId (endIdOf (source link)) (nodes data)) as [s|];
        [|reflexivity].
      destruct (lastWithId (endIdOf (target link)) (nodes data)) as [t|];
        [|reflexivity].
      split; [reflexivity|apply noColor_blend].
  - intros key. apply lastWithId_spec.
  - rewrite List.map_id, List.map_map. f_equal. apply List.map_ext.
    intros link. apply adaptLink_idempotent.
Qed.

Lemma adaptToForceGraphFormat_links_witness :
  exists link',
    snd (adaptToForceGraphFormat exampleEcosystem) !! 0%nat = Some link' /\
    source link' = Id "a" /\
    linkColor link' = Some (blendColors "#ff0000" "#000000").
Proof.
  destruct (adaptToForceGraphFormat_links exampleEcosystem)
    as (_ & _ & Hlinks & _).
  destruct (Hlinks 0%nat _ eq_refl)
    as (link' & Hlookup & Hsource & _ & _ & _ & _ & Hcolor).
  exists link'. split; [exact Hlookup|]. split; [exact Hsource|].
  exact (proj1 (Hcolor eq_refl)).
Defined.

End AdapterExtras.
